(** * Discord AI bot: the orchestrator of [discord-ai-bot/ai-agent/bot.py]

    A shallow embedding of [MCPClient] (the JSON-RPC client over the child
    process's pipes) and [DiscordAIBot] (the deduplicating conversation store
    and the polling loop), with the properties of the specification stated
    and proved over it.

    Conventions of the embedding.
    - A decoded JSON value is a [json] tree; a Python [dict] obtained from
      JSON is an association list in key order. Numbers are integers: no
      code path of the program inspects a number, and texts with fractional
      numbers are outside the embedding.
    - A Python [str] is a [string] whose characters are code points below
      256; [encode] and [decode] are the identity on them.
    - Mutable objects are threaded explicitly: a method is a function from
      the object's state to an outcome and the new state. The state written
      before an exception is raised is kept, as in Python.
    - [print] calls produce no value the program reads back and are left
      out; the expressions they evaluate are kept where they can raise.
    - [json.loads] and [str()] of a non-string value belong to the Python
      library, not to this repository: they are parameters of the
      development ([PyLib]). [json.dumps] is not applied: the log of the
      child's input keeps the requests as the values that were serialised.
    - The generation backend, the child process, the clock and the
      interrupts are the environment ([Env] and the answers held by
      [Process]): the properties are proved for every environment.
    - [while True] is run with fuel; an outcome [Running] says that the
      fuel ran out with the loop still going. *)

From Stdlib Require Import ZArith String Ascii List Lia.
From stdpp Require Import base option list strings gmap.

Import ListNotations.
Set Warnings "-register-all,-clear-no-such-hyp".
Local Open Scope string_scope.
Local Open Scope Z_scope.

(** ** Decoded JSON values *)

Inductive json : Type :=
| JNull
| JBool (b : bool)
| JNum (n : Z)
| JStr (s : string)
| JArr (items : list json)
| JObj (fields : list (string * json)).

(** [d.get(k)] on the association list of a dict. *)
Fixpoint assoc (k : string) (fields : list (string * json)) : option json :=
  match fields with
  | [] => None
  | (k', v) :: rest => if String.eqb k k' then Some v else assoc k rest
  end.

(** [d[k] = v]: the value is replaced in place when the key is present, and
    the pair is added at the end otherwise. *)
Fixpoint assoc_set (k : string) (v : json) (fields : list (string * json))
  : list (string * json) :=
  match fields with
  | [] => [(k, v)]
  | (k', v') :: rest =>
      if String.eqb k k' then (k', v) :: rest
      else (k', v') :: assoc_set k v rest
  end.

(** Python truthiness of a decoded value ([if not messages]). *)
Definition truthy (v : json) : bool :=
  match v with
  | JNull => false
  | JBool b => b
  | JNum n => negb (n =? 0)
  | JStr s => negb (String.eqb s "")
  | JArr items => match items with [] => false | _ => true end
  | JObj fields => match fields with [] => false | _ => true end
  end.

(** ** Exceptions and outcomes *)

(** The exception classes the program can meet. All but the last two are
    subclasses of [Exception]; [KeyboardInterrupt] and [CancelledError]
    derive from [BaseException] only. [ConnectionResetError] is what
    [drain] raises once the connection to the child is lost, and
    [ProcessLookupError] what [terminate] raises once the child is gone. *)
Inductive exn : Type :=
| RuntimeError
| MCPError (err : json)
| JSONDecodeError
| KeyError
| TypeError
| AttributeError
| IndexError
| OSError
| ConnectionResetError
| ProcessLookupError
| OllamaError (text : string)
| KeyboardInterrupt
| CancelledError.

Definition is_Exception (e : exn) : bool :=
  match e with
  | KeyboardInterrupt | CancelledError => false
  | _ => true
  end.

(** The outcome of running a piece of code: it returns, it raises, or the
    fuel given to the polling loop ran out while the loop was still going
    ([Running]: control has not left the loop, so no handler has run). *)
Inductive res (A : Type) : Type :=
| Ret (a : A)
| Raise (e : exn)
| Running.
Arguments Ret {A} a.
Arguments Raise {A} e.
Arguments Running {A}.

(** ** Python operations on decoded values *)

(** [v[k]] with a string key. *)
Definition getitem (v : json) (k : string) : res json :=
  match v with
  | JObj fields =>
      match assoc k fields with
      | Some x => Ret x
      | None => Raise KeyError
      end
  | _ => Raise TypeError
  end.

(** [v.get(k, dflt)]. *)
Definition get_default (v : json) (k : string) (dflt : json) : res json :=
  match v with
  | JObj fields => Ret (default dflt (assoc k fields))
  | _ => Raise AttributeError
  end.

(** [v[0]]. *)
Definition getitem0 (v : json) : res json :=
  match v with
  | JArr items =>
      match items with
      | x :: _ => Ret x
      | [] => Raise IndexError
      end
  | JStr s =>
      match s with
      | String c _ => Ret (JStr (String c EmptyString))
      | EmptyString => Raise IndexError
      end
  | JObj _ => Raise KeyError
  | _ => Raise TypeError
  end.

(** [s[n:]]. *)
Fixpoint string_drop (n : nat) (s : string) : string :=
  match n, s with
  | O, _ => s
  | S n', String _ rest => string_drop n' rest
  | S _, EmptyString => EmptyString
  end.

(** [str.isspace] on one character below 256. *)
Definition isspace (c : ascii) : bool :=
  let n := nat_of_ascii c in
  ((9 <=? n) && (n <=? 13) || (28 <=? n) && (n <=? 32)
   || (n =? 133) || (n =? 160))%nat.

Fixpoint lstrip (s : string) : string :=
  match s with
  | String c rest => if isspace c then lstrip rest else s
  | EmptyString => EmptyString
  end.

Fixpoint rstrip (s : string) : string :=
  match s with
  | String c rest =>
      match rstrip rest with
      | EmptyString => if isspace c then EmptyString else String c EmptyString
      | r => String c r
      end
  | EmptyString => EmptyString
  end.

(** [s.strip()]. *)
Definition strip (s : string) : string := rstrip (lstrip s).

(** [sub in s] on strings. *)
Fixpoint contains (sub s : string) : bool :=
  String.prefix sub s ||
  match s with
  | String _ rest => contains sub rest
  | EmptyString => false
  end.

(** [k in v] with a string on the left. *)
Definition is_str (k : string) (v : json) : bool :=
  match v with
  | JStr s => String.eqb s k
  | _ => false
  end.

Definition py_in (k : string) (v : json) : res bool :=
  match v with
  | JObj fields =>
      Ret (match assoc k fields with Some _ => true | None => false end)
  | JArr items => Ret (existsb (is_str k) items)
  | JStr s => Ret (contains k s)
  | _ => Raise TypeError
  end.

(** ** The monad of a method: state passing with exceptions *)

Definition M (S A : Type) : Type := S -> res A * S.

Definition ret {S A} (a : A) : M S A := fun s => (Ret a, s).
Definition raise {S A} (e : exn) : M S A := fun s => (Raise e, s).
Definition lift {S A} (r : res A) : M S A := fun s => (r, s).
Definition gets {S A} (f : S -> A) : M S A := fun s => (Ret (f s), s).
Definition modify {S} (f : S -> S) : M S unit := fun s => (Ret tt, f s).

Definition bind {S A B} (m : M S A) (k : A -> M S B) : M S B :=
  fun s =>
    match m s with
    | (Ret a, s') => k a s'
    | (Raise e, s') => (Raise e, s')
    | (Running, s') => (Running, s')
    end.

Declare Scope py_scope.
Delimit Scope py_scope with py.
Notation "x <- m ;; k" := (bind m (fun x => k))
  (at level 100, m at next level, right associativity) : py_scope.
Notation "m ;;; k" := (bind m (fun _ => k))
  (at level 100, right associativity) : py_scope.
Local Open Scope py_scope.

(** [try: body / except Exception: handler]. *)
Definition try_except_Exception {S A} (body : M S A) (handler : exn -> M S A)
  : M S A :=
  fun s =>
    match body s with
    | (Raise e, s') => if is_Exception e then handler e s' else (Raise e, s')
    | other => other
    end.

(** [try: body / except KeyboardInterrupt: pass / finally: cleanup]. The
    cleanup runs when the body returns and when it raises, whether or not
    the exception was handled; an exception of the cleanup replaces the
    pending one. *)
Definition try_except_KeyboardInterrupt_finally {S}
    (body : M S unit) (cleanup : M S unit) : M S unit :=
  fun s =>
    match body s with
    | (Ret _, s') | (Raise KeyboardInterrupt, s') => cleanup s'
    | (Raise e, s') =>
        match cleanup s' with
        | (Ret _, s'') => (Raise e, s'')
        | other => other
        end
    | (Running, s') => (Running, s')
    end.

(** ** The child process and [MCPClient] *)

(** What the environment does with one request written to the child: the
    child's next output line arrives, or [drain]/[readline] raises (a broken
    pipe, an interrupt delivered while the call is suspended). *)
Inductive io_event : Type :=
| Line (s : string)
| Fault (e : exn).

(** [asyncio.subprocess.Process] as the client sees it: the requests
    handed to [stdin.write] so far (oldest first, whether or not the child
    was there to read them), what the child will answer, and how many times
    [terminate] was called. When [answers] is exhausted nothing more comes
    from the child, for one of two reasons that [exits] tells apart: the
    child has exited and the event loop has dropped it ([exits] is [true]),
    or it has closed its output and lives on ([exits] is [false]). *)
Record Process : Type := mkProcess {
  stdin : list json;
  answers : list io_event;
  terminate_calls : nat;
  exits : bool;
}.

(** The child is gone: it has exited, by itself or because it was
    terminated and waited for. *)
Definition gone (p : Process) : bool :=
  match answers p with
  | [] => exits p
  | _ :: _ => false
  end.

Record MCPClient : Type := mkMCPClient {
  process : option Process;
  _request_id : Z;
}.

Definition set_process (p : option Process) (c : MCPClient) : MCPClient :=
  {| process := p; _request_id := _request_id c |}.

(** [MCPClient(server_path)]: the path is only handed to [start]. *)
Definition MCPClient_init : MCPClient :=
  {| process := None; _request_id := 0 |}.

(** [self.process.stdin.write(...)]: the request as written. The line is
    [json.dumps(request)]; the log keeps the value that was serialised. *)
Definition stdin_write (request : json) : M Process unit :=
  modify (fun p => {| stdin := (stdin p ++ [request])%list;
                      answers := answers p;
                      terminate_calls := terminate_calls p;
                      exits := exits p |}).

(** [await self.process.stdin.drain()] followed by
    [await self.process.stdout.readline()]. On a child that is gone the
    connection is lost and [drain] raises; on a child that lives with its
    output closed [readline] returns the empty line. *)
Definition drain_readline : M Process string :=
  fun p =>
    match answers p with
    | [] => if exits p then (Raise ConnectionResetError, p) else (Ret "", p)
    | ev :: rest =>
        let p' := {| stdin := stdin p; answers := rest;
                     terminate_calls := terminate_calls p;
                     exits := exits p |} in
        match ev with
        | Line s => (Ret s, p')
        | Fault e => (Raise e, p')
        end
    end.

(** [self.process.terminate(); await self.process.wait()]. On a child that
    is gone [terminate] raises and [wait] is not reached. Otherwise the
    child is signalled and waited for: it is taken to die of the signal, so
    that [wait] returns, and from then on it is gone and answers nothing. *)
Definition terminate_wait : M Process unit :=
  fun p =>
    let p' := {| stdin := stdin p; answers := [];
                 terminate_calls := S (terminate_calls p);
                 exits := true |} in
    if gone p then (Raise ProcessLookupError, p') else (Ret tt, p').

(** Run a method of the process object held in [self.process]. *)
Definition on_process {A} (m : M Process A) : M MCPClient A :=
  fun c =>
    match process c with
    | None => (Raise AttributeError, c)
    | Some p => let (r, p') := m p in (r, set_process (Some p') c)
    end.

(** ** Configuration and the world outside the bot *)

Record Config : Type := mkConfig {
  model : string;
  channels : list string;
  trigger : string;
  system_prompt : string;
  poll_interval : Z;
  context_window : Z;
  max_history : Z;
}.

(** One entry of the context handed to the generation backend:
    [{'role': ..., 'content': ...}]. *)
Record ChatMessage : Type := mkChatMessage {
  role : string;
  content : string;
}.

(** What [ollama.chat(...)] followed by [response['message']['content']]
    does on one call: it yields the text, raises an [Exception] whose
    [str()] is [text], or is cut short by an interrupt or a cancellation. *)
Inductive chat_outcome : Type :=
| ChatReturns (text : string)
| ChatFails (text : string)
| ChatInterrupted
| ChatCancelled.

(** The environment of one run. [ollama_check] is what the calls to
    [ollama.list] and [ollama.pull] raise, if anything; [spawn_fault] is
    what spawning the child raises, if anything, and [child] is what the
    spawned child answers, request after request; [child_exits] tells
    whether the child exits once it has answered all that, or closes its
    output and lives on. [chat n ctx] is the backend's behaviour on its
    [n]-th call (from 0) with context [ctx]; [sleep_fault n] is what the
    [n]-th [asyncio.sleep] raises, if anything. *)
Class Env : Type := mkEnv {
  ollama_check : option exn;
  spawn_fault : option exn;
  child : list io_event;
  child_exits : bool;
  chat : nat -> list ChatMessage -> chat_outcome;
  sleep_fault : nat -> option exn;
}.

(** The bot object, with two counters of its calls to the outside: the
    contexts sent to the backend so far and the number of sleeps taken. *)
Record DiscordAIBot : Type := mkBot {
  config : Config;
  mcp : option MCPClient;
  conversation_history : gmap string (list json);
  processed_messages : gset string;
  chat_log : list (list ChatMessage);
  sleeps : nat;
}.

Definition set_mcp (c : option MCPClient) (b : DiscordAIBot) : DiscordAIBot :=
  {| config := config b; mcp := c;
     conversation_history := conversation_history b;
     processed_messages := processed_messages b;
     chat_log := chat_log b; sleeps := sleeps b |}.

Definition set_conversation_history (h : gmap string (list json))
    (b : DiscordAIBot) : DiscordAIBot :=
  {| config := config b; mcp := mcp b;
     conversation_history := h;
     processed_messages := processed_messages b;
     chat_log := chat_log b; sleeps := sleeps b |}.

Definition set_processed_messages (p : gset string) (b : DiscordAIBot)
  : DiscordAIBot :=
  {| config := config b; mcp := mcp b;
     conversation_history := conversation_history b;
     processed_messages := p;
     chat_log := chat_log b; sleeps := sleeps b |}.

Definition set_chat_log (l : list (list ChatMessage)) (b : DiscordAIBot)
  : DiscordAIBot :=
  {| config := config b; mcp := mcp b;
     conversation_history := conversation_history b;
     processed_messages := processed_messages b;
     chat_log := l; sleeps := sleeps b |}.

Definition set_sleeps (n : nat) (b : DiscordAIBot) : DiscordAIBot :=
  {| config := config b; mcp := mcp b;
     conversation_history := conversation_history b;
     processed_messages := processed_messages b;
     chat_log := chat_log b; sleeps := n |}.

(** [DiscordAIBot(config)]. *)
Definition DiscordAIBot_init (cfg : Config) : DiscordAIBot :=
  {| config := cfg; mcp := None;
     conversation_history := ∅; processed_messages := ∅;
     chat_log := []; sleeps := O |}.

(** [self.conversation_history[channel_id]], read as the empty list when the
    channel has no entry yet. *)
Definition history (b : DiscordAIBot) (channel_id : string) : list json :=
  default [] (conversation_history b !! channel_id).

(** Run a method of the client held in [self.mcp]. *)
Definition on_mcp {A} (m : M MCPClient A) : M DiscordAIBot A :=
  fun b =>
    match mcp b with
    | None => (Raise AttributeError, b)
    | Some c => let (r, c') := m c in (r, set_mcp (Some c') b)
    end.

(** [messages[-1]] followed by [last_message['id']], on a truthy value that
    is not a list: a dict has no key [-1]; a string yields its last
    character, which a string key cannot index; the rest cannot be
    subscripted. *)
Definition last_of_non_list (messages : json) : res unit :=
  match messages with
  | JObj _ => Raise KeyError
  | _ => Raise TypeError
  end.

(** [content.startswith(trigger)]. *)
Definition startswith (v : json) (t : string) : res bool :=
  match v with
  | JStr s => Ret (String.prefix t s)
  | _ => Raise AttributeError
  end.

(** [for ch in channels: print(f"... {ch['name']} (ID: {ch['id']}) in
    {ch['guild']}")]: what the loop of the no-channels path evaluates. *)
Fixpoint show_channels (items : list json) : res unit :=
  match items with
  | [] => Ret tt
  | ch :: rest =>
      match getitem ch "name" with
      | Ret _ =>
          match getitem ch "id" with
          | Ret _ =>
              match getitem ch "guild" with
              | Ret _ => show_channels rest
              | Raise e => Raise e
              | Running => Running
              end
          | Raise e => Raise e
          | Running => Running
          end
      | Raise e => Raise e
      | Running => Running
      end
  end.

Definition for_ch_in (channels : json) : res unit :=
  match channels with
  | JArr items => show_channels items
  | JObj [] => Ret tt
  | JStr EmptyString => Ret tt
  | _ => Raise TypeError
  end.

(** The two functions taken from the Python library: [json.loads] on a
    string (the decoded value, or [None] where Python raises
    [json.JSONDecodeError]) and [str(v)] of a decoded value that is not a
    string. *)
Class PyLib : Type := mkPyLib {
  json_loads : string -> option json;
  py_str : json -> string;
}.

(** ** The program *)

Section Program.

Context {lib : PyLib} {world : Env}.

(** [json.loads(v)]. *)
Definition loads (v : json) : res json :=
  match v with
  | JStr s =>
      match json_loads s with
      | Some j => Ret j
      | None => Raise JSONDecodeError
      end
  | _ => Raise TypeError
  end.

(** A value interpolated in an f-string. *)
Definition format (v : json) : string :=
  match v with
  | JStr s => s
  | _ => py_str v
  end.

(** *** [MCPClient] *)

Definition start : M MCPClient unit :=
  match spawn_fault with
  | Some e => raise e
  | None =>
      modify (set_process
                (Some {| stdin := []; answers := child;
                         terminate_calls := O; exits := child_exits |}))
  end.

Definition stop : M MCPClient unit :=
  p <- gets process ;;
  match p with
  | Some _ => on_process terminate_wait
  | None => ret tt
  end.

Definition _next_id : M MCPClient Z :=
  modify (fun c => {| process := process c;
                      _request_id := _request_id c + 1 |}) ;;;
  gets _request_id.

Definition _send_request (method : string) (params : json)
  : M MCPClient json :=
  p <- gets process ;;
  match p with
  | None => raise RuntimeError
  | Some _ =>
      id <- _next_id ;;
      let request :=
        JObj [("jsonrpc", JStr "2.0"); ("id", JNum id);
              ("method", JStr method);
              ("params", if truthy params then params else JObj [])] in
      on_process (stdin_write request) ;;;
      response_line <- on_process drain_readline ;;
      response <- lift (loads (JStr response_line)) ;;
      has_error <- lift (py_in "error" response) ;;
      if has_error : bool then
        err <- lift (getitem response "error") ;;
        raise (MCPError err)
      else
        lift (get_default response "result" (JObj []))
  end.

Definition call_tool (tool_name : string) (arguments : json)
  : M MCPClient json :=
  _send_request "tools/call"
    (JObj [("name", JStr tool_name); ("arguments", arguments)]).

(** [result.get('content', [{}])[0].get('text', '{}')], then [json.loads] of
    it, then [.get(field, [])]: the tail shared by [get_messages] and
    [list_channels]. *)
Definition payload_list (field : string) (result : json) : M MCPClient json :=
  contents <- lift (get_default result "content" (JArr [JObj []])) ;;
  first <- lift (getitem0 contents) ;;
  content <- lift (get_default first "text" (JStr "{}")) ;;
  data <- lift (loads content) ;;
  lift (get_default data field (JArr [])).

Definition get_messages (channel_id : string) (limit : Z)
  : M MCPClient json :=
  result <- call_tool "read_discord_messages"
              (JObj [("channel_id", JStr channel_id); ("limit", JNum limit)]) ;;
  payload_list "messages" result.

Definition send_message (channel_id : string) (message : string)
  : M MCPClient json :=
  call_tool "send_discord_message"
    (JObj [("channel_id", JStr channel_id); ("message", JStr message)]).

Definition list_channels : M MCPClient json :=
  result <- call_tool "list_discord_channels" (JObj []) ;;
  payload_list "channels" result.

(** *** [DiscordAIBot] *)

Definition asyncio_sleep : M DiscordAIBot unit :=
  n <- gets sleeps ;;
  modify (set_sleeps (S n)) ;;;
  match sleep_fault n with
  | Some e => raise e
  | None => ret tt
  end.

(** The calls to [ollama] are the backend's; the method re-raises what they
    raise. *)
Definition _ensure_model_available : M DiscordAIBot unit :=
  match ollama_check with
  | Some e => raise e
  | None => ret tt
  end.

Definition initialize : M DiscordAIBot unit :=
  _ensure_model_available ;;;
  modify (set_mcp (Some MCPClient_init)) ;;;
  on_mcp start ;;;
  asyncio_sleep.

(** The composite key [f"{channel_id}:{msg['id']}"]. *)
Definition composite_key (channel_id : string) (id : json) : string :=
  channel_id +:+ ":" +:+ format id.

(** [self.conversation_history[channel_id].append(msg)]. *)
Definition history_append (channel_id : string) (msg : json)
  : M DiscordAIBot unit :=
  h <- gets conversation_history ;;
  match h !! channel_id with
  | Some l =>
      modify (set_conversation_history
                (<[channel_id := (l ++ [msg])%list]> h))
  | None => raise KeyError
  end.

(** [self.processed_messages.add(msg_id)]. *)
Definition processed_add (msg_id : string) : M DiscordAIBot unit :=
  modify (fun b => set_processed_messages
                     ({[msg_id]} ∪ processed_messages b) b).

(** [if channel_id not in self.conversation_history:
    self.conversation_history[channel_id] = []]. *)
Definition ensure_channel (channel_id : string) : M DiscordAIBot unit :=
  h <- gets conversation_history ;;
  match h !! channel_id with
  | None => modify (set_conversation_history (<[channel_id := []]> h))
  | Some _ => ret tt
  end.

(** The first loop of [_build_context]. *)
Fixpoint ingest_loop (channel_id : string) (messages : list json)
  : M DiscordAIBot unit :=
  match messages with
  | [] => ret tt
  | msg :: rest =>
      id <- lift (getitem msg "id") ;;
      let msg_id := composite_key channel_id id in
      seen <- gets (fun b => bool_decide (msg_id ∈ processed_messages b)) ;;
      (if seen : bool then ret tt
       else
         history_append channel_id msg ;;;
         processed_add msg_id) ;;;
      ingest_loop channel_id rest
  end.

(** The first half of [_build_context], up to the end of its first loop:
    the ingestion of a fetched window into the store. *)
Definition ingest (channel_id : string) (messages : list json)
  : M DiscordAIBot unit :=
  ensure_channel channel_id ;;;
  ingest_loop channel_id messages.

(** The second loop of [_build_context]: one attributed line per stored
    message. *)
Fixpoint render (stored : list json) : res (list ChatMessage) :=
  match stored with
  | [] => Ret []
  | msg :: rest =>
      match getitem msg "author" with
      | Ret author =>
          match getitem msg "content" with
          | Ret text =>
              match render rest with
              | Ret entries =>
                  Ret ({| role := "user";
                          content := "[" +:+ format author +:+ "]: "
                                     +:+ format text |} :: entries)
              | other => other
              end
          | Raise e => Raise e
          | Running => Running
          end
      | Raise e => Raise e
      | Running => Running
      end
  end.

Definition _build_context (channel_id : string) (messages : list json)
  : M DiscordAIBot (list ChatMessage) :=
  ingest channel_id messages ;;;
  sys <- gets (fun b => {| role := "system";
                           content := system_prompt (config b) |}) ;;
  h' <- gets conversation_history ;;
  match h' !! channel_id with
  | Some stored =>
      entries <- lift (render stored) ;;
      ret (sys :: entries)
  | None => raise KeyError
  end.

(** [ollama.chat(...)] and the read of [response['message']['content']]. *)
Definition ollama_chat (context : list ChatMessage) : M DiscordAIBot string :=
  n <- gets (fun b => length (chat_log b)) ;;
  modify (fun b => set_chat_log (chat_log b ++ [context])%list b) ;;;
  match chat n context with
  | ChatReturns text => ret text
  | ChatFails text => raise (OllamaError text)
  | ChatInterrupted => raise KeyboardInterrupt
  | ChatCancelled => raise CancelledError
  end.

(** [str(e)] in the handler of [_generate_response]; the only exceptions
    its [try] block can raise are the backend's. *)
Definition str_exn (e : exn) : string :=
  match e with
  | OllamaError text => text
  | _ => ""
  end.

Definition _generate_response (context : list ChatMessage)
  : M DiscordAIBot string :=
  try_except_Exception
    (ollama_chat context)
    (fun e => ret ("Error generating response: " +:+ str_exn e)).

(** Lines 233-237 of [_process_channel]: the context is built from the
    fetched window, the backend is asked, the reply is sent. *)
Definition answer (channel_id : string) (messages : list json)
  : M DiscordAIBot unit :=
  context <- _build_context channel_id messages ;;
  response <- _generate_response context ;;
  _ <- on_mcp (send_message channel_id response) ;;
  ret tt.

(** The body of the [try] of [_process_channel]. *)
Definition cycle (channel_id : string) : M DiscordAIBot unit :=
  messages <- on_mcp (get_messages channel_id 100) ;;
  if negb (truthy messages) then ret tt
  else
    match messages with
    | JArr items =>
        match last items with
        | None => ret tt
        | Some last_message =>
            id <- lift (getitem last_message "id") ;;
            let msg_id := composite_key channel_id id in
            seen <- gets (fun b =>
                            bool_decide (msg_id ∈ processed_messages b)) ;;
            if seen : bool then ret tt
            else
              text <- lift (getitem last_message "content") ;;
              t <- gets (fun b => trigger (config b)) ;;
              triggered <- lift (startswith text t) ;;
              if negb triggered then processed_add msg_id
              else
                _ <- lift (getitem last_message "author") ;;
                match last_message, text with
                | JObj fields, JStr s =>
                    let user_message :=
                      strip (string_drop (String.length t) s) in
                    let last_message' :=
                      JObj (assoc_set "content" (JStr user_message) fields) in
                    let messages' :=
                      <[Nat.pred (length items) := last_message']> items in
                    answer channel_id messages'
                | _, _ =>
                    (* not reached: the subscripts and [startswith] above
                       have raised on such values *)
                    raise TypeError
                end
        end
    | other => lift (last_of_non_list other)
    end.

Definition _process_channel (channel_id : string) : M DiscordAIBot unit :=
  try_except_Exception (cycle channel_id) (fun _ => ret tt).

(** [if channel_id.strip(): await self._process_channel(channel_id.strip())]
    for each configured channel, in order. *)
Fixpoint visit (chans : list string) : M DiscordAIBot unit :=
  match chans with
  | [] => ret tt
  | channel_id :: rest =>
      (if String.eqb (strip channel_id) "" then ret tt
       else _process_channel (strip channel_id)) ;;;
      visit rest
  end.

(** [while True:] with [fuel] iterations allowed. *)
Fixpoint monitor (fuel : nat) : M DiscordAIBot unit :=
  match fuel with
  | O => fun b => (Running, b)
  | S fuel' =>
      chans <- gets (fun b => channels (config b)) ;;
      visit chans ;;;
      asyncio_sleep ;;;
      monitor fuel'
  end.

(** [if self.mcp: await self.mcp.stop()]. *)
Definition stop_mcp : M DiscordAIBot unit :=
  c <- gets mcp ;;
  match c with
  | Some _ => on_mcp stop
  | None => ret tt
  end.

Definition no_channels (chans : list string) : bool :=
  match chans with
  | [] => true
  | [c] => String.eqb c ""
  | _ => false
  end.

Definition run (fuel : nat) : M DiscordAIBot unit :=
  chans <- gets (fun b => channels (config b)) ;;
  if no_channels chans then
    found <- on_mcp list_channels ;;
    lift (for_ch_in found) ;;;
    ret tt
  else
    try_except_KeyboardInterrupt_finally (monitor fuel) stop_mcp.

(** [main], from the bot built on the configuration read from the
    environment. *)
Definition main (fuel : nat) : M DiscordAIBot unit :=
  try_except_Exception
    (initialize ;;; run fuel)
    (fun e => stop_mcp ;;; raise e).

End Program.

(** ** A concrete world for the examples *)

(** A decoder given by a finite table: the listed texts decode to the
    listed values and every other text fails to decode. *)
Fixpoint table_loads (table : list (string * json)) (s : string)
  : option json :=
  match table with
  | [] => None
  | (text, v) :: rest =>
      if String.eqb s text then Some v else table_loads rest s
  end.

(** The library whose decoder is the table; [str()] of a value that is
    not a string is left as a placeholder, no example interpolates one. *)
Definition table_lib (table : list (string * json)) : PyLib :=
  {| json_loads := table_loads table; py_str := fun _ => "?" |}.

(** A Message as the child reports it. *)
Definition message (id author text : string) : json :=
  JObj [("id", JStr id); ("author", JStr author); ("content", JStr text)].

(** The response line of a tool call whose result carries [text] as its
    inner payload. *)
Definition tool_response (text : string) : json :=
  JObj [("id", JNum 0);
        ("result", JObj [("content", JArr [JObj [("text", JStr text)]])])].

(** The defaults of [Config.from_env], on the channels [chans]. *)
Definition demo_config (chans : list string) : Config :=
  {| model := "qwen2.5:7b"; channels := chans; trigger := "!ai";
     system_prompt := "You are a helpful AI assistant integrated with Discord.";
     poll_interval := 3; context_window := 8192; max_history := 10 |}.

(** An environment without faults: the backend behaves as [backend] on
    every call, and the child answers [out], then closes its output and
    lives on. *)
Definition quiet_env (out : list io_event) (backend : chat_outcome) : Env :=
  {| ollama_check := None; spawn_fault := None; child := out;
     child_exits := false;
     chat := fun _ _ => backend; sleep_fault := fun _ => None |}.

(** ** Notions used to state the properties *)

Section Notions.

Context {lib : PyLib} {world : Env}.

(** [msg['id']] can be read. *)
Definition has_id (msg : json) : bool :=
  match getitem msg "id" with
  | Ret _ => true
  | _ => false
  end.

(** The composite key under which [msg] is deduplicated in channel
    [channel_id], when it has an id. *)
Definition msg_key (channel_id : string) (msg : json) : option string :=
  match getitem msg "id" with
  | Ret v => Some (composite_key channel_id v)
  | _ => None
  end.

(** A mapping with the three fields of a Message. *)
Definition is_message (msg : json) : bool :=
  match getitem msg "id", getitem msg "author", getitem msg "content" with
  | Ret _, Ret _, Ret _ => true
  | _, _, _ => false
  end.

(** The value of a field of a mapping ([JNull] when there is none). *)
Definition field (k : string) (msg : json) : json :=
  match msg with
  | JObj fields => default JNull (assoc k fields)
  | _ => JNull
  end.

(** The attributed line of a stored message. *)
Definition user_line (msg : json) : ChatMessage :=
  {| role := "user";
     content := "[" +:+ format (field "author" msg) +:+ "]: "
                +:+ format (field "content" msg) |}.

(** The state after lines 171-172 of [_build_context]. *)
Definition ensured (channel_id : string) (b : DiscordAIBot) : DiscordAIBot :=
  match conversation_history b !! channel_id with
  | None => set_conversation_history
              (<[channel_id := []]> (conversation_history b)) b
  | Some _ => b
  end.

(** The store after [msg], of key [k], is appended to the history of
    [channel_id] and [k] is recorded. *)
Definition store_add (channel_id : string) (msg : json) (k : string)
    (b : DiscordAIBot) : DiscordAIBot :=
  set_processed_messages ({[k]} ∪ processed_messages b)
    (set_conversation_history
       (<[channel_id := (history b channel_id ++ [msg])%list]>
          (conversation_history b)) b).

(** The store after the messages of a window have gone through the first
    loop of [_build_context], one after the other. *)
Fixpoint ingested (channel_id : string) (messages : list json)
    (b : DiscordAIBot) : DiscordAIBot :=
  match messages with
  | [] => b
  | msg :: rest =>
      match msg_key channel_id msg with
      | Some k =>
          ingested channel_id rest
            (if bool_decide (k ∈ processed_messages b) then b
             else store_add channel_id msg k b)
      | None => b
      end
  end.

(** The union of two fetched windows in arrival order: the first window,
    then the messages of the second whose key the first does not carry. *)
Definition window_union (channel_id : string) (W1 W2 : list json)
  : list json :=
  (W1 ++ filter (fun m => msg_key channel_id m ∉ map (msg_key channel_id) W1)
          W2)%list.

(** The invariant of the store: in every channel, the stored messages have
    pairwise different keys, all of them recorded in the processed set. *)
Definition store_inv (b : DiscordAIBot) : Prop :=
  forall channel_id stored,
    conversation_history b !! channel_id = Some stored ->
    NoDup (map (msg_key channel_id) stored) /\
    Forall (fun m => exists k, msg_key channel_id m = Some k /\
                               k ∈ processed_messages b) stored.

(** The set of the keys carried by a list of messages of a channel. *)
Definition key_set (channel_id : string) (msgs : list json) : gset string :=
  list_to_set (omap (msg_key channel_id) msgs).

(** The store holds, for [channel_id], exactly the messages whose keys make
    up the set [K], and nothing else was ever recorded. *)
Definition holds_exactly (channel_id : string) (K : gset string)
    (b : DiscordAIBot) : Prop :=
  store_inv b /\
  processed_messages b = K /\
  key_set channel_id (history b channel_id) = K /\
  Forall is_message (history b channel_id).

(** The window handed to [_build_context] by a triggered cycle: the fetched
    [items], with the content of the last one (of fields [fields] and
    content [s]) replaced by [s] without the trigger [t], stripped. *)
Definition answer_window (t : string) (items : list json)
    (fields : list (string * json)) (s : string) : list json :=
  <[Nat.pred (length items) :=
      JObj (assoc_set "content"
              (JStr (strip (string_drop (String.length t) s))) fields)]> items.

(** The outcome of an operation on decoded values: a value, or an
    [Exception]. *)
Definition plain {A} (r : res A) : Prop :=
  match r with
  | Ret _ => True
  | Raise e => is_Exception e = true
  | Running => False
  end.

(** An outcome that lets the caller go on: the code returned, or raised an
    [Exception]; or else it was cut short by the fault [ev] the environment
    delivered. *)
Definition recoverable {A} (r : res A) (out : list io_event) : Prop :=
  match r with
  | Ret _ => True
  | Raise e => is_Exception e = true \/ exists rest, out = Fault e :: rest
  | Running => False
  end.

(** The three named operations of the client, as a caller issues them. *)
Inductive client_call : Type :=
| CallGetMessages (channel_id : string) (limit : Z)
| CallSendMessage (channel_id message : string)
| CallListChannels.

Definition do_call (call : client_call) : M MCPClient json :=
  match call with
  | CallGetMessages channel_id limit => get_messages channel_id limit
  | CallSendMessage channel_id message => send_message channel_id message
  | CallListChannels => list_channels
  end.

(** A sequence of calls, each issued on the client as the previous one left
    it (whether it returned or raised). *)
Fixpoint do_calls (calls : list client_call) (c : MCPClient) : MCPClient :=
  match calls with
  | [] => c
  | call :: rest => do_calls rest (snd (do_call call c))
  end.

(** The id a written request carries. *)
Definition request_id (request : json) : option Z :=
  match getitem request "id" with
  | Ret (JNum n) => Some n
  | _ => None
  end.

(** The requests written to the child so far. *)
Definition written (c : MCPClient) : list json :=
  match process c with
  | Some p => stdin p
  | None => []
  end.

(** The request [_send_request] builds. *)
Definition request_of (id : Z) (method : string) (params : json) : json :=
  JObj [("jsonrpc", JStr "2.0"); ("id", JNum id); ("method", JStr method);
        ("params", if truthy params then params else JObj [])].

(** A client whose child was just spawned and will answer [out]. *)
Definition started (out : list io_event) : MCPClient :=
  {| process := Some {| stdin := []; answers := out; terminate_calls := O;
                        exits := child_exits |};
     _request_id := 0 |}.

(** The result envelope of a tool call has no ['content'] list, or the
    first element of that list is a mapping without a ['text'] field. *)
Definition lacks_payload (result : json) : bool :=
  match result with
  | JObj fields =>
      match assoc "content" fields with
      | None => true
      | Some (JArr (JObj first :: _)) =>
          match assoc "text" first with
          | None => true
          | Some _ => false
          end
      | Some _ => false
      end
  | _ => false
  end.

(** The client after one request was written and one answer consumed. *)
Definition after_request (method : string) (params : json) (c : MCPClient)
    (p : Process) : MCPClient :=
  {| process :=
       Some {| stdin := (stdin p
                         ++ [request_of (_request_id c + 1) method params])%list;
               answers := tail (answers p);
               terminate_calls := terminate_calls p;
               exits := exits p |};
     _request_id := _request_id c + 1 |}.

(** The parameters of the three tool calls. *)
Definition read_params (channel_id : string) (limit : Z) : json :=
  JObj [("name", JStr "read_discord_messages");
        ("arguments",
         JObj [("channel_id", JStr channel_id); ("limit", JNum limit)])].

Definition send_params (channel_id message : string) : json :=
  JObj [("name", JStr "send_discord_message");
        ("arguments",
         JObj [("channel_id", JStr channel_id); ("message", JStr message)])].

Definition list_params : json :=
  JObj [("name", JStr "list_discord_channels"); ("arguments", JObj [])].

(** The channels the polling loop visits: those that are not blank. *)
Definition polled (chans : list string) : list string :=
  filter (fun channel_id => strip channel_id <> "") chans.

(** The number of times [terminate] was called on the child of the bot. *)
Definition stop_count (b : DiscordAIBot) : nat :=
  match mcp b with
  | Some c =>
      match process c with
      | Some p => terminate_calls p
      | None => O
      end
  | None => O
  end.

(** The number of requests the bot has written to its child. *)
Definition request_count (b : DiscordAIBot) : nat :=
  match mcp b with
  | Some c => length (written c)
  | None => O
  end.

(** Nothing comes from the child of the bot any more: it has closed its
    output and lives on, or it has exited. *)
Definition output_closed (b : DiscordAIBot) : Prop :=
  exists c p, mcp b = Some c /\ process c = Some p /\ answers p = [].

(** [b'] is [b] but for the state of its client. *)
Definition same_but_mcp (b b' : DiscordAIBot) : Prop :=
  b' = set_mcp (mcp b') b.

(** The ways the polling code changes the client of the bot: not at all,
    or by one request written to a spawned child. *)
Definition client_step (b b' : DiscordAIBot) : Prop :=
  mcp b' = mcp b \/
  exists c p method params,
    mcp b = Some c /\ process c = Some p /\
    mcp b' = Some (after_request method params c p).

(** Running [m] changes the client by such steps only. *)
Definition calls_only {A} (m : M DiscordAIBot A) : Prop :=
  forall b, rtc client_step b (snd (m b)).

(** The bot holds a client whose child was spawned. *)
Definition has_child (b : DiscordAIBot) : Prop :=
  exists c p, mcp b = Some c /\ process c = Some p.

(** The states the bot goes through after [b]: the polling loop changes
    its state by cycles of [_process_channel] and by sleeps only. *)
Inductive later (b : DiscordAIBot) : DiscordAIBot -> Prop :=
| later_now : later b b
| later_cycle b' channel_id :
    later b b' -> later b (snd (_process_channel channel_id b'))
| later_sleep b' :
    later b b' -> later b (snd (asyncio_sleep b')).

(** The attributed line of the message of author [author] whose content
    was [s], the trigger [t] removed and the rest stripped. *)
Definition stripped_line (t : string) (author : json) (s : string)
  : ChatMessage :=
  {| role := "user";
     content := "[" +:+ format author +:+ "]: "
                +:+ strip (string_drop (String.length t) s) |}.

(** The two operations of the store: the ingestion of a window, and the
    recording of a key without storing the message (line 224). *)
Inductive store_op : Type :=
| OpIngest (channel_id : string) (messages : list json)
| OpMark (channel_id : string) (id : json).

Definition do_op (op : store_op) : M DiscordAIBot unit :=
  match op with
  | OpIngest channel_id messages => ingest channel_id messages
  | OpMark channel_id id => processed_add (composite_key channel_id id)
  end.

(** A sequence of operations, each run on the state the previous one left
    (whether it returned or raised). *)
Fixpoint do_ops (ops : list store_op) (b : DiscordAIBot) : DiscordAIBot :=
  match ops with
  | [] => b
  | op :: rest => do_ops rest (snd (do_op op b))
  end.

(** The ways the program changes the state of the bot, as far as the store
    is concerned: a message with a key not yet recorded is appended and its
    key recorded, in one step; a key is recorded alone; a channel gets its
    empty history; or the store is left as it is. *)
Inductive store_step : DiscordAIBot -> DiscordAIBot -> Prop :=
| step_add channel_id msg k b :
    msg_key channel_id msg = Some k ->
    k ∉ processed_messages b ->
    store_step b (store_add channel_id msg k b)
| step_mark k b :
    store_step b (set_processed_messages ({[k]} ∪ processed_messages b) b)
| step_ensure channel_id b :
    store_step b (ensured channel_id b)
| step_other b b' :
    conversation_history b' = conversation_history b ->
    processed_messages b' = processed_messages b ->
    store_step b b'.

(** Running [m] from any state changes the store by such steps only. *)
Definition evolves {A} (m : M DiscordAIBot A) : Prop :=
  forall b, rtc store_step b (snd (m b)).

(** Nothing is ever removed between [b] and [b']: the processed set of [b]
    is included in that of [b'], and every history of [b] is a prefix of
    the history of the same channel in [b']. *)
Definition store_le (b b' : DiscordAIBot) : Prop :=
  processed_messages b ⊆ processed_messages b' /\
  forall channel_id,
    history b channel_id `prefix_of` history b' channel_id.

End Notions.

(** The world of the no-channels path: no channel is configured
    ([MONITORED_CHANNEL_IDS] unset gives the list [['']]), and the child
    answers the listing of the channels with one channel. *)
Definition bootstrap_lib : PyLib := table_lib
  [("line-channels", tool_response "payload-channels");
   ("payload-channels",
    JObj [("channels",
           JArr [JObj [("id", JStr "42"); ("name", JStr "general");
                       ("guild", JStr "home")]])])].

Definition bootstrap_env : Env :=
  quiet_env [Line "line-channels"] (ChatReturns "").

Definition bootstrap_bot : DiscordAIBot := DiscordAIBot_init (demo_config [""]).

(** The bot that monitors the one channel [c1]. *)
Definition polling_bot : DiscordAIBot := DiscordAIBot_init (demo_config ["c1"]).

Definition alice_hello : json := message "1" "alice" "hello".
Definition bob_asks : json := message "2" "bob" "!ai what time is it".
Definition bob_again : json := message "3" "bob" "!ai again".

(** The line by which the child acknowledges a message sent. *)
Definition ack : json := JObj [("id", JNum 0); ("result", JObj [])].

(** A world in which the child has closed its output before the first
    poll and lives on: nothing is left to read, and no text decodes. *)
Definition silent_lib : PyLib := table_lib [].
Definition silent_env : Env := quiet_env [] (ChatReturns "").
Definition silent_bot : DiscordAIBot :=
  snd (initialize (world := silent_env) polling_bot).

(** A world in which the child has exited before the first poll. *)
Definition exited_env : Env :=
  {| ollama_check := None; spawn_fault := None; child := [];
     child_exits := true;
     chat := fun _ _ => ChatReturns ""; sleep_fault := fun _ => None |}.

Definition exited_bot : DiscordAIBot :=
  snd (initialize (world := exited_env) polling_bot).

(** A world of three polls of [c1]. The first fetch returns alice's
    greeting followed by bob's question, the second alice's greeting alone
    (bob's question has been deleted), the third alice's greeting followed
    by a new question. *)
Definition replay_lib : PyLib := table_lib
  [("fetch-1", tool_response "window-1");
   ("window-1", JObj [("messages", JArr [alice_hello; bob_asks])]);
   ("fetch-2", tool_response "window-2");
   ("window-2", JObj [("messages", JArr [alice_hello])]);
   ("fetch-3", tool_response "window-3");
   ("window-3", JObj [("messages", JArr [alice_hello; bob_again])]);
   ("ack", ack)].

Definition replay_env : Env :=
  quiet_env [Line "fetch-1"; Line "ack"; Line "fetch-2"; Line "fetch-3";
             Line "ack"]
    (ChatReturns "ok").

Definition replay_bot : DiscordAIBot :=
  snd (initialize (world := replay_env) polling_bot).

Definition replay_cycle (b : DiscordAIBot) : DiscordAIBot :=
  snd (_process_channel (lib := replay_lib) (world := replay_env) "c1" b).

(** A world of one poll in which bob asks and the backend fails. *)
Definition failing_lib : PyLib := table_lib
  [("fetch-ask", tool_response "window-ask");
   ("window-ask", JObj [("messages", JArr [bob_asks])]);
   ("ack", ack)].

Definition failing_env : Env :=
  quiet_env [Line "fetch-ask"; Line "ack"] (ChatFails "connection refused").

Definition failing_bot : DiscordAIBot :=
  snd (initialize (world := failing_env) polling_bot).

(** A world of one poll whose tool result carries a text that does not
    decode. *)
Definition garbled_lib : PyLib := table_lib
  [("fetch-garbled", tool_response "not json")].

Definition garbled_env : Env :=
  quiet_env [Line "fetch-garbled"] (ChatReturns "").

Definition garbled_bot : DiscordAIBot :=
  snd (initialize (world := garbled_env) polling_bot).

(** The states of that world after the fetch and after the context is
    built, and the context. *)
Definition failing_fetched : DiscordAIBot :=
  snd (on_mcp (get_messages (lib := failing_lib) "c1" 100) failing_bot).

Definition failing_window : list json :=
  answer_window "!ai" [bob_asks]
    [("id", JStr "2"); ("author", JStr "bob");
     ("content", JStr "!ai what time is it")]
    "!ai what time is it".

Definition failing_built : DiscordAIBot :=
  snd (_build_context (lib := failing_lib) "c1" failing_window
         failing_fetched).

Definition failing_context : list ChatMessage :=
  [{| role := "system";
      content := "You are a helpful AI assistant integrated with Discord." |};
   {| role := "user"; content := "[bob]: what time is it" |}].

(** The process of a bot after its first fetch of [c1], the child having
    [out] left to answer. *)
Definition fetched_process (out : list io_event) : Process :=
  {| stdin := [request_of 1 "tools/call" (read_params "c1" 100)];
     answers := out; terminate_calls := O; exits := false |}.

Definition fetched_client (out : list io_event) : MCPClient :=
  {| process := Some (fetched_process out); _request_id := 1 |}.

(** A world whose tool result is an envelope without a ['content'] list. *)
Definition bare_lib : PyLib := table_lib
  [("fetch-bare", ack); ("{}", JObj [])].

Definition bare_env : Env := quiet_env [Line "fetch-bare"] (ChatReturns "").

(** ** Notions for the further properties *)

Section FurtherNotions.

Context {lib : PyLib} {world : Env}.

(** The parameters of the tool call a named operation makes. *)
Definition params_of (call : client_call) : json :=
  match call with
  | CallGetMessages channel_id limit => read_params channel_id limit
  | CallSendMessage channel_id message => send_params channel_id message
  | CallListChannels => list_params
  end.

(** The requests of a sequence of calls, numbered from [id]. *)
Fixpoint requests_from (id : Z) (calls : list client_call) : list json :=
  match calls with
  | [] => []
  | call :: rest =>
      request_of id "tools/call" (params_of call) :: requests_from (id + 1) rest
  end.

(** The process [p] after [terminate] was called on it once more: the
    child is gone, whether it was already or died of the signal. *)
Definition terminated_once (p : Process) : Process :=
  {| stdin := stdin p; answers := [];
     terminate_calls := S (terminate_calls p); exits := true |}.

(** The faults the child of the bot still has in store are all
    [Exception]s: no interrupt will be delivered during a call. *)
Definition calm (b : DiscordAIBot) : Prop :=
  forall c p,
    mcp b = Some c -> process c = Some p ->
    Forall (fun ev => match ev with
                      | Fault e => is_Exception e = true
                      | Line _ => True
                      end) (answers p).

(** The backend is never interrupted: each of its calls returns a text or
    raises an [Exception]. *)
Definition backend_calm : Prop :=
  forall n context,
    match chat n context with
    | ChatReturns _ | ChatFails _ => True
    | ChatInterrupted | ChatCancelled => False
    end.

(** From a calm bot, [m] returns or raises an [Exception], and leaves a
    calm bot. *)
Definition steady {A} (m : M DiscordAIBot A) : Prop :=
  forall b, calm b -> plain (fst (m b)) /\ calm (snd (m b)).

(** The requests the bot has written to its child, and the id of the last
    one. *)
Definition wire (b : DiscordAIBot) : list json :=
  match mcp b with
  | Some c => written c
  | None => []
  end.

Definition last_id (b : DiscordAIBot) : Z :=
  match mcp b with
  | Some c => _request_id c
  | None => 0
  end.

(** [msg['author']] and [msg['content']] can be read: the second loop of
    [_build_context] gets past [msg]. *)
Definition renders (msg : json) : bool :=
  match getitem msg "author", getitem msg "content" with
  | Ret _, Ret _ => true
  | _, _ => false
  end.

(** The child the bot holds is gone. *)
Definition child_gone (b : DiscordAIBot) : bool :=
  match mcp b with
  | Some c =>
      match process c with
      | Some p => gone p
      | None => false
      end
  | None => false
  end.

(** The bot after a successful [initialize]: the client is in place, the
    child spawned, the first sleep taken. *)
Definition initialized (cfg : Config) : DiscordAIBot :=
  set_sleeps 1 (set_mcp (Some (started child)) (DiscordAIBot_init cfg)).

(** The bot [b] with its child terminated once more. *)
Definition with_child_stopped (b : DiscordAIBot) : DiscordAIBot :=
  match mcp b with
  | Some c =>
      match process c with
      | Some p => set_mcp (Some (set_process (Some (terminated_once p)) c)) b
      | None => b
      end
  | None => b
  end.

End FurtherNotions.

(** ** The configuration read from the environment *)

(** [s.split(sep)] for a separator of one character. *)
Fixpoint str_split (sep : ascii) (s : string) : list string :=
  match s with
  | EmptyString => [""]
  | String a rest =>
      if Ascii.eqb a sep then "" :: str_split sep rest
      else
        match str_split sep rest with
        | piece :: pieces => String a piece :: pieces
        | [] => [String a ""] (* not reached: a split has a first piece *)
        end
  end.

(** What [from_env] reads outside the program: the environment variables
    (as [load_dotenv] left them) and, for the name of a prompt file, the
    text that reading the path made from it gives, or the exception that
    reading it raises; a name without an entry is a path that does not
    exist. *)
Record OS : Type := mkOS {
  environ : gmap string string;
  files : gmap string (string + exn);
}.

(** [os.getenv(key, fallback)]. *)
Definition getenv (os : OS) (key fallback : string) : string :=
  default fallback (environ os !! key).

Definition from_env (os : OS) : res Config :=
  let system_prompt :=
    getenv os "SYSTEM_PROMPT"
      "You are a helpful AI assistant integrated with Discord." in
  let prompt_file := environ os !! "SYSTEM_PROMPT_FILE" in
  let chosen :=
    match prompt_file with
    | Some name =>
        if String.eqb name "" then Ret system_prompt
        else
          match files os !! name with
          | Some (inl text) => Ret (strip text)
          | Some (inr e) => Raise e
          | None => Ret system_prompt
          end
    | None => Ret system_prompt
    end in
  match chosen with
  | Ret system_prompt' =>
      Ret {| model := getenv os "OLLAMA_MODEL" "qwen2.5:7b";
             channels := str_split "," (getenv os "MONITORED_CHANNEL_IDS" "");
             trigger := getenv os "BOT_TRIGGER_PREFIX" "!ai";
             system_prompt := system_prompt';
             poll_interval := 3; context_window := 8192; max_history := 10 |}
  | Raise e => Raise e
  | Running => Running
  end.

(** [sep.join(pieces)]. *)
Fixpoint str_join (sep : string) (pieces : list string) : string :=
  match pieces with
  | [] => ""
  | [piece] => piece
  | piece :: rest => piece +:+ sep +:+ str_join sep rest
  end.

(** ** Worlds for the further properties *)

(** A world in which the child refuses the reply: bob asks, the backend
    answers, the sending comes back with an error response, and the next
    fetch returns the same window. *)
Definition refusing_lib : PyLib := table_lib
  [("fetch-ask", tool_response "window-ask");
   ("window-ask", JObj [("messages", JArr [bob_asks])]);
   ("refused", JObj [("id", JNum 0); ("error", JStr "rate limited")])].

Definition refusing_env : Env :=
  quiet_env [Line "fetch-ask"; Line "refused"; Line "fetch-ask"]
    (ChatReturns "noon").

Definition refusing_bot : DiscordAIBot :=
  snd (initialize (world := refusing_env) polling_bot).

Definition refusing_fetched : DiscordAIBot :=
  snd (on_mcp (get_messages (lib := refusing_lib) "c1" 100) refusing_bot).

Definition refusing_answered : DiscordAIBot :=
  snd (answer (lib := refusing_lib) (world := refusing_env) "c1"
         failing_window refusing_fetched).

(** The worlds of bob's question in which the backend answers, and in
    which it is interrupted. *)
Definition answering_env : Env :=
  quiet_env [Line "fetch-ask"; Line "ack"] (ChatReturns "noon").

Definition interrupting_env : Env :=
  quiet_env [Line "fetch-ask"; Line "ack"] ChatInterrupted.

(** Worlds in which the start-up fails: the backend cannot be reached, the
    child cannot be spawned, the sleep after the spawn is interrupted. *)
Definition offline_env : Env :=
  {| ollama_check := Some OSError; spawn_fault := None; child := [];
     child_exits := false;
     chat := fun _ _ => ChatReturns ""; sleep_fault := fun _ => None |}.

Definition spawnless_env : Env :=
  {| ollama_check := None; spawn_fault := Some OSError; child := [];
     child_exits := false;
     chat := fun _ _ => ChatReturns ""; sleep_fault := fun _ => None |}.

Definition hasty_env : Env :=
  {| ollama_check := None; spawn_fault := None; child := [];
     child_exits := false;
     chat := fun _ _ => ChatReturns "";
     sleep_fault := fun n => match n with
                             | O => Some KeyboardInterrupt
                             | _ => None
                             end |}.



(** A message without an author, and the bot that has stored it. *)
Definition anonymous : json := JObj [("id", JStr "9"); ("content", JStr "hi")].

Definition poisoned_bot : DiscordAIBot :=
  snd (ingest (lib := silent_lib) "c1" [anonymous] polling_bot).

(** A message without an id. *)
Definition unnumbered : json :=
  JObj [("author", JStr "eve"); ("content", JStr "hi")].

(** An environment that names two channels, and one that names a prompt
    file. *)
Definition two_channels_os : OS :=
  {| environ := {["MONITORED_CHANNEL_IDS" := "c1, c2"]}; files := ∅ |}.

Definition prompt_file_os : OS :=
  {| environ := {["SYSTEM_PROMPT_FILE" := "prompt.txt"]};
     files := {["prompt.txt" := inl "  Be brief.  "]} |}.

(** * Properties *)

Example strip_example : strip "  what time is it " = "what time is it".
Proof. reflexivity. Qed.

Ltac mstep :=
  unfold bind, gets, lift, modify, ret, raise in *; simpl in *.

Section Store.

Context {lib : PyLib}.

Lemma has_id_key channel_id msg :
  has_id msg -> exists k, msg_key channel_id msg = Some k.
Proof.
  unfold has_id, msg_key. destruct (getitem msg "id"); simpl; try done.
  eauto.
Qed.

Lemma is_message_has_id msg : is_message msg -> has_id msg.
Proof.
  unfold is_message, has_id. by destruct (getitem msg "id").
Qed.

Lemma ingest_loop_cons channel_id msg rest k b stored :
  msg_key channel_id msg = Some k ->
  conversation_history b !! channel_id = Some stored ->
  ingest_loop channel_id (msg :: rest) b =
  ingest_loop channel_id rest
    (if bool_decide (k ∈ processed_messages b) then b
     else store_add channel_id msg k b).
Proof.
  unfold msg_key. intros Hk Hs. simpl.
  destruct (getitem msg "id") as [v| |] eqn:Hv; try done.
  injection Hk as <-.
  unfold bind at 1. unfold lift at 1.
  unfold bind at 1. unfold gets at 1.
  destruct (bool_decide _) eqn:Hd.
  - reflexivity.
  - unfold bind at 1. unfold history_append, processed_add.
    mstep. rewrite Hs. simpl.
    unfold store_add, history. by rewrite Hs.
Qed.

Lemma ingested_entry channel_id messages b :
  is_Some (conversation_history b !! channel_id) ->
  is_Some (conversation_history (ingested channel_id messages b) !! channel_id).
Proof.
  revert b. induction messages as [|msg rest IH]; intros b Hb; simpl; [done|].
  destruct (msg_key channel_id msg) as [k|]; [|done].
  apply IH. case_bool_decide; [done|].
  unfold store_add. simpl. rewrite lookup_insert_eq. eauto.
Qed.

(** On messages that carry an id, the loop returns and leaves the store
    described by [ingested]. *)
Lemma ingest_loop_spec channel_id messages b :
  is_Some (conversation_history b !! channel_id) ->
  Forall has_id messages ->
  ingest_loop channel_id messages b = (Ret tt, ingested channel_id messages b).
Proof.
  revert b. induction messages as [|msg rest IH]; intros b [stored Hs] Hall.
  - reflexivity.
  - inversion Hall as [|? ? Hid Hrest]; subst.
    destruct (has_id_key channel_id msg Hid) as [k Hk].
    rewrite (ingest_loop_cons _ _ _ k b stored Hk Hs).
    simpl. rewrite Hk. apply IH; [|done].
    case_bool_decide; [eauto|].
    unfold store_add. simpl. rewrite lookup_insert_eq. eauto.
Qed.

Lemma ensure_channel_spec channel_id b :
  ensure_channel channel_id b = (Ret tt, ensured channel_id b).
Proof.
  unfold ensure_channel, ensured. mstep.
  by destruct (conversation_history b !! channel_id).
Qed.

Lemma ensured_entry channel_id b :
  is_Some (conversation_history (ensured channel_id b) !! channel_id).
Proof.
  unfold ensured.
  destruct (conversation_history b !! channel_id) eqn:E; simpl.
  - rewrite E. eauto.
  - rewrite lookup_insert_eq. eauto.
Qed.

Lemma ensured_id channel_id b :
  is_Some (conversation_history b !! channel_id) -> ensured channel_id b = b.
Proof. unfold ensured. by intros [? ->]. Qed.

Lemma ingest_spec channel_id messages b :
  Forall has_id messages ->
  ingest channel_id messages b =
  (Ret tt, ingested channel_id messages (ensured channel_id b)).
Proof.
  intros Hall. unfold ingest. unfold bind.
  rewrite ensure_channel_spec.
  apply ingest_loop_spec; [apply ensured_entry | done].
Qed.


Lemma ingested_app channel_id W1 W2 b :
  Forall has_id W1 ->
  ingested channel_id (W1 ++ W2) b =
  ingested channel_id W2 (ingested channel_id W1 b).
Proof.
  revert b. induction W1 as [|msg rest IH]; intros b Hall; simpl; [done|].
  inversion Hall as [|? ? Hid Hrest]; subst.
  destruct (has_id_key channel_id msg Hid) as [k ->].
  by apply IH.
Qed.

Lemma store_add_processed channel_id msg k b :
  processed_messages (store_add channel_id msg k b)
  = {[k]} ∪ processed_messages b.
Proof. reflexivity. Qed.

(** The processed set only grows along an ingestion. *)
Lemma ingested_processed_mono channel_id messages b :
  processed_messages b ⊆ processed_messages (ingested channel_id messages b).
Proof.
  revert b. induction messages as [|msg rest IH]; intros b; simpl; [done|].
  destruct (msg_key channel_id msg) as [k|]; [|done].
  etrans; [|apply IH].
  case_bool_decide; [done|]. rewrite store_add_processed. set_solver.
Qed.

(** Every key of an ingested window is recorded. *)
Lemma ingested_keys_processed channel_id messages b :
  Forall has_id messages ->
  forall msg k, msg ∈ messages -> msg_key channel_id msg = Some k ->
    k ∈ processed_messages (ingested channel_id messages b).
Proof.
  revert b. induction messages as [|m rest IH]; intros b Hall msg k Hin Hk.
  - by apply elem_of_nil in Hin.
  - inversion Hall as [|? ? Hid Hrest]; subst. simpl.
    destruct (has_id_key channel_id m Hid) as [km Hkm]. rewrite Hkm.
    apply elem_of_cons in Hin as [->|Hin].
    + assert (km = k) as -> by congruence.
      apply ingested_processed_mono.
      case_bool_decide; [done|]. rewrite store_add_processed. set_solver.
    + by eapply IH.
Qed.

(** Messages whose key is already recorded can be left out of a window. *)
Lemma ingested_filter channel_id (P : json -> Prop) `{!forall m, Decision (P m)}
    messages b :
  Forall has_id messages ->
  (forall msg k, msg ∈ messages -> ~ P msg -> msg_key channel_id msg = Some k ->
     k ∈ processed_messages b) ->
  ingested channel_id (filter P messages) b = ingested channel_id messages b.
Proof.
  revert b. induction messages as [|m rest IH]; intros b Hall Hskip; [done|].
  inversion Hall as [|? ? Hid Hrest]; subst.
  destruct (has_id_key channel_id m Hid) as [km Hkm].
  assert (forall b', processed_messages b ⊆ processed_messages b' ->
            ingested channel_id (filter P rest) b' = ingested channel_id rest b')
    as IH'.
  { intros b' Hsub. apply IH; [done|]. intros msg k Hin HP Hk.
    apply Hsub. eapply Hskip; eauto. by apply elem_of_cons; right. }
  rewrite filter_cons. destruct (decide (P m)) as [HP|HP]; simpl; rewrite Hkm.
  - apply IH'. case_bool_decide; [done|]. rewrite store_add_processed.
    set_solver.
  - assert (km ∈ processed_messages b) as Hin.
    { eapply Hskip; eauto. by apply elem_of_cons; left. }
    rewrite bool_decide_eq_true_2 by done. by apply IH'.
Qed.


Lemma history_store_add channel_id msg k b :
  history (store_add channel_id msg k b) channel_id
  = (history b channel_id ++ [msg])%list.
Proof. unfold history at 1, store_add. simpl. by rewrite lookup_insert_eq. Qed.

Lemma history_store_add_ne channel_id other msg k b :
  channel_id <> other ->
  history (store_add channel_id msg k b) other = history b other.
Proof.
  intros Hne. unfold history, store_add. simpl. by rewrite lookup_insert_ne.
Qed.

Lemma history_ensured channel_id other b :
  history (ensured channel_id b) other = history b other.
Proof.
  unfold ensured, history.
  destruct (conversation_history b !! channel_id) eqn:E; [done|]. simpl.
  destruct (decide (channel_id = other)) as [<-|Hne].
  - by rewrite lookup_insert_eq, E.
  - by rewrite lookup_insert_ne.
Qed.

Lemma store_inv_ext b b' :
  conversation_history b' = conversation_history b ->
  processed_messages b ⊆ processed_messages b' ->
  store_inv b -> store_inv b'.
Proof.
  intros Hh Hp Hinv c stored Hs. rewrite Hh in Hs.
  destruct (Hinv c stored Hs) as [Hnd Hall]. split; [done|].
  eapply Forall_impl; [exact Hall|]. intros m (k & Hk & Hin). eauto.
Qed.

Lemma store_inv_init cfg : store_inv (DiscordAIBot_init cfg).
Proof. intros c stored Hs. simpl in Hs. by rewrite lookup_empty in Hs. Qed.

Lemma store_inv_ensured channel_id b :
  store_inv b -> store_inv (ensured channel_id b).
Proof.
  intros Hinv. unfold ensured.
  destruct (conversation_history b !! channel_id) eqn:E; [done|].
  intros c stored Hs. simpl in Hs.
  destruct (decide (channel_id = c)) as [<-|Hne].
  - rewrite lookup_insert_eq in Hs. injection Hs as <-.
    split; [constructor | constructor].
  - rewrite lookup_insert_ne in Hs by done. by apply Hinv.
Qed.

Lemma store_inv_history b channel_id :
  store_inv b ->
  NoDup (map (msg_key channel_id) (history b channel_id)) /\
  Forall (fun m => exists k, msg_key channel_id m = Some k /\
                             k ∈ processed_messages b) (history b channel_id).
Proof.
  intros Hinv. unfold history.
  destruct (conversation_history b !! channel_id) as [l|] eqn:E; simpl.
  - by apply Hinv.
  - split; constructor.
Qed.

Lemma store_inv_add channel_id msg k b :
  msg_key channel_id msg = Some k ->
  k ∉ processed_messages b ->
  store_inv b -> store_inv (store_add channel_id msg k b).
Proof.
  intros Hk Hfresh Hinv c stored Hs. unfold store_add in Hs. simpl in Hs.
  rewrite store_add_processed.
  destruct (decide (channel_id = c)) as [<-|Hne].
  - rewrite lookup_insert_eq in Hs. injection Hs as <-.
    destruct (store_inv_history b channel_id Hinv) as [Hnd Hall].
    split.
    + rewrite map_app. simpl. apply NoDup_app. split; [done|]. split.
      * intros x Hx Hx'. apply list_elem_of_singleton in Hx'. subst x.
        apply list_elem_of_fmap in Hx as (m & Hm & Hin).
        rewrite Forall_forall in Hall.
        destruct (Hall m Hin) as (k' & Hk' & Hin').
        rewrite Hk in Hm. rewrite Hk' in Hm. injection Hm as ->. done.
      * apply NoDup_singleton.
    + apply Forall_app. split.
      * eapply Forall_impl; [exact Hall|]. intros m (k' & Hk' & Hin).
        exists k'. split; [done|]. set_solver.
      * constructor; [|constructor]. exists k. split; [done|]. set_solver.
  - rewrite lookup_insert_ne in Hs by done.
    destruct (Hinv c stored Hs) as [Hnd Hall]. split; [done|].
    eapply Forall_impl; [exact Hall|]. intros m (k' & Hk' & Hin).
    exists k'. split; [done|]. set_solver.
Qed.

Lemma store_inv_ingested channel_id messages b :
  store_inv b -> store_inv (ingested channel_id messages b).
Proof.
  revert b. induction messages as [|msg rest IH]; intros b Hinv; simpl; [done|].
  destruct (msg_key channel_id msg) as [k|] eqn:Hk; [|done].
  apply IH. case_bool_decide; [done|]. by apply store_inv_add.
Qed.

(** Ingestion only appends to the history of its channel and leaves the
    other channels alone. *)
Lemma ingested_history_prefix channel_id messages b :
  history b channel_id `prefix_of`
  history (ingested channel_id messages b) channel_id.
Proof.
  revert b. induction messages as [|msg rest IH]; intros b; simpl; [done|].
  destruct (msg_key channel_id msg) as [k|]; [|done].
  etrans; [|apply IH]. case_bool_decide; [done|].
  rewrite history_store_add. by apply prefix_app_r.
Qed.

Lemma ingested_history_ne channel_id other messages b :
  channel_id <> other ->
  history (ingested channel_id messages b) other = history b other.
Proof.
  intros Hne. revert b.
  induction messages as [|msg rest IH]; intros b; simpl; [done|].
  destruct (msg_key channel_id msg) as [k|]; [|done].
  rewrite IH. case_bool_decide; [done|]. by apply history_store_add_ne.
Qed.


Lemma filter_none {A} (P : A -> Prop) `{!forall x, Decision (P x)} (l : list A) :
  Forall (fun x => ~ P x) l -> filter P l = [].
Proof.
  induction 1 as [|x l Hx Hl IH]; [done|]. by rewrite filter_cons_False.
Qed.

Lemma filter_all {A} (P : A -> Prop) `{!forall x, Decision (P x)} (l : list A) :
  Forall P l -> filter P l = l.
Proof.
  induction 1 as [|x l Hx Hl IH]; [done|]. rewrite filter_cons_True by done.
  by rewrite IH.
Qed.

(** Two windows [A ++ O] and [O ++ B] of one sequence [A ++ O ++ B] whose
    messages have pairwise different keys: their union is the sequence. *)
Lemma window_union_overlap channel_id (A O B : list json) :
  NoDup (map (msg_key channel_id) (A ++ O ++ B)) ->
  window_union channel_id (A ++ O) (O ++ B) = (A ++ O ++ B)%list.
Proof.
  intros Hnd. unfold window_union. rewrite filter_app.
  rewrite filter_none, filter_all; [by rewrite <- app_assoc| |].
  - apply Forall_forall. intros m Hm Hin.
    rewrite app_assoc, map_app in Hnd.
    apply NoDup_app in Hnd as (_ & Hdisj & _).
    apply (Hdisj _ Hin). apply list_elem_of_fmap. eauto.
  - apply Forall_forall. intros m Hm Hnot. apply Hnot.
    rewrite map_app. apply elem_of_app. right.
    apply list_elem_of_fmap. eauto.
Qed.

(** C1. Ingestion is idempotent: ingesting a window [W1] and then a window
    [W2] of the same channel (both made of messages that carry an id)
    returns normally and leaves the same store -- the same history of every
    channel and the same processed set -- as one ingestion of their union in
    arrival order, and as one ingestion of [W1] followed by [W2]; ingesting
    [W1] a second time changes nothing; and when the store was consistent
    before, the history of the channel holds no two entries with the same
    composite key. For two overlapping windows of a sequence whose messages
    have pairwise different keys, the union in arrival order is that
    sequence. *)
Theorem ingest_windows_idempotent channel_id (W1 W2 : list json) b :
  Forall has_id W1 -> Forall has_id W2 -> store_inv b ->
  let b1 := snd (ingest channel_id W1 b) in
  let b2 := snd (ingest channel_id W2 b1) in
  ingest channel_id W1 b = (Ret tt, b1) /\
  ingest channel_id W2 b1 = (Ret tt, b2) /\
  ingest channel_id (window_union channel_id W1 W2) b = (Ret tt, b2) /\
  ingest channel_id (W1 ++ W2) b = (Ret tt, b2) /\
  ingest channel_id W1 b1 = (Ret tt, b1) /\
  NoDup (map (msg_key channel_id) (history b2 channel_id)) /\
  (forall A O B : list json,
     W1 = (A ++ O)%list -> W2 = (O ++ B)%list ->
     NoDup (map (msg_key channel_id) (A ++ O ++ B)) ->
     window_union channel_id W1 W2 = (A ++ O ++ B)%list).
Proof.
  intros H1 H2 Hinv b1 b2. subst b1 b2.
  rewrite !ingest_spec by done. simpl.
  assert (is_Some (conversation_history
            (ingested channel_id W1 (ensured channel_id b)) !! channel_id))
    as Hentry by apply ingested_entry, ensured_entry.
  rewrite (ensured_id _ _ Hentry).
  assert (Forall has_id (window_union channel_id W1 W2)) as H12.
  { unfold window_union. apply Forall_app. split; [done|].
    apply Forall_forall. intros m Hm.
    apply list_elem_of_filter in Hm as [_ Hm].
    rewrite Forall_forall in H2. by apply H2. }
  rewrite !ingest_spec by (done || by apply Forall_app). simpl.
  rewrite (ensured_id _ _ Hentry).
  repeat split.
  - f_equal. unfold window_union. rewrite ingested_app by done.
    apply ingested_filter; [done|].
    intros msg k Hin Hnot Hk. apply dec_stable in Hnot.
    apply list_elem_of_fmap in Hnot as (m1 & Hm1 & Hin1).
    eapply ingested_keys_processed; [done|exact Hin1|congruence].
  - f_equal. by apply ingested_app.
  - f_equal. rewrite <- (ingested_filter channel_id (fun _ => False) W1).
    + by rewrite filter_none by (apply Forall_forall; tauto).
    + done.
    + intros msg k Hin _ Hk. by eapply ingested_keys_processed.
  - apply store_inv_history.
    by apply store_inv_ingested, store_inv_ingested, store_inv_ensured.
  - intros A O B -> ->. apply window_union_overlap.
Qed.


(** Whatever the messages are, the loop leaves the store described by
    [ingested]: a message without an id stops it where it stands. *)
Lemma ingest_loop_state channel_id messages b :
  is_Some (conversation_history b !! channel_id) ->
  snd (ingest_loop channel_id messages b) = ingested channel_id messages b.
Proof.
  revert b. induction messages as [|msg rest IH]; intros b [stored Hs].
  - reflexivity.
  - destruct (msg_key channel_id msg) as [k|] eqn:Hk.
    + rewrite (ingest_loop_cons _ _ _ k b stored Hk Hs). simpl. rewrite Hk.
      apply IH. case_bool_decide; [eauto|].
      unfold store_add. simpl. rewrite lookup_insert_eq. eauto.
    + simpl. rewrite Hk. unfold msg_key in Hk. unfold bind, lift.
      by destruct (getitem msg "id").
Qed.

Lemma ingest_state channel_id messages b :
  snd (ingest channel_id messages b)
  = ingested channel_id messages (ensured channel_id b).
Proof.
  unfold ingest, bind. rewrite ensure_channel_spec.
  apply ingest_loop_state, ensured_entry.
Qed.

Lemma ingested_steps channel_id messages b :
  rtc store_step b (ingested channel_id messages b).
Proof.
  revert b. induction messages as [|msg rest IH]; intros b; simpl; [done|].
  destruct (msg_key channel_id msg) as [k|] eqn:Hk; [|done].
  case_bool_decide; [done|].
  eapply rtc_l; [|apply IH]. by apply step_add.
Qed.

Lemma store_step_le b b' : store_step b b' -> store_le b b'.
Proof.
  destruct 1 as [ch msg k b Hk Hfresh|k b|ch b|b b' Hh Hp].
  - split; [rewrite store_add_processed; set_solver|].
    intros c. destruct (decide (ch = c)) as [<-|Hne].
    + rewrite history_store_add. by apply prefix_app_r.
    + by rewrite history_store_add_ne.
  - split; [simpl; set_solver | done].
  - split; [by unfold ensured; destruct (_ !! _)|].
    intros c. by rewrite history_ensured.
  - split; [by rewrite Hp|]. intros c. unfold history. by rewrite Hh.
Qed.

Lemma store_steps_le b b' : rtc store_step b b' -> store_le b b'.
Proof.
  induction 1 as [b|b b1 b2 Hstep _ [IHp IHh]]; [done|].
  destruct (store_step_le _ _ Hstep) as [Hp Hh]. split.
  - set_solver.
  - intros c. etrans; [apply Hh | apply IHh].
Qed.

Lemma store_step_inv b b' : store_step b b' -> store_inv b -> store_inv b'.
Proof.
  destruct 1 as [ch msg k b Hk Hfresh|k b|ch b|b b' Hh Hp]; intros Hinv.
  - by apply store_inv_add.
  - eapply store_inv_ext; [| |exact Hinv]; simpl; [done|set_solver].
  - by apply store_inv_ensured.
  - eapply store_inv_ext; [done| |exact Hinv]. by rewrite Hp.
Qed.

Lemma store_steps_inv b b' :
  rtc store_step b b' -> store_inv b -> store_inv b'.
Proof. induction 1; eauto using store_step_inv. Qed.

(** A key that is recorded while no stored message of the channel carries it
    is never carried by a stored message of that channel later on. *)
Lemma store_steps_absent channel_id k b b' :
  rtc store_step b b' ->
  k ∈ processed_messages b ->
  Forall (fun m => msg_key channel_id m <> Some k) (history b channel_id) ->
  k ∈ processed_messages b' /\
  Forall (fun m => msg_key channel_id m <> Some k) (history b' channel_id).
Proof.
  induction 1 as [b|b b1 b2 Hstep _ IH]; intros Hin Habs; [done|].
  apply IH.
  - by apply (store_step_le _ _ Hstep).
  - destruct Hstep as [ch msg k' b Hk Hfresh|k' b|ch b|b b' Hh Hp].
    + destruct (decide (ch = channel_id)) as [->|Hne].
      * rewrite history_store_add. apply Forall_app. split; [done|].
        constructor; [|constructor]. rewrite Hk. intros [= ->]. done.
      * by rewrite history_store_add_ne.
    + done.
    + by rewrite history_ensured.
    + unfold history. by rewrite Hh.
Qed.

End Store.

Section Cycle.

Context {lib : PyLib} {world : Env}.

Lemma evolves_ret {A} (a : A) : evolves (ret a).
Proof. intros b. apply rtc_refl. Qed.

Lemma evolves_raise {A} e : evolves (raise (A := A) e).
Proof. intros b. apply rtc_refl. Qed.

Lemma evolves_lift {A} (r : res A) : evolves (lift r).
Proof. intros b. apply rtc_refl. Qed.

Lemma evolves_gets {A} (f : DiscordAIBot -> A) : evolves (gets f).
Proof. intros b. apply rtc_refl. Qed.

Lemma evolves_bind {A B} (m : M DiscordAIBot A) (k : A -> M DiscordAIBot B) :
  evolves m -> (forall a, evolves (k a)) -> evolves (bind m k).
Proof.
  intros Hm Hk b. unfold bind. specialize (Hm b).
  destruct (m b) as [[a|e|] b1]; simpl in *; [|done|done].
  etrans; [exact Hm | apply Hk].
Qed.

Lemma evolves_try {A} (body : M DiscordAIBot A) handler :
  evolves body -> (forall e, evolves (handler e)) ->
  evolves (try_except_Exception body handler).
Proof.
  intros Hm Hk b. unfold try_except_Exception. specialize (Hm b).
  destruct (body b) as [[a|e|] b1]; simpl in *; [done| |done].
  destruct (is_Exception e); [|done].
  etrans; [exact Hm | apply Hk].
Qed.

Lemma evolves_finally (body cleanup : M DiscordAIBot unit) :
  evolves body -> evolves cleanup ->
  evolves (try_except_KeyboardInterrupt_finally body cleanup).
Proof.
  intros Hm Hk b. unfold try_except_KeyboardInterrupt_finally.
  specialize (Hm b).
  destruct (body b) as [[a|e|] b1]; simpl in *; [| |done].
  - etrans; [exact Hm | apply Hk].
  - assert (rtc store_step b (snd (cleanup b1))) as Hc
      by (etrans; [exact Hm | apply Hk]).
    destruct e; try exact Hc;
      by destruct (cleanup b1) as [[?|?|] ?].
Qed.

Lemma evolves_other {A} (m : M DiscordAIBot A) :
  (forall b, conversation_history (snd (m b)) = conversation_history b /\
             processed_messages (snd (m b)) = processed_messages b) ->
  evolves m.
Proof.
  intros H b. destruct (H b). apply rtc_once. by apply step_other.
Qed.

Lemma evolves_on_mcp {A} (m : M MCPClient A) : evolves (on_mcp m).
Proof.
  apply evolves_other. intros b. unfold on_mcp.
  destruct (mcp b); [|done]. by destruct (m _).
Qed.

Lemma evolves_processed_add k : evolves (processed_add k).
Proof. intros b. apply rtc_once. apply step_mark. Qed.

Lemma evolves_ingest channel_id messages : evolves (ingest channel_id messages).
Proof.
  intros b. rewrite ingest_state.
  eapply rtc_l; [apply step_ensure | apply ingested_steps].
Qed.

Ltac evolve_with known :=
  repeat first
    [ known
    | apply evolves_ret | apply evolves_raise | apply evolves_lift
    | apply evolves_gets | apply evolves_on_mcp | apply evolves_processed_add
    | apply evolves_ingest
    | apply evolves_bind; [|intros ?]
    | apply evolves_try; [|intros ?]
    | match goal with
      | |- evolves (match ?x with _ => _ end) => destruct x
      end ].

Lemma evolves_build_context channel_id messages :
  evolves (_build_context channel_id messages).
Proof. unfold _build_context. evolve_with fail. Qed.

Lemma evolves_generate_response context :
  evolves (_generate_response context).
Proof.
  unfold _generate_response, ollama_chat. evolve_with fail.
  by apply evolves_other.
Qed.

Ltac evolve :=
  evolve_with
    ltac:(first [apply evolves_build_context
                |apply evolves_generate_response]).

Lemma evolves_process_channel channel_id :
  evolves (_process_channel channel_id).
Proof. unfold _process_channel, cycle, answer. evolve. Qed.

Lemma evolves_sleep : evolves asyncio_sleep.
Proof. unfold asyncio_sleep. evolve. by apply evolves_other. Qed.

Lemma evolves_visit chans : evolves (visit chans).
Proof.
  induction chans as [|c rest IH]; simpl; [apply evolves_ret|].
  apply evolves_bind; [|by intros].
  destruct (String.eqb _ _);
    [apply evolves_ret | apply evolves_process_channel].
Qed.

Lemma evolves_monitor fuel : evolves (monitor fuel).
Proof.
  induction fuel as [|fuel IH]; simpl.
  - intros b. apply rtc_refl.
  - apply evolves_bind; [apply evolves_gets|intros chans].
    apply evolves_bind; [apply evolves_visit|intros _].
    apply evolves_bind; [apply evolves_sleep|by intros].
Qed.

Lemma evolves_stop_mcp : evolves stop_mcp.
Proof. unfold stop_mcp. evolve. Qed.

Lemma evolves_run fuel : evolves (run fuel).
Proof.
  unfold run. apply evolves_bind; [apply evolves_gets|intros chans].
  destruct (no_channels chans).
  - evolve.
  - apply evolves_finally; auto using evolves_monitor, evolves_stop_mcp.
Qed.


Lemma evolves_do_op op : evolves (do_op op).
Proof. destruct op; simpl; [apply evolves_ingest|apply evolves_processed_add]. Qed.

Lemma do_ops_steps ops b : rtc store_step b (do_ops ops b).
Proof.
  revert b. induction ops as [|op rest IH]; intros b; simpl; [done|].
  etrans; [apply evolves_do_op | apply IH].
Qed.

Lemma processed_ensured channel_id b :
  processed_messages (ensured channel_id b) = processed_messages b.
Proof. unfold ensured. by destruct (_ !! _). Qed.

Lemma msg_key_has_id channel_id msg k :
  msg_key channel_id msg = Some k -> has_id msg.
Proof.
  unfold msg_key, has_id. by destruct (getitem msg "id").
Qed.

(** C2. The invariant of the store. After any sequence of ingestions and of
    recordings without storing, from the empty store, the stored messages of
    every channel have pairwise different keys that are all in the processed
    set. At any state, ingesting one message that has a key returns
    normally, and the message is appended to the history of its channel
    exactly when its key was not in the processed set at that moment, the
    key being recorded in the same step; otherwise history and processed set
    are left as they were. Recording without storing adds the key and leaves
    every history alone. No operation removes anything: across an ingestion,
    a recording, a channel cycle or the whole of [run], the processed set
    only grows, every history only grows at its end, and a consistent store
    stays consistent. *)
Theorem store_invariant cfg (ops : list store_op) (b : DiscordAIBot) :
  store_inv (do_ops ops (DiscordAIBot_init cfg)) /\
  (forall channel_id msg k,
     msg_key channel_id msg = Some k ->
     let b' := snd (ingest channel_id [msg] b) in
     ingest channel_id [msg] b = (Ret tt, b') /\
     (k ∉ processed_messages b ->
        history b' channel_id = (history b channel_id ++ [msg])%list /\
        processed_messages b' = {[k]} ∪ processed_messages b) /\
     (k ∈ processed_messages b ->
        history b' channel_id = history b channel_id /\
        processed_messages b' = processed_messages b)) /\
  (forall channel_id id,
     let k := composite_key channel_id id in
     let b' := snd (processed_add k b) in
     processed_messages b' = {[k]} ∪ processed_messages b /\
     conversation_history b' = conversation_history b) /\
  (forall op,
     store_le b (snd (do_op op b)) /\
     (store_inv b -> store_inv (snd (do_op op b)))) /\
  (forall channel_id,
     store_le b (snd (_process_channel channel_id b)) /\
     (store_inv b -> store_inv (snd (_process_channel channel_id b)))) /\
  (forall fuel,
     store_le b (snd (run fuel b)) /\
     (store_inv b -> store_inv (snd (run fuel b)))).
Proof.
  split; [|split; [|split; [|split; [|split]]]].
  - eapply store_steps_inv; [apply do_ops_steps | apply store_inv_init].
  - intros channel_id msg k Hk b'. subst b'.
    assert (Forall has_id [msg]) as Hall
      by (constructor; [by eapply msg_key_has_id | constructor]).
    rewrite ingest_spec by done. simpl. rewrite Hk, processed_ensured.
    split; [done|]. split; intros Hin.
    + rewrite bool_decide_eq_false_2 by done.
      rewrite history_store_add, history_ensured, store_add_processed.
      by rewrite processed_ensured.
    + rewrite bool_decide_eq_true_2 by done.
      by rewrite history_ensured, processed_ensured.
  - done.
  - intros op. split;
      [apply store_steps_le | apply store_steps_inv]; apply evolves_do_op.
  - intros channel_id. split;
      [apply store_steps_le | apply store_steps_inv];
      apply evolves_process_channel.
  - intros fuel. split;
      [apply store_steps_le | apply store_steps_inv]; apply evolves_run.
Qed.


Lemma render_messages stored :
  Forall is_message stored -> render stored = Ret (map user_line stored).
Proof.
  induction 1 as [|msg rest Hmsg Hrest IH]; [done|]. simpl. rewrite IH.
  unfold is_message in Hmsg. unfold user_line, field.
  destruct msg as [| | | | |fields]; simpl in *; try done.
  destruct (assoc "id" fields); [|done].
  destruct (assoc "author" fields); [|done].
  by destruct (assoc "content" fields).
Qed.

Lemma ingested_history_Forall (P : json -> Prop) channel_id messages b :
  Forall P messages -> Forall P (history b channel_id) ->
  Forall P (history (ingested channel_id messages b) channel_id).
Proof.
  revert b. induction messages as [|msg rest IH]; intros b Hall Hb; [done|].
  inversion Hall as [|? ? Hmsg Hrest]; subst. simpl.
  destruct (msg_key channel_id msg) as [k|]; [|done].
  apply IH; [done|]. case_bool_decide; [done|].
  rewrite history_store_add. apply Forall_app. split; [done|].
  by constructor.
Qed.

(** Every message of an ingested window is in the history afterwards, or a
    message with its key was recorded before it came. *)
Lemma ingested_covers channel_id messages b :
  Forall has_id messages ->
  forall msg, msg ∈ messages ->
    exists k, msg_key channel_id msg = Some k /\
      (k ∈ processed_messages b \/
       exists m, m ∈ history (ingested channel_id messages b) channel_id /\
                 msg_key channel_id m = Some k).
Proof.
  revert b. induction messages as [|m rest IH]; intros b Hall msg Hin.
  - by apply elem_of_nil in Hin.
  - inversion Hall as [|? ? Hid Hrest]; subst. simpl.
    destruct (has_id_key channel_id m Hid) as [km Hkm]. rewrite Hkm.
    apply elem_of_cons in Hin as [->|Hin].
    + exists km. split; [done|]. case_bool_decide as Hd; [by left|right].
      exists m. split; [|done].
      eapply elem_of_prefix; [|apply ingested_history_prefix].
      rewrite history_store_add. apply elem_of_app. right.
      by apply list_elem_of_singleton.
    + destruct (IH (if bool_decide (km ∈ processed_messages b) then b
                    else store_add channel_id m km b) Hrest msg Hin)
        as (k & Hk & Hcase).
      exists k. split; [done|]. destruct Hcase as [Hp|Hm]; [|by right].
      case_bool_decide as Hd; [by left|].
      rewrite store_add_processed in Hp.
      apply elem_of_union in Hp as [Hp|Hp]; [|by left].
      apply elem_of_singleton in Hp. subst k. right.
      exists m. split; [|done].
      eapply elem_of_prefix; [|apply ingested_history_prefix].
      rewrite history_store_add. apply elem_of_app. right.
      by apply list_elem_of_singleton.
Qed.

Lemma history_lookup b channel_id :
  is_Some (conversation_history b !! channel_id) ->
  conversation_history b !! channel_id = Some (history b channel_id).
Proof. unfold history. by intros [l ->]. Qed.

(** What [_build_context] returns on messages that are Messages. *)
Lemma build_context_spec channel_id messages b :
  Forall is_message messages ->
  Forall is_message (history b channel_id) ->
  let b' := ingested channel_id messages (ensured channel_id b) in
  _build_context channel_id messages b
  = (Ret ({| role := "system"; content := system_prompt (config b') |}
          :: map user_line (history b' channel_id)), b').
Proof.
  intros Hall Hb b'. unfold _build_context.
  assert (Forall has_id messages) as Hids
    by (eapply Forall_impl; [exact Hall | apply is_message_has_id]).
  unfold bind at 1. rewrite (ingest_spec _ _ _ Hids). fold b'.
  unfold bind at 1. unfold gets at 1.
  unfold bind at 1. unfold gets at 1.
  rewrite history_lookup by apply ingested_entry, ensured_entry. fold b'.
  unfold bind, lift, ret. rewrite render_messages; [done|].
  apply ingested_history_Forall; [done|]. by rewrite history_ensured.
Qed.


Lemma config_ingested channel_id messages b :
  config (ingested channel_id messages (ensured channel_id b)) = config b.
Proof.
  assert (config (ensured channel_id b) = config b) as <-
    by (unfold ensured; by destruct (_ !! _)).
  generalize (ensured channel_id b). intros b0. revert b0.
  induction messages as [|msg rest IH]; intros b0; simpl; [done|].
  destruct (msg_key channel_id msg) as [k|]; [|done].
  rewrite IH. by case_bool_decide.
Qed.

Lemma chat_log_ingested channel_id messages b :
  chat_log (ingested channel_id messages (ensured channel_id b)) = chat_log b.
Proof.
  assert (chat_log (ensured channel_id b) = chat_log b) as <-
    by (unfold ensured; by destruct (_ !! _)).
  generalize (ensured channel_id b). intros b0. revert b0.
  induction messages as [|msg rest IH]; intros b0; simpl; [done|].
  destruct (msg_key channel_id msg) as [k|]; [|done].
  rewrite IH. by case_bool_decide.
Qed.

Lemma key_set_app channel_id l1 l2 :
  key_set channel_id (l1 ++ l2) = key_set channel_id l1 ∪ key_set channel_id l2.
Proof.
  unfold key_set. rewrite omap_app. apply leibniz_equiv.
  apply list_to_set_app.
Qed.

Lemma key_set_singleton channel_id msg k :
  msg_key channel_id msg = Some k -> key_set channel_id [msg] = {[k]}.
Proof. unfold key_set. simpl. intros ->. simpl. set_solver. Qed.

Lemma key_set_cons channel_id msg rest k :
  msg_key channel_id msg = Some k ->
  key_set channel_id (msg :: rest) = {[k]} ∪ key_set channel_id rest.
Proof. unfold key_set. simpl. by intros ->. Qed.

Lemma holds_exactly_ingested channel_id K messages b :
  Forall is_message messages ->
  holds_exactly channel_id K b ->
  holds_exactly channel_id (K ∪ key_set channel_id messages)
    (ingested channel_id messages b).
Proof.
  revert K b. induction messages as [|msg rest IH]; intros K b Hall HJ.
  - simpl. unfold key_set. simpl.
    by replace (K ∪ ∅) with K by set_solver.
  - inversion Hall as [|? ? Hmsg Hrest]; subst. simpl.
    destruct (has_id_key channel_id msg (is_message_has_id _ Hmsg))
      as [k Hk].
    rewrite Hk, (key_set_cons _ _ _ _ Hk).
    destruct HJ as (Hinv & Hp & Hs & Hm).
    case_bool_decide as Hd.
    + replace (K ∪ ({[k]} ∪ key_set channel_id rest))
        with (K ∪ key_set channel_id rest) by set_solver.
      by apply IH.
    + replace (K ∪ ({[k]} ∪ key_set channel_id rest))
        with (({[k]} ∪ K) ∪ key_set channel_id rest) by set_solver.
      apply IH; [done|]. split; [by apply store_inv_add|].
      split; [by rewrite store_add_processed, Hp|].
      rewrite history_store_add. split.
      * rewrite key_set_app, Hs, (key_set_singleton _ _ _ Hk). set_solver.
      * apply Forall_app. split; [done|]. by constructor.
Qed.

Lemma holds_exactly_ensured channel_id K b :
  holds_exactly channel_id K b ->
  holds_exactly channel_id K (ensured channel_id b).
Proof.
  intros (Hinv & Hp & Hs & Hm). split; [by apply store_inv_ensured|].
  by rewrite processed_ensured, history_ensured.
Qed.

Lemma holds_exactly_ops channel_id K (Ws : list (list json)) b :
  Forall (Forall is_message) Ws ->
  holds_exactly channel_id K b ->
  holds_exactly channel_id (K ∪ key_set channel_id (concat Ws))
    (do_ops (map (OpIngest channel_id) Ws) b).
Proof.
  revert K b. induction Ws as [|W rest IH]; intros K b Hall HJ.
  - simpl. unfold key_set. simpl. by replace (K ∪ ∅) with K by set_solver.
  - inversion Hall as [|? ? HW Hrest]; subst. simpl.
    rewrite key_set_app.
    replace (K ∪ (key_set channel_id W ∪ key_set channel_id (concat rest)))
      with ((K ∪ key_set channel_id W) ∪ key_set channel_id (concat rest))
      by set_solver.
    apply IH; [done|]. rewrite ingest_state.
    by apply holds_exactly_ingested, holds_exactly_ensured.
Qed.

Lemma holds_exactly_length channel_id K b :
  holds_exactly channel_id K b -> length (history b channel_id) = size K.
Proof.
  intros (Hinv & Hp & Hs & Hm). subst K. rewrite <- Hs. unfold key_set.
  destruct (store_inv_history b channel_id Hinv) as [Hnd Hall].
  assert (map (msg_key channel_id) (history b channel_id)
          = map Some (omap (msg_key channel_id) (history b channel_id)))
    as Heq.
  { clear Hnd Hs Hm. induction Hall as [|m l (k & Hk & _) _ IH]; [done|].
    simpl. rewrite Hk. simpl. by f_equal. }
  rewrite Heq in Hnd. apply NoDup_fmap_1 in Hnd.
  rewrite size_list_to_set by done.
  apply (f_equal length) in Heq. by rewrite !length_map in Heq.
Qed.


(** C4. The structure of the context and its unbounded growth. On fetched
    and stored messages that are Messages, and a consistent store,
    [_build_context] returns: its result is the system entry followed by one
    attributed line [[author]: content] per message stored for the channel
    after the ingestion, in storage order; it has exactly one entry more
    than there are stored messages; everything stored before is still
    there, in the same order (nothing is truncated or summarised, whatever
    the length); the stored messages have pairwise different keys; and when
    the store was built from the empty one by ingesting windows into this
    channel, the number of stored messages is the number of distinct keys
    among all the messages ever ingested. *)
Theorem build_context_unbounded channel_id (messages : list json) b :
  Forall is_message messages ->
  Forall is_message (history b channel_id) ->
  store_inv b ->
  let b' := snd (_build_context channel_id messages b) in
  let stored := history b' channel_id in
  _build_context channel_id messages b
  = (Ret ({| role := "system"; content := system_prompt (config b) |}
          :: map user_line stored), b') /\
  (forall ctx, fst (_build_context channel_id messages b) = Ret ctx ->
     length ctx = S (length stored)) /\
  history b channel_id `prefix_of` stored /\
  NoDup (map (msg_key channel_id) stored) /\
  (forall cfg (Ws : list (list json)),
     b = do_ops (map (OpIngest channel_id) Ws) (DiscordAIBot_init cfg) ->
     Forall (Forall is_message) Ws ->
     length stored = size (key_set channel_id (concat Ws ++ messages))).
Proof.
  intros Hall Hb Hinv b' stored. subst stored b'.
  rewrite (build_context_spec _ _ _ Hall Hb). simpl.
  rewrite config_ingested.
  split; [done|]. split; [|split; [|split]].
  - intros ctx [= <-]. simpl. by rewrite length_map.
  - rewrite <- (history_ensured channel_id channel_id b) at 1.
    apply ingested_history_prefix.
  - apply store_inv_history.
    by apply store_inv_ingested, store_inv_ensured.
  - intros cfg Ws -> HWs.
    apply holds_exactly_length.
    rewrite key_set_app.
    apply holds_exactly_ingested; [done|].
    apply holds_exactly_ensured.
    replace (key_set channel_id (concat Ws))
      with (∅ ∪ key_set channel_id (concat Ws)) by set_solver.
    apply holds_exactly_ops; [done|].
    split; [apply store_inv_init|]. by repeat split.
Qed.


Lemma getitem_plain v k : plain (getitem v k).
Proof. destruct v; simpl; try done. by destruct (assoc k fields). Qed.

Lemma get_default_plain v k d : plain (get_default v k d).
Proof. by destruct v. Qed.

Lemma getitem0_plain v : plain (getitem0 v).
Proof. destruct v as [| | |[|]|[|]|]; by simpl. Qed.

Lemma py_in_plain k v : plain (py_in k v).
Proof. by destruct v. Qed.

Lemma loads_plain v : plain (loads v).
Proof. destruct v; simpl; try done. by destruct (json_loads s). Qed.

Lemma plain_recoverable {A} (r : res A) out : plain r -> recoverable r out.
Proof. destruct r; simpl; auto. Qed.

(** What one [_send_request] does to a started client, whatever comes
    back: the next id is taken, one request carrying it is written, and one
    answer of the child is consumed. *)
Lemma send_request_state method params c p :
  process c = Some p ->
  exists r,
    _send_request method params c
    = (r, {| process :=
               Some {| stdin := (stdin p
                                 ++ [request_of (_request_id c + 1) method
                                       params])%list;
                       answers := tail (answers p);
                       terminate_calls := terminate_calls p;
                   exits := exits p |};
             _request_id := _request_id c + 1 |}) /\
    recoverable r (answers p).
Proof.
  destruct c as [pr rid]. simpl. intros ->.
  destruct p as [log out calls ex].
  unfold _send_request, _next_id, on_process, stdin_write,
    drain_readline, request_of.
  unfold bind, gets, modify, lift, ret, raise. simpl.
  assert (forall (response : json) (c' : MCPClient),
            exists r,
              match py_in "error" response with
              | Ret has_error =>
                  (if has_error : bool
                   then fun s : MCPClient =>
                          match getitem response "error" with
                          | Ret err => (Raise (MCPError err), s)
                          | Raise e => (Raise e, s)
                          | Running => (Running, s)
                          end
                   else fun s : MCPClient =>
                          (get_default response "result" (JObj []), s)) c'
              | Raise e => (Raise e, c')
              | Running => (Running, c')
              end = (r, c') /\
              forall out, recoverable r out) as Htail.
  { intros response c'.
    pose proof (py_in_plain "error" response) as Hin.
    pose proof (getitem_plain response "error") as Hget.
    pose proof (get_default_plain response "result" (JObj [])) as Hres.
    destruct (py_in "error" response) as [[]| |]; simpl in *;
      [| |eexists; split; [reflexivity|]; intros; simpl; by auto|done].
    - destruct (getitem response "error"); simpl in *;
        (eexists; split; [reflexivity|]); intros; simpl; by auto.
    - eexists. split; [reflexivity|]. intros.
      by apply plain_recoverable. }
  destruct out as [|[line|e] rest]; simpl.
  - destruct ex; simpl; [eexists; split; [reflexivity|]; simpl; by left|].
    destruct (json_loads "") as [response|]; simpl.
    + destruct (Htail response
                  (set_process
                     (Some {| stdin := (log ++ [JObj
                                [("jsonrpc", JStr "2.0");
                                 ("id", JNum (rid + 1));
                                 ("method", JStr method);
                                 ("params", if truthy params then params
                                            else JObj [])]])%list;
                              answers := []; terminate_calls := calls;
                              exits := false |})
                     {| process := Some {| stdin := log; answers := [];
                                           terminate_calls := calls;
                              exits := false |};
                        _request_id := rid + 1 |})) as (r & Hr & Hrec).
      exists r. split; [|apply Hrec]. exact Hr.
    + eexists. split; [reflexivity|]. simpl. by left.
  - destruct (json_loads line) as [response|]; simpl.
    + destruct (Htail response
                  (set_process
                     (Some {| stdin := (log ++ [JObj
                                [("jsonrpc", JStr "2.0");
                                 ("id", JNum (rid + 1));
                                 ("method", JStr method);
                                 ("params", if truthy params then params
                                            else JObj [])]])%list;
                              answers := rest; terminate_calls := calls;
                              exits := ex |})
                     {| process := Some {| stdin := log; answers := rest;
                                           terminate_calls := calls;
                              exits := ex |};
                        _request_id := rid + 1 |})) as (r & Hr & Hrec).
      exists r. split; [|apply Hrec]. exact Hr.
    + eexists. split; [reflexivity|]. simpl. by left.
  - eexists. split; [reflexivity|]. simpl. right. eauto.
Qed.

Lemma payload_list_state fld result (c : MCPClient) :
  snd (payload_list fld result c) = c.
Proof.
  unfold payload_list, bind, lift.
  destruct (get_default result "content" _); simpl; [|done..].
  destruct (getitem0 _); simpl; [|done..].
  destruct (get_default _ "text" _); simpl; [|done..].
  by destruct (loads _).
Qed.

Lemma do_call_state call c p :
  process c = Some p ->
  exists method params,
    snd (do_call call c)
    = {| process :=
           Some {| stdin := (stdin p
                             ++ [request_of (_request_id c + 1) method
                                   params])%list;
                   answers := tail (answers p);
                   terminate_calls := terminate_calls p;
                   exits := exits p |};
         _request_id := _request_id c + 1 |}.
Proof.
  intros Hp.
  destruct call as [channel_id limit|channel_id message|]; simpl;
    unfold get_messages, send_message, list_channels, call_tool.
  - destruct (send_request_state "tools/call"
                (JObj [("name", JStr "read_discord_messages");
                       ("arguments",
                        JObj [("channel_id", JStr channel_id);
                              ("limit", JNum limit)])]) c p Hp) as (r & Hr & _).
    exists "tools/call". eexists. unfold bind. rewrite Hr.
    destruct r; [|done..]. by rewrite payload_list_state.
  - destruct (send_request_state "tools/call"
                (JObj [("name", JStr "send_discord_message");
                       ("arguments",
                        JObj [("channel_id", JStr channel_id);
                              ("message", JStr message)])]) c p Hp) as (r & Hr & _).
    exists "tools/call". eexists. by rewrite Hr.
  - destruct (send_request_state "tools/call"
                (JObj [("name", JStr "list_discord_channels");
                       ("arguments", JObj [])]) c p Hp) as (r & Hr & _).
    exists "tools/call". eexists. unfold bind. rewrite Hr.
    destruct r; [|done..]. by rewrite payload_list_state.
Qed.

Lemma request_id_of id method params :
  request_id (request_of id method params) = Some id.
Proof. reflexivity. Qed.

Lemma do_calls_ids calls c p :
  process c = Some p ->
  exists p',
    process (do_calls calls c) = Some p' /\
    _request_id (do_calls calls c)
    = _request_id c + Z.of_nat (length calls) /\
    map request_id (stdin p')
    = (map request_id (stdin p)
       ++ map (fun n => Some (_request_id c + Z.of_nat n))
            (seq 1 (length calls)))%list.
Proof.
  revert c p. induction calls as [|call rest IH]; intros c p Hp.
  - exists p. simpl. rewrite Z.add_0_r, app_nil_r. done.
  - simpl do_calls.
    destruct (do_call_state call c p Hp) as (method & params & ->).
    match goal with
    | |- context [do_calls rest {| process := Some ?p1; _request_id := ?r |}] =>
        destruct (IH {| process := Some p1; _request_id := r |} p1 eq_refl)
          as (p' & Hp' & Hid & Hlog)
    end.
    exists p'. split; [exact Hp'|]. simpl in Hid, Hlog. split.
    + rewrite Hid. simpl length. lia.
    + rewrite Hlog. rewrite map_app. simpl map at 2.
      rewrite request_id_of. rewrite <- app_assoc. f_equal. simpl.
      f_equal.
      rewrite <- (seq_shift _ 1), map_map. apply map_ext. intros n.
      f_equal. lia.
Qed.


(** C5. Monotonic request ids. On a client whose child was just spawned,
    after any sequence of calls of the three named operations -- whatever the
    child answers, and whether the calls return or raise -- every call has
    written exactly one request, and the ids of the requests written, in
    order, are 1, 2, ..., n: the n-th call is sent with id n, so the ids are
    strictly increasing from 1 without gap or reuse. [start] yields such a
    client when the child can be spawned. *)
Theorem request_ids_monotonic (out : list io_event)
    (calls : list client_call) :
  let c := do_calls calls (started out) in
  map request_id (written c)
  = map (fun n => Some (Z.of_nat n)) (seq 1 (length calls)) /\
  (forall (n : nat) request,
     written c !! n = Some request ->
     request_id request = Some (Z.of_nat (S n))) /\
  _request_id c = Z.of_nat (length calls) /\
  (spawn_fault = None ->
   start MCPClient_init = (Ret tt, started child)).
Proof.
  intros c. subst c.
  destruct (do_calls_ids calls (started out) _ eq_refl)
    as (p' & Hp' & Hid & Hlog).
  simpl in Hid, Hlog.
  assert (map request_id (written (do_calls calls (started out)))
          = map (fun n => Some (Z.of_nat n)) (seq 1 (length calls))) as Hids.
  { unfold written. rewrite Hp', Hlog. apply map_ext. intros n.
    f_equal. }
  split; [exact Hids|]. split; [|split; [exact Hid|]].
  - intros n request Hn.
    assert (map request_id (written (do_calls calls (started out))) !! n
            = Some (request_id request)) as Hn'
      by (by rewrite list_lookup_fmap, Hn).
    rewrite Hids, list_lookup_fmap in Hn'.
    destruct (seq 1 (length calls) !! n) as [m|] eqn:Hm; [|done].
    apply lookup_seq in Hm as [-> _]. simpl in Hn'. by injection Hn' as <-.
  - intros Hs. unfold start. by rewrite Hs.
Qed.


(** *** One poll cycle of a channel *)

(** The cycle ends at once on an empty fetch. *)
Lemma cycle_empty channel_id b b1 :
  on_mcp (get_messages channel_id 100) b = (Ret (JArr []), b1) ->
  cycle channel_id b = (Ret tt, b1).
Proof. intros Hfetch. unfold cycle, bind. by rewrite Hfetch. Qed.

(** The cycle ends at the freshness check when the key of the most recent
    message is recorded already. *)
Lemma cycle_seen channel_id b b1 items m id :
  on_mcp (get_messages channel_id 100) b = (Ret (JArr items), b1) ->
  last items = Some m ->
  getitem m "id" = Ret id ->
  composite_key channel_id id ∈ processed_messages b1 ->
  cycle channel_id b = (Ret tt, b1).
Proof.
  intros Hfetch Hlast Hid Hseen. unfold cycle.
  unfold bind at 1. rewrite Hfetch.
  destruct items as [|x l]; [done|]. cbn [truthy negb]. rewrite Hlast.
  unfold bind at 1. unfold lift at 1. rewrite Hid.
  unfold bind at 1. unfold gets at 1.
  by rewrite bool_decide_eq_true_2.
Qed.

(** The cycle of a fresh most recent message that does not start with the
    trigger: its key is recorded and nothing else changes. *)
Lemma cycle_untriggered channel_id b b1 items m id s :
  on_mcp (get_messages channel_id 100) b = (Ret (JArr items), b1) ->
  last items = Some m ->
  getitem m "id" = Ret id ->
  composite_key channel_id id ∉ processed_messages b1 ->
  getitem m "content" = Ret (JStr s) ->
  String.prefix (trigger (config b1)) s = false ->
  cycle channel_id b
  = (Ret tt,
     set_processed_messages
       ({[composite_key channel_id id]} ∪ processed_messages b1) b1).
Proof.
  intros Hfetch Hlast Hid Hfresh Htext Hpre. unfold cycle.
  unfold bind at 1. rewrite Hfetch.
  destruct items as [|x l]; [done|]. cbn [truthy negb]. rewrite Hlast.
  unfold bind at 1. unfold lift at 1. rewrite Hid.
  unfold bind at 1. unfold gets at 1.
  rewrite bool_decide_eq_false_2 by done.
  unfold bind at 1. unfold lift at 1. rewrite Htext.
  unfold bind at 1. unfold gets at 1.
  unfold bind at 1. unfold lift at 1. unfold startswith. rewrite Hpre.
  reflexivity.
Qed.

(** The cycle of a fresh most recent message that starts with the trigger
    goes on to answer the window, the content of that message stripped. *)
Lemma cycle_triggered channel_id b b1 items fields id s author :
  on_mcp (get_messages channel_id 100) b = (Ret (JArr items), b1) ->
  last items = Some (JObj fields) ->
  getitem (JObj fields) "id" = Ret id ->
  composite_key channel_id id ∉ processed_messages b1 ->
  getitem (JObj fields) "content" = Ret (JStr s) ->
  String.prefix (trigger (config b1)) s = true ->
  getitem (JObj fields) "author" = Ret author ->
  cycle channel_id b
  = answer channel_id
      (answer_window (trigger (config b1)) items fields s) b1.
Proof.
  intros Hfetch Hlast Hid Hfresh Htext Hpre Hauthor. unfold cycle.
  unfold bind at 1. rewrite Hfetch.
  destruct items as [|x l]; [done|]. cbn [truthy negb]. rewrite Hlast.
  unfold bind at 1. unfold lift at 1. rewrite Hid.
  unfold bind at 1. unfold gets at 1.
  rewrite bool_decide_eq_false_2 by done.
  unfold bind at 1. unfold lift at 1. rewrite Htext.
  unfold bind at 1. unfold gets at 1.
  unfold bind at 1. unfold lift at 1. unfold startswith. rewrite Hpre.
  cbn [negb].
  unfold bind at 1. unfold lift at 1. rewrite Hauthor.
  reflexivity.
Qed.

(** The reply is sent: one request more is written to the child. *)
Lemma send_message_state channel_id text b c p :
  mcp b = Some c -> process c = Some p ->
  exists r,
    on_mcp (send_message channel_id text) b
    = (r,
       set_mcp
         (Some {| process :=
                    Some {| stdin :=
                              (stdin p
                               ++ [request_of (_request_id c + 1) "tools/call"
                                     (JObj [("name",
                                             JStr "send_discord_message");
                                            ("arguments",
                                             JObj [("channel_id",
                                                    JStr channel_id);
                                                   ("message", JStr text)])])])%list;
                            answers := tail (answers p);
                            terminate_calls := terminate_calls p;
                   exits := exits p |};
                  _request_id := _request_id c + 1 |}) b) /\
    recoverable r (answers p).
Proof.
  intros Hc Hp. unfold on_mcp, send_message, call_tool. rewrite Hc.
  destruct (send_request_state "tools/call"
              (JObj [("name", JStr "send_discord_message");
                     ("arguments",
                      JObj [("channel_id", JStr channel_id);
                            ("message", JStr text)])]) c p Hp)
    as (r & -> & Hrec).
  by exists r.
Qed.


Lemma generate_response_returns context text b :
  chat (length (chat_log b)) context = ChatReturns text ->
  _generate_response context b
  = (Ret text, set_chat_log (chat_log b ++ [context])%list b).
Proof.
  intros Hchat. unfold _generate_response, try_except_Exception, ollama_chat.
  unfold bind, gets, modify. simpl. by rewrite Hchat.
Qed.




(** *** Tool calls that come back with a result *)

Lemma send_request_returns method params c p line rest response result :
  process c = Some p ->
  answers p = Line line :: rest ->
  json_loads line = Some response ->
  py_in "error" response = Ret false ->
  get_default response "result" (JObj []) = Ret result ->
  _send_request method params c
  = (Ret result, after_request method params c p).
Proof.
  destruct c as [pr rid]. simpl. intros ->.
  destruct p as [log out calls ex]. simpl. intros -> Hline Herr Hres.
  unfold _send_request, _next_id, on_process, stdin_write,
    drain_readline, after_request, request_of.
  unfold bind, gets, modify, lift, ret, raise. simpl.
  rewrite Hline, Herr. by rewrite Hres.
Qed.

(** The same when nothing comes from the child any more, or the line does
    not decode: on a child that is gone [drain] raises, otherwise the call
    raises the decode error. *)
Lemma send_request_undecodable method params c p :
  process c = Some p ->
  match answers p with
  | [] => json_loads "" = None
  | Line line :: _ => json_loads line = None
  | Fault _ :: _ => False
  end ->
  _send_request method params c
  = (Raise (if gone p then ConnectionResetError else JSONDecodeError),
     after_request method params c p).
Proof.
  destruct c as [pr rid]. simpl. intros ->.
  destruct p as [log out calls ex]. simpl.
  unfold _send_request, _next_id, on_process, stdin_write,
    drain_readline, after_request, request_of, gone.
  unfold bind, gets, modify, lift, ret, raise. simpl.
  destruct out as [|[line|e] rest]; simpl; [| |done].
  - destruct ex; simpl; [done|]. by intros ->.
  - by intros ->.
Qed.

Lemma payload_list_lacking fld result c :
  json_loads "{}" = Some (JObj []) ->
  lacks_payload result ->
  payload_list fld result c = (Ret (JArr []), c).
Proof.
  intros Hempty Hlack. unfold payload_list, bind, lift.
  destruct result as [| | | | |fields]; simpl in *; try done.
  destruct (assoc "content" fields) as [contents|]; simpl.
  - destruct contents as [| | | |[|[| | | | |first] more]|]; simpl in *;
      try done.
    destruct (assoc "text" first); simpl in *; [done|].
    by rewrite Hempty.
  - by rewrite Hempty.
Qed.

Lemma payload_list_malformed fld result contents first text c :
  get_default result "content" (JArr [JObj []]) = Ret contents ->
  getitem0 contents = Ret first ->
  get_default first "text" (JStr "{}") = Ret (JStr text) ->
  json_loads text = None ->
  payload_list fld result c = (Raise JSONDecodeError, c).
Proof.
  intros Hc Hf Ht Hbad. unfold payload_list, bind, lift.
  rewrite Hc, Hf, Ht. simpl. by rewrite Hbad.
Qed.

(** C10. Missing fields. When the result envelope of a tool call lacks the
    ['content'] list, or the first element of that list lacks the ['text']
    field, the payload defaults to the text of the empty JSON object (whose
    decoding is the empty object): [get_messages] and [list_channels] both
    return the empty list instead of raising. *)
Theorem missing_fields_default channel_id limit c p line rest response
    result :
  process c = Some p ->
  answers p = Line line :: rest ->
  json_loads line = Some response ->
  py_in "error" response = Ret false ->
  get_default response "result" (JObj []) = Ret result ->
  json_loads "{}" = Some (JObj []) ->
  lacks_payload result ->
  get_messages channel_id limit c
  = (Ret (JArr []),
     after_request "tools/call" (read_params channel_id limit) c p) /\
  list_channels c
  = (Ret (JArr []), after_request "tools/call" list_params c p).
Proof.
  intros Hp Hout Hline Herr Hres Hempty Hlack.
  unfold get_messages, list_channels, call_tool. split.
  - unfold bind.
    rewrite (send_request_returns _ _ _ _ _ _ _ _ Hp Hout Hline Herr Hres).
    by apply payload_list_lacking.
  - unfold bind.
    rewrite (send_request_returns _ _ _ _ _ _ _ _ Hp Hout Hline Herr Hres).
    by apply payload_list_lacking.
Qed.

Lemma process_channel_recovers channel_id b b1 (r : res unit) :
  cycle channel_id b = (r, b1) ->
  plain r ->
  _process_channel channel_id b = (Ret tt, b1).
Proof.
  intros Hcycle Hr. unfold _process_channel, try_except_Exception.
  rewrite Hcycle. destruct r as [[]|e|]; simpl in *; [done| |done].
  by rewrite Hr.
Qed.

Lemma visit_cons raw rest channel_id b b1 :
  strip raw = channel_id -> channel_id <> "" ->
  _process_channel channel_id b = (Ret tt, b1) ->
  visit (raw :: rest) b = visit rest b1.
Proof.
  intros Hraw Hne Hcycle. simpl. rewrite Hraw.
  apply String.eqb_neq in Hne. rewrite Hne.
  unfold bind at 1. by rewrite Hcycle.
Qed.

(** C8. Tolerance to a malformed inner payload. When the fetch of a cycle
    gets a tool result whose inner text does not decode, [get_messages]
    raises the decode error, and [_process_channel] ends the cycle as it
    ends it on an empty result: it returns normally with the state in which
    the fetch left the bot -- the store untouched, the backend not called,
    no reply sent -- and the visit of the channels goes on. A cycle whose
    fetch returns the empty list ends in the same way. *)
Theorem malformed_payload_tolerated channel_id b c p line rest response
    result contents first text :
  mcp b = Some c ->
  process c = Some p ->
  answers p = Line line :: rest ->
  json_loads line = Some response ->
  py_in "error" response = Ret false ->
  get_default response "result" (JObj []) = Ret result ->
  get_default result "content" (JArr [JObj []]) = Ret contents ->
  getitem0 contents = Ret first ->
  get_default first "text" (JStr "{}") = Ret (JStr text) ->
  json_loads text = None ->
  let b1 :=
    set_mcp (Some (after_request "tools/call" (read_params channel_id 100)
                     c p)) b in
  on_mcp (get_messages channel_id 100) b = (Raise JSONDecodeError, b1) /\
  _process_channel channel_id b = (Ret tt, b1) /\
  (forall raw others,
     strip raw = channel_id -> channel_id <> "" ->
     visit (raw :: others) b = visit others b1) /\
  (forall b0 b0',
     on_mcp (get_messages channel_id 100) b0 = (Ret (JArr []), b0') ->
     _process_channel channel_id b0 = (Ret tt, b0')).
Proof.
  intros Hc Hp Hout Hline Herr Hres Hcont Hfirst Htext Hbad b1.
  assert (on_mcp (get_messages channel_id 100) b
          = (Raise JSONDecodeError, b1)) as Hfetch.
  { unfold on_mcp, get_messages, call_tool. rewrite Hc. unfold bind.
    rewrite (send_request_returns _ _ _ _ _ _ _ _ Hp Hout Hline Herr Hres).
    by rewrite (payload_list_malformed _ _ _ _ _ _ Hcont Hfirst Htext Hbad). }
  assert (_process_channel channel_id b = (Ret tt, b1)) as Hcycle.
  { apply process_channel_recovers with (r := Raise JSONDecodeError); [|done].
    unfold cycle, bind. by rewrite Hfetch. }
  split; [done|]. split; [done|]. split.
  - intros raw others Hraw Hne. by eapply visit_cons.
  - intros b0 b0' Hempty.
    apply process_channel_recovers with (r := Ret tt); [|done].
    by apply cycle_empty.
Qed.


(** *** Polling a child whose output is closed *)

Lemma same_but_mcp_refl b : same_but_mcp b b.
Proof. unfold same_but_mcp. by destruct b. Qed.

Lemma same_but_mcp_trans b1 b2 b3 :
  same_but_mcp b1 b2 -> same_but_mcp b2 b3 -> same_but_mcp b1 b3.
Proof. unfold same_but_mcp. intros -> ->. reflexivity. Qed.

(** One cycle when nothing comes from the child any more: the request is
    written; on a child that lives the empty line read back does not
    decode, on a child that is gone [drain] raises; the exception is
    caught, and the cycle returns with nothing changed but the client. *)
Lemma closed_cycle channel_id b :
  json_loads "" = None ->
  output_closed b ->
  exists b1,
    _process_channel channel_id b = (Ret tt, b1) /\
    same_but_mcp b b1 /\
    output_closed b1 /\
    stop_count b1 = stop_count b /\
    request_count b1 = S (request_count b).
Proof.
  intros Hempty (c & p & Hc & Hp & Hout).
  exists (set_mcp (Some (after_request "tools/call"
                           (read_params channel_id 100) c p)) b).
  split; [|split; [|split; [|split]]].
  - apply process_channel_recovers
      with (r := Raise (if gone p then ConnectionResetError
                        else JSONDecodeError));
      [|by destruct (gone p)].
    unfold cycle, bind at 1, on_mcp, get_messages, call_tool. rewrite Hc.
    unfold bind.
    rewrite (send_request_undecodable _ _ c p Hp) by (by rewrite Hout).
    reflexivity.
  - reflexivity.
  - eexists _, _. split; [reflexivity|]. split; [reflexivity|].
    simpl. by rewrite Hout.
  - unfold stop_count. simpl. by rewrite Hc, Hp.
  - unfold request_count, written. simpl. rewrite Hc, Hp.
    rewrite length_app. simpl. lia.
Qed.

Lemma closed_visit chans b :
  json_loads "" = None ->
  output_closed b ->
  exists b1,
    visit chans b = (Ret tt, b1) /\
    same_but_mcp b b1 /\
    output_closed b1 /\
    stop_count b1 = stop_count b /\
    request_count b1 = (request_count b + length (polled chans))%nat.
Proof.
  intros Hempty. revert b.
  induction chans as [|raw rest IH]; intros b Hclosed.
  - exists b. simpl. split; [done|]. split; [apply same_but_mcp_refl|].
    split; [done|]. split; [done|]. lia.
  - unfold polled. rewrite filter_cons. fold (polled rest). simpl visit.
    destruct (String.eqb (strip raw) "") eqn:Hblank.
    + apply String.eqb_eq in Hblank.
      rewrite decide_False by (by intros ?).
      destruct (IH b Hclosed) as (b1 & Hv & Hrest).
      exists b1. split; [|exact Hrest]. unfold bind, ret. exact Hv.
    + apply String.eqb_neq in Hblank. rewrite decide_True by done.
      destruct (closed_cycle (strip raw) b Hempty Hclosed)
        as (b1 & Hcycle & Hsame1 & Hclosed1 & Hstop1 & Hreq1).
      destruct (IH b1 Hclosed1) as (b2 & Hv & Hsame2 & Hclosed2 & Hstop2 & Hreq2).
      exists b2. split; [|split; [|split; [|split]]].
      * unfold bind at 1. rewrite Hcycle. exact Hv.
      * by eapply same_but_mcp_trans.
      * done.
      * congruence.
      * rewrite Hreq2, Hreq1. simpl. lia.
Qed.

Lemma closed_sleep b :
  (forall n, sleep_fault n = None) ->
  asyncio_sleep b = (Ret tt, set_sleeps (S (sleeps b)) b).
Proof.
  intros Hquiet. unfold asyncio_sleep, bind, gets, modify. simpl.
  by rewrite Hquiet.
Qed.

Lemma closed_monitor fuel b :
  json_loads "" = None ->
  (forall n, sleep_fault n = None) ->
  output_closed b ->
  exists b1,
    monitor fuel b = (Running, b1) /\
    config b1 = config b /\
    conversation_history b1 = conversation_history b /\
    processed_messages b1 = processed_messages b /\
    chat_log b1 = chat_log b /\
    output_closed b1 /\
    stop_count b1 = stop_count b /\
    request_count b1
    = (request_count b + fuel * length (polled (channels (config b))))%nat.
Proof.
  intros Hempty Hquiet. revert b.
  induction fuel as [|fuel IH]; intros b Hclosed.
  - exists b. simpl. repeat split; try done; lia.
  - simpl monitor. unfold bind at 1. unfold gets at 1.
    destruct (closed_visit (channels (config b)) b Hempty Hclosed)
      as (b1 & Hv & Hsame1 & Hclosed1 & Hstop1 & Hreq1).
    unfold bind at 1. rewrite Hv.
    unfold bind at 1. rewrite (closed_sleep _ Hquiet).
    assert (output_closed (set_sleeps (S (sleeps b1)) b1)) as Hclosed2
      by exact Hclosed1.
    destruct (IH _ Hclosed2)
      as (b2 & Hm & Hcfg & Hh & Hp & Hl & Hclosed3 & Hstop & Hreq).
    unfold same_but_mcp in Hsame1.
    assert (config b1 = config b) as Hcfg1 by (by rewrite Hsame1).
    assert (conversation_history b1 = conversation_history b) as Hh1
      by (by rewrite Hsame1).
    assert (processed_messages b1 = processed_messages b) as Hp1
      by (by rewrite Hsame1).
    assert (chat_log b1 = chat_log b) as Hl1 by (by rewrite Hsame1).
    exists b2. rewrite Hm. simpl in Hcfg, Hh, Hp, Hl.
    split; [done|]. split; [congruence|]. split; [congruence|].
    split; [congruence|]. split; [congruence|]. split; [done|].
    split; [by rewrite Hstop|].
    rewrite Hreq. simpl config. rewrite Hcfg1.
    change (request_count (set_sleeps (S (sleeps b1)) b1))
      with (request_count b1).
    rewrite Hreq1. lia.
Qed.

(** C7, as the code has it. When nothing comes from the child any more,
    no call detects a closed stream. If the child has closed its output
    and lives on, [readline] returns the empty line and it is its decoding
    that fails, inside [_send_request]; if the child has exited, [drain]
    raises [ConnectionResetError] before anything is read. In both cases
    [_process_channel] catches the exception like any other and returns.
    So the polling loop is not left: with no interrupt from outside, [run]
    is still polling after any number of iterations, one more request
    handed to [stdin.write] per channel and iteration, [stop] was not
    called, and the store is as it was. *)
Theorem closed_output_keeps_polling fuel b :
  json_loads "" = None ->
  (forall n, sleep_fault n = None) ->
  no_channels (channels (config b)) = false ->
  output_closed b ->
  (forall method params c p,
     mcp b = Some c -> process c = Some p ->
     _send_request method params c
     = (Raise (if gone p then ConnectionResetError else JSONDecodeError),
        after_request method params c p)) /\
  (forall channel_id, fst (_process_channel channel_id b) = Ret tt) /\
  exists b1,
    run fuel b = (Running, b1) /\
    output_closed b1 /\
    stop_count b1 = stop_count b /\
    request_count b1
    = (request_count b + fuel * length (polled (channels (config b))))%nat /\
    conversation_history b1 = conversation_history b /\
    processed_messages b1 = processed_messages b.
Proof.
  intros Hempty Hquiet Hchans Hclosed. split; [|split].
  - intros method params c p Hc Hp.
    destruct Hclosed as (c' & p' & Hc' & Hp' & Hout).
    assert (c' = c) as -> by congruence.
    assert (p' = p) as -> by congruence.
    apply send_request_undecodable; [done|]. by rewrite Hout.
  - intros channel_id.
    destruct (closed_cycle channel_id b Hempty Hclosed) as (b1 & -> & _).
    reflexivity.
  - destruct (closed_monitor fuel b Hempty Hquiet Hclosed)
      as (b1 & Hm & Hcfg & Hh & Hp & Hl & Hclosed1 & Hstop & Hreq).
    exists b1. split; [|by repeat split].
    unfold run, bind, gets. rewrite Hchans.
    unfold try_except_KeyboardInterrupt_finally. by rewrite Hm.
Qed.


(** *** What the polling code does to the client *)

Lemma client_step_keeps b b' :
  client_step b b' ->
  stop_count b' = stop_count b /\ (has_child b -> has_child b').
Proof.
  intros [Heq|(c & p & method & params & Hc & Hp & Hc')].
  - unfold stop_count, has_child. rewrite Heq. split; [done|]. done.
  - unfold stop_count, has_child. rewrite Hc, Hc'. simpl. rewrite Hp.
    split; [done|]. intros _. eexists _, _. by split.
Qed.

Lemma client_steps_keep b b' :
  rtc client_step b b' ->
  stop_count b' = stop_count b /\ (has_child b -> has_child b').
Proof.
  induction 1 as [b|b b1 b2 Hstep _ [IHs IHc]]; [done|].
  destruct (client_step_keeps _ _ Hstep) as [Hs Hc].
  split; [congruence | auto].
Qed.

Lemma calls_only_same {A} (m : M DiscordAIBot A) :
  (forall b, mcp (snd (m b)) = mcp b) -> calls_only m.
Proof. intros H b. apply rtc_once. left. apply H. Qed.

Lemma calls_only_bind {A B} (m : M DiscordAIBot A)
    (k : A -> M DiscordAIBot B) :
  calls_only m -> (forall a, calls_only (k a)) -> calls_only (bind m k).
Proof.
  intros Hm Hk b. unfold bind. specialize (Hm b).
  destruct (m b) as [[a|e|] b1]; simpl in *; [|done|done].
  etrans; [exact Hm | apply Hk].
Qed.

Lemma calls_only_try {A} (body : M DiscordAIBot A) handler :
  calls_only body -> (forall e, calls_only (handler e)) ->
  calls_only (try_except_Exception body handler).
Proof.
  intros Hm Hk b. unfold try_except_Exception. specialize (Hm b).
  destruct (body b) as [[a|e|] b1]; simpl in *; [done| |done].
  destruct (is_Exception e); [|done].
  etrans; [exact Hm | apply Hk].
Qed.

Lemma send_request_idle method params c :
  process c = None ->
  snd (_send_request method params c) = c.
Proof. intros Hp. unfold _send_request, bind, gets. simpl. by rewrite Hp. Qed.

Lemma calls_only_call call : calls_only (on_mcp (do_call call)).
Proof.
  intros b. apply rtc_once. unfold on_mcp.
  destruct (mcp b) as [c|] eqn:Hc; [|by left].
  destruct (process c) as [p|] eqn:Hp.
  - destruct (do_call_state call c p Hp) as (method & params & Hstate).
    right. exists c, p, method, params. split; [done|]. split; [done|].
    destruct (do_call call c) as [r c']. simpl in *. by rewrite Hstate.
  - left. destruct (do_call call c) as [r c'] eqn:Hcall. simpl.
    rewrite Hc. f_equal.
    assert (snd (do_call call c) = c) as Hsame.
    { destruct call; simpl;
        unfold get_messages, send_message, list_channels, call_tool, bind;
        pose proof (send_request_idle "tools/call") as Hidle.
      - specialize (Hidle (read_params channel_id limit) c Hp).
        unfold read_params in Hidle.
        destruct (_send_request _ _ c) as [[v|e|] c1]; simpl in *;
          subst; [apply payload_list_state|done..].
      - by apply Hidle.
      - specialize (Hidle list_params c Hp). unfold list_params in Hidle.
        destruct (_send_request _ _ c) as [[v|e|] c1]; simpl in *;
          subst; [apply payload_list_state|done..]. }
    by rewrite Hcall in Hsame.
Qed.

Lemma calls_only_ingest_loop channel_id messages :
  calls_only (ingest_loop channel_id messages).
Proof.
  induction messages as [|msg rest IH]; simpl.
  - by apply calls_only_same.
  - apply calls_only_bind; [by apply calls_only_same|intros id].
    apply calls_only_bind; [by apply calls_only_same|intros seen].
    apply calls_only_bind; [|by intros].
    destruct seen; [by apply calls_only_same|].
    apply calls_only_bind; [|intros; by apply calls_only_same].
    apply calls_only_same. intros b. unfold history_append, bind, gets.
    simpl. by destruct (_ !! _).
Qed.

Lemma calls_only_build_context channel_id messages :
  calls_only (_build_context channel_id messages).
Proof.
  unfold _build_context, ingest.
  apply calls_only_bind; [|intros _].
  { apply calls_only_bind; [|intros; apply calls_only_ingest_loop].
    apply calls_only_same. intros b. unfold ensure_channel, bind, gets.
    simpl. by destruct (_ !! _). }
  apply calls_only_bind; [by apply calls_only_same|intros sys].
  apply calls_only_bind; [by apply calls_only_same|intros h].
  destruct (h !! channel_id); [|by apply calls_only_same].
  apply calls_only_bind; [by apply calls_only_same|intros entries].
  by apply calls_only_same.
Qed.

Lemma calls_only_generate_response context :
  calls_only (_generate_response context).
Proof.
  apply calls_only_same. intros b.
  unfold _generate_response, try_except_Exception, ollama_chat, bind, gets,
    modify. simpl.
  by destruct (chat _ _).
Qed.

Lemma calls_only_process_channel channel_id :
  calls_only (_process_channel channel_id).
Proof.
  unfold _process_channel.
  apply calls_only_try; [|intros; by apply calls_only_same].
  unfold cycle.
  apply calls_only_bind;
    [apply (calls_only_call (CallGetMessages channel_id 100))|intros messages].
  destruct (negb (truthy messages)); [by apply calls_only_same|].
  destruct messages; try by apply calls_only_same.
  destruct (last items) as [m|]; [|by apply calls_only_same].
  apply calls_only_bind; [by apply calls_only_same|intros id].
  apply calls_only_bind; [by apply calls_only_same|intros seen].
  destruct seen; [by apply calls_only_same|].
  apply calls_only_bind; [by apply calls_only_same|intros text].
  apply calls_only_bind; [by apply calls_only_same|intros t].
  apply calls_only_bind; [by apply calls_only_same|intros triggered].
  destruct (negb triggered); [by apply calls_only_same|].
  apply calls_only_bind; [by apply calls_only_same|intros author].
  destruct m; try by apply calls_only_same.
  destruct text; try by apply calls_only_same.
  unfold answer.
  apply calls_only_bind; [apply calls_only_build_context|intros context].
  apply calls_only_bind; [apply calls_only_generate_response|intros response].
  apply calls_only_bind;
    [apply (calls_only_call (CallSendMessage channel_id response))|intros _].
  by apply calls_only_same.
Qed.

Lemma calls_only_sleep : calls_only asyncio_sleep.
Proof.
  apply calls_only_same. intros b. unfold asyncio_sleep, bind, gets, modify.
  simpl. by destruct (sleep_fault _).
Qed.

Lemma calls_only_visit chans : calls_only (visit chans).
Proof.
  induction chans as [|c rest IH]; simpl; [by apply calls_only_same|].
  apply calls_only_bind; [|by intros].
  destruct (String.eqb _ _);
    [by apply calls_only_same | apply calls_only_process_channel].
Qed.

Lemma calls_only_monitor fuel : calls_only (monitor fuel).
Proof.
  induction fuel as [|fuel IH]; simpl.
  - intros b. apply rtc_refl.
  - apply calls_only_bind; [by apply calls_only_same|intros chans].
    apply calls_only_bind; [apply calls_only_visit|intros _].
    apply calls_only_bind; [apply calls_only_sleep|by intros].
Qed.


(** *** Shutdown *)

(** [stop] on a bot that holds a child calls [terminate] once; it returns,
    or raises the [Exception] of [terminate] when the child is gone. *)
Lemma stop_mcp_stops b :
  has_child b ->
  exists r b1,
    stop_mcp b = (r, b1) /\ plain r /\ stop_count b1 = S (stop_count b).
Proof.
  intros (c & p & Hc & Hp).
  destruct b as [cfg m h ps log n]. simpl in Hc. subst m.
  destruct c as [pr rid]. simpl in Hp. subst pr.
  unfold stop_mcp, on_mcp, stop, on_process, terminate_wait, bind, gets.
  simpl. destruct (gone p); simpl; eexists _, _; by split.
Qed.

(** On the polling path the [finally] clause does its work: whenever [run]
    comes to an end, by an interrupt or by any other exception, [stop] was
    called once and has called [terminate]. *)
Lemma run_polling_stops fuel b :
  no_channels (channels (config b)) = false ->
  has_child b ->
  fst (run fuel b) <> Running ->
  stop_count (snd (run fuel b)) = S (stop_count b).
Proof.
  intros Hchans Hchild. unfold run, bind, gets. rewrite Hchans.
  unfold try_except_KeyboardInterrupt_finally.
  destruct (client_steps_keep _ _ (calls_only_monitor fuel b))
    as [Hstop Hkeep].
  destruct (monitor fuel b) as [r b1]. simpl in *.
  destruct (stop_mcp_stops b1 (Hkeep Hchild))
    as (rs & b2 & Hs & Hplain & Hcount).
  destruct r as [[]|e|]; [| |done].
  - rewrite Hs. simpl. congruence.
  - intros _.
    destruct e; rewrite Hs; destruct rs as [[]| |]; simpl; congruence.
Qed.



(** *** The trigger filter *)

Lemma later_steps b b' : later b b' -> rtc store_step b b'.
Proof.
  induction 1 as [|b' channel_id _ IH|b' _ IH]; [done| |].
  - etrans; [exact IH | apply evolves_process_channel].
  - etrans; [exact IH | apply evolves_sleep].
Qed.

Lemma ingested_processed_sub channel_id messages b k :
  k ∈ processed_messages (ingested channel_id messages b) ->
  k ∈ processed_messages b \/ Some k ∈ map (msg_key channel_id) messages.
Proof.
  revert b. induction messages as [|msg rest IH]; intros b Hin; [by left|].
  simpl in Hin. destruct (msg_key channel_id msg) as [km|] eqn:Hkm;
    [|by left].
  apply IH in Hin as [Hin|Hin].
  - case_bool_decide; [by left|]. rewrite store_add_processed in Hin.
    apply elem_of_union in Hin as [Hin|Hin]; [|by left].
    apply elem_of_singleton in Hin. subst km. right. simpl. rewrite Hkm.
    by apply elem_of_cons; left.
  - right. simpl. by apply elem_of_cons; right.
Qed.

Lemma assoc_set_same k v fields : assoc k (assoc_set k v fields) = Some v.
Proof.
  induction fields as [|[k' v'] rest IH]; simpl.
  - by rewrite String.eqb_refl.
  - destruct (String.eqb k k') eqn:E; simpl; rewrite E; [done|exact IH].
Qed.

Lemma assoc_set_other k k' v fields :
  k <> k' -> assoc k (assoc_set k' v fields) = assoc k fields.
Proof.
  intros Hne. induction fields as [|[k0 v0] rest IH]; simpl.
  - apply String.eqb_neq in Hne. by rewrite Hne.
  - destruct (String.eqb k' k0) eqn:E; simpl.
    + apply String.eqb_eq in E. subst k0.
      apply String.eqb_neq in Hne. by rewrite Hne.
    + destruct (String.eqb k k0); [done|exact IH].
Qed.

Lemma insert_last {A} (pre : list A) (x y : A) :
  <[Nat.pred (length (pre ++ [x])%list) := y]> (pre ++ [x])%list
  = (pre ++ [y])%list.
Proof.
  rewrite length_app. simpl. rewrite Nat.add_1_r. simpl.
  induction pre as [|z pre IH]; [done|]. simpl. by rewrite IH.
Qed.

Lemma answer_window_last t pre fields s :
  answer_window t (pre ++ [JObj fields])%list fields s
  = (pre ++ [JObj (assoc_set "content"
                     (JStr (strip (string_drop (String.length t) s)))
                     fields)])%list.
Proof. unfold answer_window. apply insert_last. Qed.

Lemma chat_log_on_mcp {A} (m : M MCPClient A) b :
  chat_log (snd (on_mcp m b)) = chat_log b.
Proof. unfold on_mcp. destruct (mcp b); [|done]. by destruct (m _). Qed.

(** The context built by [answer] is what the backend is called with. *)
Lemma answer_chat_log channel_id messages b context b1 :
  _build_context channel_id messages b = (Ret context, b1) ->
  chat_log (snd (answer channel_id messages b))
  = (chat_log b1 ++ [context])%list.
Proof.
  intros Hbuild. unfold answer. unfold bind at 1. rewrite Hbuild.
  unfold bind at 1.
  assert (chat_log (snd (_generate_response context b1))
          = (chat_log b1 ++ [context])%list) as Hlog.
  { unfold _generate_response, try_except_Exception, ollama_chat, bind, gets,
      modify. simpl. by destruct (chat _ _). }
  destruct (_generate_response context b1) as [[response|e|] b2];
    simpl in *; [|done..].
  unfold bind.
  pose proof (chat_log_on_mcp (send_message channel_id response) b2) as Hsend.
  destruct (on_mcp (send_message channel_id response) b2) as [[v|e|] b3];
    simpl in *; congruence.
Qed.


Lemma render_returns stored entries :
  render stored = Ret entries -> entries = map user_line stored.
Proof.
  revert entries. induction stored as [|msg rest IH]; intros entries Hr.
  - by injection Hr as <-.
  - simpl in Hr. unfold user_line, field.
    destruct msg as [| | | | |fields]; simpl in *; try done.
    destruct (assoc "author" fields); simpl in *; [|done].
    destruct (assoc "content" fields); simpl in *; [|done].
    destruct (render rest) as [entries'| |]; [|done..].
    injection Hr as <-. simpl. by rewrite (IH entries').
Qed.

(** Whenever [_build_context] returns, its result is the system entry
    followed by the lines of the messages then stored for the channel. *)
Lemma build_context_returns channel_id messages b context b1 :
  _build_context channel_id messages b = (Ret context, b1) ->
  context = {| role := "system"; content := system_prompt (config b1) |}
            :: map user_line (history b1 channel_id) /\
  rtc store_step b b1.
Proof.
  intros Hbuild.
  assert (rtc store_step b b1) as Hsteps.
  { pose proof (evolves_build_context channel_id messages b) as H.
    by rewrite Hbuild in H. }
  split; [|done]. unfold _build_context in Hbuild.
  unfold bind at 1 in Hbuild.
  destruct (ingest channel_id messages b) as [[[]|e|] b'] eqn:Hing;
    [|done..].
  unfold bind, gets, lift, ret, raise in Hbuild. simpl in Hbuild.
  unfold history.
  destruct (conversation_history b' !! channel_id) as [stored|] eqn:Hs;
    [|done].
  destruct (render stored) as [entries| |] eqn:Hr; [|done..].
  injection Hbuild as <- <-. rewrite Hs. simpl.
  by rewrite (render_returns _ _ Hr).
Qed.

Lemma on_mcp_store {A} (m : M MCPClient A) b :
  conversation_history (snd (on_mcp m b)) = conversation_history b /\
  processed_messages (snd (on_mcp m b)) = processed_messages b /\
  config (snd (on_mcp m b)) = config b.
Proof. unfold on_mcp. destruct (mcp b); [|done]. by destruct (m _). Qed.

Lemma process_channel_state channel_id b :
  snd (_process_channel channel_id b) = snd (cycle channel_id b).
Proof.
  unfold _process_channel, try_except_Exception.
  destruct (cycle channel_id b) as [[[]|e|] b1]; simpl; [done| |done].
  by destruct (is_Exception e).
Qed.

Lemma store_inv_fresh b channel_id k :
  store_inv b -> k ∉ processed_messages b ->
  Forall (fun m => msg_key channel_id m <> Some k) (history b channel_id).
Proof.
  intros Hinv Hfresh.
  destruct (store_inv_history b channel_id Hinv) as [_ Hall].
  eapply Forall_impl; [exact Hall|]. intros m (k' & Hk' & Hin) Hk.
  congruence.
Qed.

(** After the context is built, [answer] only grows the store. *)
Lemma answer_steps channel_id messages b context b1 :
  _build_context channel_id messages b = (Ret context, b1) ->
  rtc store_step b1 (snd (answer channel_id messages b)).
Proof.
  intros Hbuild. unfold answer. unfold bind at 1. rewrite Hbuild.
  assert (evolves (response <- _generate_response context ;;
                   _ <- on_mcp (send_message channel_id response) ;;
                   ret tt)) as Hev by evolve.
  apply Hev.
Qed.


(** C3, as the code has it. Take a poll cycle whose fetch returned a window
    ending with the message [m], of id [id] and content [s], the store
    being consistent, and the composite key of [m] not yet in the processed
    set when the cycle looks at it.
    - If [s] does not start with the trigger, the cycle returns with the key
      added to the processed set and nothing appended to any history or
      sent to the backend; and in every later state of the bot the key is
      still recorded and no stored message of the channel carries it, so
      that every later result of [_build_context] for the channel is the
      system entry followed by the lines of messages that do not carry it.
    - If [s] starts with the trigger, [m] is a Message like those before it
      in the window and in the history, and no earlier message of the
      window carries its key, then the context is built, its last entry is
      the line of [m] with the trigger removed and the rest stripped, this
      context is the one the backend is called with, and the stripped
      message is stored and its key recorded. *)
Theorem trigger_filtering channel_id b b1 (pre : list json) m id s :
  store_inv b ->
  on_mcp (get_messages channel_id 100) b = (Ret (JArr (pre ++ [m])), b1) ->
  getitem m "id" = Ret id ->
  composite_key channel_id id ∉ processed_messages b1 ->
  getitem m "content" = Ret (JStr s) ->
  let k := composite_key channel_id id in
  let t := trigger (config b1) in
  let b2 := snd (_process_channel channel_id b) in
  (String.prefix t s = false ->
   _process_channel channel_id b = (Ret tt, b2) /\
   processed_messages b2 = {[k]} ∪ processed_messages b1 /\
   conversation_history b2 = conversation_history b1 /\
   chat_log b2 = chat_log b1 /\
   forall b3, later b2 b3 ->
     k ∈ processed_messages b3 /\
     Forall (fun m' => msg_key channel_id m' <> Some k)
       (history b3 channel_id) /\
     forall messages context b4,
       _build_context channel_id messages b3 = (Ret context, b4) ->
       context = {| role := "system"; content := system_prompt (config b4) |}
                 :: map user_line (history b4 channel_id) /\
       Forall (fun m' => msg_key channel_id m' <> Some k)
         (history b4 channel_id)) /\
  (String.prefix t s = true ->
   forall fields author,
     m = JObj fields ->
     getitem m "author" = Ret author ->
     Forall is_message pre ->
     Forall is_message (history b1 channel_id) ->
     Some k ∉ map (msg_key channel_id) pre ->
     let m' := JObj (assoc_set "content"
                       (JStr (strip (string_drop (String.length t) s)))
                       fields) in
     exists context b1',
       _build_context channel_id (answer_window t (pre ++ [m]) fields s) b1
       = (Ret context, b1') /\
       last context = Some (stripped_line t author s) /\
       chat_log b2 = (chat_log b1 ++ [context])%list /\
       m' ∈ history b2 channel_id /\
       k ∈ processed_messages b2).
Proof.
  intros Hinv Hfetch Hid Hfresh Htext k t b2.
  assert (last (pre ++ [m]) = Some m) as Hlast by apply last_snoc.
  assert (store_inv b1) as Hinv1.
  { destruct (on_mcp_store (get_messages channel_id 100) b) as (Hh & Hp & _).
    rewrite Hfetch in Hh, Hp. simpl in Hh, Hp.
    eapply store_inv_ext; [exact Hh| |exact Hinv]. by rewrite Hp. }
  split.
  - intros Hpre.
    pose proof (cycle_untriggered _ _ _ _ _ _ _ Hfetch Hlast Hid Hfresh Htext
                  Hpre) as Hcycle.
    assert (_process_channel channel_id b
            = (Ret tt, set_processed_messages
                         ({[k]} ∪ processed_messages b1) b1)) as Hpc
      by (by apply process_channel_recovers with (r := Ret tt)).
    subst b2. rewrite Hpc. simpl.
    split; [done|]. split; [done|]. split; [done|]. split; [done|].
    intros b3 Hlater.
    destruct (store_steps_absent channel_id k _ b3 (later_steps _ _ Hlater))
      as [Hin Habs].
    { simpl. set_solver. }
    { change (history (set_processed_messages
                         ({[k]} ∪ processed_messages b1) b1) channel_id)
        with (history b1 channel_id).
      by apply store_inv_fresh. }
    split; [done|]. split; [done|].
    intros messages context b4 Hbuild.
    destruct (build_context_returns _ _ _ _ _ Hbuild) as [Hctx Hsteps].
    split; [done|].
    by destruct (store_steps_absent channel_id k b3 b4 Hsteps Hin Habs).
  - intros Hpre fields author -> Hauthor Hall Hhist Hnew m'.
    pose proof (cycle_triggered _ _ _ _ _ _ _ _ Hfetch Hlast Hid Hfresh Htext
                  Hpre Hauthor) as Hcycle.
    fold t in Hcycle. rewrite answer_window_last in *. fold m' in Hcycle |- *.
    assert (msg_key channel_id m' = Some k) as Hk'.
    { unfold msg_key, m'. simpl. rewrite assoc_set_other by done.
      simpl in Hid. destruct (assoc "id" fields); [|done].
      by injection Hid as ->. }
    assert (is_message m') as Hm'.
    { unfold is_message, m'. simpl.
      rewrite !assoc_set_other, assoc_set_same by done.
      simpl in Hid, Hauthor.
      destruct (assoc "id" fields); [|done].
      by destruct (assoc "author" fields). }
    assert (user_line m' = stripped_line t author s) as Hline.
    { unfold user_line, stripped_line, field, m'.
      rewrite assoc_set_other, assoc_set_same by done. simpl.
      simpl in Hauthor. destruct (assoc "author" fields); [|done].
      by injection Hauthor as ->. }
    assert (Forall is_message (pre ++ [m'])) as Hwin
      by (apply Forall_app; split; [done|by constructor]).
    pose proof (build_context_spec channel_id (pre ++ [m']) b1 Hwin Hhist)
      as Hbuild. simpl in Hbuild.
    assert (Forall has_id pre) as Hids
      by (eapply Forall_impl; [exact Hall | apply is_message_has_id]).
    rewrite ingested_app in Hbuild by done.
    set (b0 := ingested channel_id pre (ensured channel_id b1)) in *.
    assert (k ∉ processed_messages b0) as Hfresh0.
    { intros Hin. apply ingested_processed_sub in Hin as [Hin|Hin]; [|done].
      by rewrite processed_ensured in Hin. }
    simpl in Hbuild. rewrite Hk' in Hbuild.
    rewrite bool_decide_eq_false_2 in Hbuild by done.
    rewrite history_store_add in Hbuild.
    eexists _, _. split; [exact Hbuild|].
    split; [|split; [|split]].
    + rewrite map_app. simpl. rewrite app_comm_cons, last_snoc.
      by rewrite Hline.
    + subst b2. rewrite process_channel_state, Hcycle.
      rewrite (answer_chat_log _ _ _ _ _ Hbuild).
      change (chat_log (store_add channel_id m' k b0)) with (chat_log b0).
      unfold b0. by rewrite chat_log_ingested.
    + subst b2. rewrite process_channel_state, Hcycle.
      pose proof (store_steps_le _ _ (answer_steps _ _ _ _ _ Hbuild))
        as [_ Hprefix].
      eapply elem_of_prefix; [|apply Hprefix].
      rewrite history_store_add. apply elem_of_app. right.
      by apply list_elem_of_singleton.
    + subst b2. rewrite process_channel_state, Hcycle.
      pose proof (store_steps_le _ _ (answer_steps _ _ _ _ _ Hbuild))
        as [Hsub _].
      apply Hsub. rewrite store_add_processed. set_solver.
Qed.

End Cycle.

(** * Further properties of the client and of the bot *)

Section Further.

Context {lib : PyLib} {world : Env}.

(** ** The client *)

Lemma do_call_params call c p :
  process c = Some p ->
  snd (do_call call c) = after_request "tools/call" (params_of call) c p.
Proof.
  intros Hp.
  destruct call as [channel_id limit|channel_id message|]; simpl;
    unfold get_messages, send_message, list_channels, call_tool, bind.
  - destruct (send_request_state "tools/call"
                (read_params channel_id limit) c p Hp) as (r & Hr & _).
    unfold read_params in *. rewrite Hr.
    destruct r; [|done..]. by rewrite payload_list_state.
  - destruct (send_request_state "tools/call"
                (send_params channel_id message) c p Hp) as (r & Hr & _).
    unfold send_params in *. by rewrite Hr.
  - destruct (send_request_state "tools/call" list_params c p Hp)
      as (r & Hr & _).
    unfold list_params in *. rewrite Hr.
    destruct r; [|done..]. by rewrite payload_list_state.
Qed.

Lemma do_call_idle call c :
  process c = None -> do_call call c = (Raise RuntimeError, c).
Proof.
  intros Hp.
  assert (forall method params,
            _send_request method params c = (Raise RuntimeError, c)) as Hs.
  { intros. unfold _send_request, bind, gets. simpl. by rewrite Hp. }
  destruct call; simpl;
    unfold get_messages, send_message, list_channels, call_tool, bind;
    by rewrite Hs.
Qed.

Lemma set_mcp_same b c : mcp b = Some c -> set_mcp (Some c) b = b.
Proof. destruct b. simpl. by intros ->. Qed.

Lemma cycle_fetch_raises channel_id b b1 e :
  on_mcp (get_messages channel_id 100) b = (Raise e, b1) ->
  is_Exception e = true ->
  _process_channel channel_id b = (Ret tt, b1).
Proof.
  intros Hfetch He.
  apply process_channel_recovers with (r := Raise e); [|done].
  unfold cycle, bind. by rewrite Hfetch.
Qed.

(** X1. Before [start] the client refuses every operation: the call raises
    [RuntimeError] without taking an id or writing anything. A poll cycle
    of a bot whose client was not started, or that has no client yet,
    swallows the error and leaves the bot exactly as it was. *)
Theorem calls_before_start call c :
  process c = None ->
  do_call call c = (Raise RuntimeError, c) /\
  (forall channel_id b,
     mcp b = Some c -> _process_channel channel_id b = (Ret tt, b)) /\
  (forall channel_id b,
     mcp b = None -> _process_channel channel_id b = (Ret tt, b)).
Proof.
  intros Hp. split; [by apply do_call_idle|]. split.
  - intros channel_id b Hc.
    apply cycle_fetch_raises with (e := RuntimeError); [|done].
    unfold on_mcp. rewrite Hc.
    pose proof (do_call_idle (CallGetMessages channel_id 100) c Hp) as Hidle.
    simpl in Hidle. rewrite Hidle. by rewrite set_mcp_same.
  - intros channel_id b Hc.
    apply cycle_fetch_raises with (e := AttributeError); [|done].
    unfold on_mcp. by rewrite Hc.
Qed.

Lemma send_request_error method params c p line rest fields err :
  process c = Some p ->
  answers p = Line line :: rest ->
  json_loads line = Some (JObj fields) ->
  assoc "error" fields = Some err ->
  _send_request method params c
  = (Raise (MCPError err), after_request method params c p).
Proof.
  destruct c as [pr rid]. simpl. intros ->.
  destruct p as [log out calls ex]. simpl. intros -> Hline Herr.
  unfold _send_request, _next_id, on_process, stdin_write,
    drain_readline, after_request, request_of.
  unfold bind, gets, modify, lift, ret, raise. simpl.
  rewrite Hline. simpl. by rewrite Herr.
Qed.

(** X2. An error response. When the line read back decodes to a mapping
    with an ['error'] field, the operation raises the RPC error carrying
    that field, whatever else the mapping holds; the request was written
    and its id is spent. A poll cycle whose fetch meets it gives the channel
    up for this round, with nothing changed but the client. *)
Theorem rpc_error_raises call c p line rest fields err :
  process c = Some p ->
  answers p = Line line :: rest ->
  json_loads line = Some (JObj fields) ->
  assoc "error" fields = Some err ->
  do_call call c
  = (Raise (MCPError err), after_request "tools/call" (params_of call) c p) /\
  (forall channel_id b,
     mcp b = Some c ->
     _process_channel channel_id b
     = (Ret tt,
        set_mcp (Some (after_request "tools/call"
                         (read_params channel_id 100) c p)) b)).
Proof.
  intros Hp Hout Hline Herr.
  assert (forall call,
            do_call call c
            = (Raise (MCPError err),
               after_request "tools/call" (params_of call) c p)) as Hcall.
  { intros [channel_id limit|channel_id message|]; simpl;
      unfold get_messages, send_message, list_channels, call_tool, bind,
        read_params, send_params, list_params;
      by rewrite (send_request_error _ _ _ _ _ _ _ _ Hp Hout Hline Herr). }
  split; [apply Hcall|].
  intros channel_id b Hc.
  apply cycle_fetch_raises with (e := MCPError err); [|done].
  unfold on_mcp. rewrite Hc.
  pose proof (Hcall (CallGetMessages channel_id 100)) as Hget.
  simpl in Hget. by rewrite Hget.
Qed.

Lemma do_calls_log calls c p :
  process c = Some p ->
  exists p',
    process (do_calls calls c) = Some p' /\
    stdin p' = (stdin p ++ requests_from (_request_id c + 1) calls)%list /\
    answers p' = drop (length calls) (answers p) /\
    terminate_calls p' = terminate_calls p.
Proof.
  revert c p. induction calls as [|call rest IH]; intros c p Hp.
  - exists p. simpl. by rewrite app_nil_r.
  - simpl do_calls. rewrite (do_call_params call c p Hp).
    destruct (IH (after_request "tools/call" (params_of call) c p) _ eq_refl)
      as (p' & Hp' & Hlog & Hout & Hterm).
    exists p'. split; [exact Hp'|]. simpl in Hlog, Hout, Hterm.
    split; [|split; [|exact Hterm]].
    + rewrite Hlog, <- app_assoc. reflexivity.
    + rewrite Hout. simpl length.
      destruct (answers p); simpl; [by rewrite drop_nil|done].
Qed.

(** X3. The wire log. On a client whose child was just spawned, after any
    sequence of the three operations the requests written are exactly
    those of the calls, in order: each is the envelope of method
    [tools/call] carrying the tool's name and arguments and the position of
    the call as its id, whatever the child answered. Each call has consumed
    one answer of the child, and nothing has terminated it. *)
Theorem request_log_exact (out : list io_event) (calls : list client_call) :
  exists p,
    process (do_calls calls (started out)) = Some p /\
    stdin p = requests_from 1 calls /\
    answers p = drop (length calls) out /\
    terminate_calls p = O.
Proof.
  destruct (do_calls_log calls (started out) _ eq_refl)
    as (p' & Hp' & Hlog & Hout & Hterm).
  exists p'. by repeat split.
Qed.




(** ** What can end the polling loop *)

Lemma calm_same b b' : mcp b' = mcp b -> calm b -> calm b'.
Proof. intros Heq Hb c p Hc Hp. rewrite Heq in Hc. by apply (Hb c p). Qed.

Lemma steady_ret {A} (a : A) : steady (ret a).
Proof. by intros b Hb. Qed.

Lemma steady_raise {A} e : is_Exception e = true -> steady (raise (A := A) e).
Proof. by intros He b Hb. Qed.

Lemma steady_lift {A} (r : res A) : plain r -> steady (lift r).
Proof. by intros Hr b Hb. Qed.

Lemma steady_gets {A} (f : DiscordAIBot -> A) : steady (gets f).
Proof. by intros b Hb. Qed.

Lemma steady_same {A} (m : M DiscordAIBot A) :
  (forall b, plain (fst (m b)) /\ mcp (snd (m b)) = mcp b) -> steady m.
Proof.
  intros H b Hb. destruct (H b) as [Hr Hm]. split; [done|].
  by apply (calm_same b).
Qed.

Lemma steady_bind {A B} (m : M DiscordAIBot A) (k : A -> M DiscordAIBot B) :
  steady m -> (forall a, steady (k a)) -> steady (bind m k).
Proof.
  intros Hm Hk b Hb. unfold bind. destruct (Hm b Hb) as [Hr Hc].
  destruct (m b) as [[a|e|] b1]; simpl in *; [|done..].
  by apply Hk.
Qed.

Lemma payload_list_plain fld result c : plain (fst (payload_list fld result c)).
Proof.
  unfold payload_list, bind, lift.
  pose proof (get_default_plain result "content" (JArr [JObj []])) as H1.
  destruct (get_default result "content" _) as [contents| |]; simpl in *;
    [|done..].
  pose proof (getitem0_plain contents) as H2.
  destruct (getitem0 contents) as [first| |]; simpl in *; [|done..].
  pose proof (get_default_plain first "text" (JStr "{}")) as H3.
  destruct (get_default first "text" _) as [text| |]; simpl in *; [|done..].
  pose proof (loads_plain text) as H4.
  destruct (loads text) as [data| |]; simpl in *; [|done..].
  apply get_default_plain.
Qed.

Lemma do_call_recoverable call c p :
  process c = Some p -> recoverable (fst (do_call call c)) (answers p).
Proof.
  intros Hp.
  destruct call as [channel_id limit|channel_id message|]; simpl;
    unfold get_messages, send_message, list_channels, call_tool, bind.
  - destruct (send_request_state "tools/call"
                (read_params channel_id limit) c p Hp) as (r & Hr & Hrec).
    unfold read_params in *. rewrite Hr.
    destruct r as [result|e|]; [|done..].
    apply plain_recoverable, payload_list_plain.
  - destruct (send_request_state "tools/call"
                (send_params channel_id message) c p Hp) as (r & Hr & Hrec).
    unfold send_params in *. by rewrite Hr.
  - destruct (send_request_state "tools/call" list_params c p Hp)
      as (r & Hr & Hrec).
    unfold list_params in *. rewrite Hr.
    destruct r as [result|e|]; [|done..].
    apply plain_recoverable, payload_list_plain.
Qed.

Lemma steady_call call : steady (on_mcp (do_call call)).
Proof.
  intros b Hb. unfold on_mcp.
  destruct (mcp b) as [c|] eqn:Hc; [|by split].
  destruct (process c) as [p|] eqn:Hp.
  - pose proof (do_call_params call c p Hp) as Hstate.
    pose proof (do_call_recoverable call c p Hp) as Hrec.
    pose proof (Hb c p Hc Hp) as Hcalm.
    destruct (do_call call c) as [r c']. simpl in *. subst c'. split.
    + destruct r as [v|e|]; simpl in *; [done| |done].
      destruct Hrec as [He|[rest Hrest]]; [done|].
      rewrite Hrest in Hcalm. by inversion Hcalm.
    + intros c1 p1 [= <-] [= <-]. simpl.
      destruct (answers p); [done|]. by inversion Hcalm.
  - rewrite (do_call_idle call c Hp). simpl. split; [done|].
    intros c1 p1 [= <-] Hp1. congruence.
Qed.

Lemma steady_processed_add k : steady (processed_add k).
Proof. by apply steady_same. Qed.

Lemma steady_ingest_loop channel_id messages :
  steady (ingest_loop channel_id messages).
Proof.
  induction messages as [|msg rest IH]; simpl; [apply steady_ret|].
  apply steady_bind; [apply steady_lift, getitem_plain|intros id].
  apply steady_bind; [apply steady_gets|intros seen].
  apply steady_bind; [|by intros].
  destruct seen; [apply steady_ret|].
  apply steady_bind; [|intros; apply steady_processed_add].
  apply steady_same. intros b. unfold history_append, bind, gets. simpl.
  by destruct (_ !! _).
Qed.

Lemma render_plain stored : plain (render stored).
Proof.
  induction stored as [|msg rest IH]; simpl; [done|].
  pose proof (getitem_plain msg "author") as H1.
  destruct (getitem msg "author"); simpl in *; [|done..].
  pose proof (getitem_plain msg "content") as H2.
  destruct (getitem msg "content"); simpl in *; [|done..].
  by destruct (render rest).
Qed.

Lemma steady_build_context channel_id messages :
  steady (_build_context channel_id messages).
Proof.
  unfold _build_context, ingest.
  apply steady_bind; [|intros _].
  { apply steady_bind; [|intros; apply steady_ingest_loop].
    apply steady_same. intros b. unfold ensure_channel, bind, gets.
    simpl. by destruct (_ !! _). }
  apply steady_bind; [apply steady_gets|intros sys].
  apply steady_bind; [apply steady_gets|intros h].
  destruct (h !! channel_id); [|by apply steady_raise].
  apply steady_bind; [apply steady_lift, render_plain|intros entries].
  apply steady_ret.
Qed.

Lemma steady_generate_response context :
  backend_calm -> steady (_generate_response context).
Proof.
  intros Hchat. apply steady_same. intros b.
  unfold _generate_response, try_except_Exception, ollama_chat, bind, gets,
    modify. simpl.
  specialize (Hchat (length (chat_log b)) context).
  by destruct (chat _ _).
Qed.

Lemma startswith_plain v t : plain (startswith v t).
Proof. by destruct v. Qed.

Lemma last_of_non_list_plain v : plain (last_of_non_list v).
Proof. by destruct v. Qed.

Lemma steady_cycle channel_id : backend_calm -> steady (cycle channel_id).
Proof.
  intros Hchat. unfold cycle.
  apply steady_bind;
    [apply (steady_call (CallGetMessages channel_id 100))|intros messages].
  destruct (negb (truthy messages)); [apply steady_ret|].
  destruct messages;
    try (apply steady_lift, last_of_non_list_plain).
  destruct (last items) as [m|]; [|apply steady_ret].
  apply steady_bind; [apply steady_lift, getitem_plain|intros id].
  apply steady_bind; [apply steady_gets|intros seen].
  destruct seen; [apply steady_ret|].
  apply steady_bind; [apply steady_lift, getitem_plain|intros text].
  apply steady_bind; [apply steady_gets|intros t].
  apply steady_bind; [apply steady_lift, startswith_plain|intros triggered].
  destruct (negb triggered); [apply steady_processed_add|].
  apply steady_bind; [apply steady_lift, getitem_plain|intros author].
  destruct m; try by apply steady_raise.
  destruct text; try by apply steady_raise.
  unfold answer.
  apply steady_bind; [apply steady_build_context|intros context].
  apply steady_bind; [by apply steady_generate_response|intros response].
  apply steady_bind;
    [apply (steady_call (CallSendMessage channel_id response))|intros _].
  apply steady_ret.
Qed.

Lemma calm_process_channel channel_id b :
  backend_calm -> calm b ->
  exists b1, _process_channel channel_id b = (Ret tt, b1) /\ calm b1.
Proof.
  intros Hchat Hb. destruct (steady_cycle channel_id Hchat b Hb) as [Hr Hc].
  destruct (cycle channel_id b) as [r b1] eqn:Hcycle. simpl in *.
  exists b1. split; [|done]. by eapply process_channel_recovers.
Qed.

Lemma calm_visit chans b :
  backend_calm -> calm b ->
  exists b1, visit chans b = (Ret tt, b1) /\ calm b1.
Proof.
  intros Hchat. revert b. induction chans as [|raw rest IH]; intros b Hb.
  - by exists b.
  - simpl. destruct (String.eqb (strip raw) "").
    + unfold bind, ret. by apply IH.
    + destruct (calm_process_channel (strip raw) b Hchat Hb)
        as (b1 & Hcycle & Hb1).
      unfold bind at 1. rewrite Hcycle. by apply IH.
Qed.

Lemma calm_monitor fuel b :
  backend_calm -> (forall n, sleep_fault n = None) -> calm b ->
  fst (monitor fuel b) = Running.
Proof.
  intros Hchat Hquiet. revert b. induction fuel as [|fuel IH]; intros b Hb.
  - reflexivity.
  - simpl monitor. unfold bind at 1. unfold gets at 1.
    destruct (calm_visit (channels (config b)) b Hchat Hb)
      as (b1 & Hv & Hb1).
    unfold bind at 1. rewrite Hv.
    unfold bind at 1. rewrite (closed_sleep _ Hquiet).
    apply IH. by apply (calm_same b1).
Qed.

(** X5. Only an interrupt ends the polling loop. When no interrupt or
    cancellation is delivered -- none to a call of the child, none to the
    backend, none to a sleep -- the loop is never left, whatever the child
    answers (lines that do not decode, error responses, broken pipes, a
    closed output) and whether the backend answers or fails: for every
    number of iterations [run] is still polling, and [stop] was not
    called. *)
Theorem only_interrupts_end_polling fuel b :
  backend_calm ->
  (forall n, sleep_fault n = None) ->
  calm b ->
  no_channels (channels (config b)) = false ->
  fst (run fuel b) = Running /\
  stop_count (snd (run fuel b)) = stop_count b.
Proof.
  intros Hchat Hquiet Hb Hchans.
  pose proof (calm_monitor fuel b Hchat Hquiet Hb) as Hrun.
  pose proof (client_steps_keep _ _ (calls_only_monitor fuel b)) as [Hstop _].
  unfold run, bind, gets. rewrite Hchans.
  unfold try_except_KeyboardInterrupt_finally.
  destruct (monitor fuel b) as [r b1]. simpl in *. by subst r.
Qed.

(** ** The requests of one cycle *)

Lemma mcp_ingested channel_id messages b :
  mcp (ingested channel_id messages (ensured channel_id b)) = mcp b.
Proof.
  assert (mcp (ensured channel_id b) = mcp b) as <-
    by (unfold ensured; by destruct (_ !! _)).
  generalize (ensured channel_id b). intros b0. revert b0.
  induction messages as [|msg rest IH]; intros b0; simpl; [done|].
  destruct (msg_key channel_id msg) as [k|]; [|done].
  rewrite IH. by case_bool_decide.
Qed.

(** Whatever its outcome, [_build_context] leaves the state in which its
    first loop ended. *)
Lemma build_context_state channel_id messages b :
  snd (_build_context channel_id messages b)
  = ingested channel_id messages (ensured channel_id b).
Proof.
  rewrite <- ingest_state. unfold _build_context. unfold bind at 1.
  destruct (ingest channel_id messages b) as [[[]|e|] b1]; simpl; [|done..].
  unfold bind, gets, lift, ret, raise. simpl.
  destruct (conversation_history b1 !! channel_id); [|done].
  by destruct (render _).
Qed.

Lemma generate_response_state context b :
  snd (_generate_response context b)
  = set_chat_log (chat_log b ++ [context])%list b.
Proof.
  unfold _generate_response, try_except_Exception, ollama_chat, bind, gets,
    modify. simpl.
  by destruct (chat _ _).
Qed.

(** The state in which [answer] ends: the one its context left, the call
    of the backend logged; or that state after the reply was written. *)
Lemma answer_state channel_id messages b :
  let b1 := ingested channel_id messages (ensured channel_id b) in
  snd (answer channel_id messages b) = b1 \/
  (exists context,
     snd (answer channel_id messages b)
     = set_chat_log (chat_log b1 ++ [context])%list b1) \/
  (exists context response,
     snd (answer channel_id messages b)
     = snd (on_mcp (send_message channel_id response)
              (set_chat_log (chat_log b1 ++ [context])%list b1))).
Proof.
  intros b1. remember (snd (answer channel_id messages b)) as final eqn:Hf.
  unfold answer in Hf. unfold bind at 1 in Hf.
  pose proof (build_context_state channel_id messages b) as Hb1.
  fold b1 in Hb1.
  destruct (_build_context channel_id messages b) as [[context|e|] b1'];
    simpl in Hb1, Hf; subst b1'; [|by left..].
  unfold bind at 1 in Hf.
  pose proof (generate_response_state context b1) as Hg.
  destruct (_generate_response context b1) as [[response|e|] b2];
    simpl in Hg, Hf; subst b2; [|right; left; by eexists..].
  right. right. exists context, response. unfold bind in Hf.
  by destruct (on_mcp (send_message channel_id response) _) as [[v|e|] b3].
Qed.

(** The states in which a cycle can end, from the state [b1] its fetch
    left: [b1] itself, [b1] with one key recorded, or the end of an
    [answer] started in [b1]. *)
Lemma cycle_state channel_id b :
  let b1 := snd (on_mcp (get_messages channel_id 100) b) in
  snd (cycle channel_id b) = b1 \/
  (exists k, snd (cycle channel_id b)
             = set_processed_messages ({[k]} ∪ processed_messages b1) b1) \/
  (exists messages, snd (cycle channel_id b)
                    = snd (answer channel_id messages b1)).
Proof.
  intros b1. subst b1.
  remember (snd (cycle channel_id b)) as final eqn:Hf.
  unfold cycle in Hf. unfold bind at 1 in Hf.
  destruct (on_mcp (get_messages channel_id 100) b) as [[messages|e|] b1];
    simpl in *; [|by left..].
  destruct (negb (truthy messages)); [by left|].
  destruct messages; try by left.
  destruct (last items) as [m|]; [|by left].
  unfold bind at 1 in Hf. unfold lift at 1 in Hf.
  destruct (getitem m "id") as [id| |]; [|by left..].
  unfold bind at 1 in Hf. unfold gets at 1 in Hf.
  destruct (bool_decide _); [by left|].
  unfold bind at 1 in Hf. unfold lift at 1 in Hf.
  destruct (getitem m "content") as [text| |]; [|by left..].
  unfold bind at 1 in Hf. unfold gets at 1 in Hf.
  unfold bind at 1 in Hf. unfold lift at 1 in Hf.
  destruct (startswith text _) as [triggered| |]; [|by left..].
  destruct (negb triggered);
    [right; left; exists (composite_key channel_id id); exact Hf|].
  unfold bind at 1 in Hf. unfold lift at 1 in Hf.
  destruct (getitem m "author") as [author| |]; [|by left..].
  destruct m; try by left.
  destruct text; try by left.
  right. right. by eexists.
Qed.

(** X6. The requests of one cycle. A poll cycle of a channel writes one
    fetch request for that channel and at most one reply, addressed to the
    same channel; it writes nothing else, and it never terminates the
    child. *)
Theorem cycle_requests channel_id b c p :
  mcp b = Some c ->
  process c = Some p ->
  let b' := snd (_process_channel channel_id b) in
  let fetch :=
    request_of (_request_id c + 1) "tools/call" (read_params channel_id 100) in
  stop_count b' = stop_count b /\
  (wire b' = (stdin p ++ [fetch])%list /\ last_id b' = _request_id c + 1 \/
   exists response,
     wire b'
     = (stdin p
        ++ [fetch;
            request_of (_request_id c + 2) "tools/call"
              (send_params channel_id response)])%list /\
     last_id b' = _request_id c + 2).
Proof.
  intros Hc Hp b' fetch. subst b'.
  split.
  { by destruct (client_steps_keep _ _
                   (calls_only_process_channel channel_id b)). }
  rewrite process_channel_state.
  set (c1 := after_request "tools/call" (read_params channel_id 100) c p).
  assert (snd (on_mcp (get_messages channel_id 100) b)
          = set_mcp (Some c1) b) as Hfetch.
  { unfold on_mcp. rewrite Hc.
    pose proof (do_call_params (CallGetMessages channel_id 100) c p Hp)
      as Hstate. simpl in Hstate.
    destruct (get_messages channel_id 100 c) as [r c']. simpl in *.
    by subst c'. }
  pose proof (cycle_state channel_id b) as Hshape. simpl in Hshape.
  rewrite Hfetch in Hshape.
  assert (forall b0, mcp b0 = Some c1 ->
            wire b0 = (stdin p ++ [fetch])%list /\
            last_id b0 = _request_id c + 1) as Hone.
  { intros b0 Hb0. unfold wire, last_id. by rewrite Hb0. }
  destruct Hshape as [->|[[k ->]|[messages ->]]]; [left; by apply Hone..|].
  pose proof (answer_state channel_id messages (set_mcp (Some c1) b))
    as Hans. simpl in Hans.
  assert (mcp (ingested channel_id messages
                 (ensured channel_id (set_mcp (Some c1) b))) = Some c1)
    as Hm by (by rewrite mcp_ingested).
  destruct Hans as [->|[[context ->]|(context & response & ->)]];
    [left; by apply Hone..|].
  right. exists response.
  unfold on_mcp. simpl mcp. rewrite Hm.
  pose proof (do_call_params (CallSendMessage channel_id response) c1 _
                eq_refl) as Hstate. simpl in Hstate.
  destruct (send_message channel_id response c1) as [r c2]. simpl in *.
  subst c2. unfold wire, last_id. simpl. split; [|lia].
  unfold written, after_request. simpl. rewrite <- app_assoc. simpl.
  subst fetch. do 4 f_equal. lia.
Qed.

(** ** Composite keys *)

Lemma string_app_assoc (s1 s2 s3 : string) :
  (s1 +:+ s2) +:+ s3 = s1 +:+ (s2 +:+ s3).
Proof.
  induction s1 as [|a s1 IH]; [done|].
  change (String a ((s1 +:+ s2) +:+ s3) = String a (s1 +:+ (s2 +:+ s3))).
  by f_equal.
Qed.

Lemma append_cons a (s t : string) : String a s +:+ t = String a (s +:+ t).
Proof. reflexivity. Qed.

Lemma append_empty (t : string) : "" +:+ t = t.
Proof. reflexivity. Qed.

Lemma contains_colon_cons a s :
  contains ":" (String a s) = false ->
  a <> ":"%char /\ contains ":" s = false.
Proof.
  change (contains ":" (String a s))
    with (String.prefix ":" (String a s) || contains ":" s).
  change (String.prefix ":" (String a s))
    with (if ascii_dec ":" a then String.prefix "" s else false).
  destruct (ascii_dec ":" a) as [<-|Hne].
  - by destruct s.
  - intros H. split; [congruence|exact H].
Qed.

(** X7. Composite keys are unambiguous as long as channel ids hold no
    colon: two messages with string ids, in channels whose ids are
    colon-free, have the same key only if they are in the same channel and
    have the same id. *)
Theorem composite_key_injective c1 c2 i1 i2 :
  contains ":" c1 = false ->
  contains ":" c2 = false ->
  composite_key c1 (JStr i1) = composite_key c2 (JStr i2) ->
  c1 = c2 /\ i1 = i2.
Proof.
  unfold composite_key, format. revert c2.
  induction c1 as [|a c1 IH]; intros [|a2 c2] H1 H2 Heq;
    rewrite ?append_cons, ?append_empty in Heq.
  - by injection Heq as ->.
  - injection Heq as <- _. by destruct (contains_colon_cons _ _ H2).
  - injection Heq as -> _. by destruct (contains_colon_cons _ _ H1).
  - injection Heq as -> Heq.
    destruct (contains_colon_cons _ _ H1) as [_ H1'].
    destruct (contains_colon_cons _ _ H2) as [_ H2'].
    destruct (IH c2 H1' H2' Heq) as [-> ->]. done.
Qed.

(** X8. With a colon in a channel id the keys collide across channels: the
    message of id [y] in the channel [c:x] has the key of the message of id
    [x:y] in the channel [c]. Once the latter was ingested, the ingestion
    of the former stores nothing and records nothing: the message is
    dropped as a duplicate. *)
Theorem composite_key_collides channel_id x y msg1 msg2 b :
  getitem msg1 "id" = Ret (JStr (x +:+ ":" +:+ y)) ->
  getitem msg2 "id" = Ret (JStr y) ->
  let other := channel_id +:+ ":" +:+ x in
  let b1 := snd (ingest channel_id [msg1] b) in
  let b2 := snd (ingest other [msg2] b1) in
  composite_key other (JStr y)
  = composite_key channel_id (JStr (x +:+ ":" +:+ y)) /\
  ingest other [msg2] b1 = (Ret tt, b2) /\
  history b2 other = history b1 other /\
  processed_messages b2 = processed_messages b1.
Proof.
  intros Hid1 Hid2 other b1 b2.
  assert (composite_key other (JStr y)
          = composite_key channel_id (JStr (x +:+ ":" +:+ y))) as Hkey.
  { unfold composite_key, other. simpl. by rewrite !string_app_assoc. }
  split; [exact Hkey|].
  assert (msg_key channel_id msg1
          = Some (composite_key channel_id (JStr (x +:+ ":" +:+ y)))) as Hk1
    by (unfold msg_key; by rewrite Hid1).
  assert (msg_key other msg2
          = Some (composite_key channel_id (JStr (x +:+ ":" +:+ y)))) as Hk2
    by (unfold msg_key; rewrite Hid2; by rewrite Hkey).
  assert (Forall has_id [msg1]) as Hall1
    by (constructor; [by eapply msg_key_has_id | constructor]).
  assert (Forall has_id [msg2]) as Hall2
    by (constructor; [by eapply msg_key_has_id | constructor]).
  assert (composite_key channel_id (JStr (x +:+ ":" +:+ y))
          ∈ processed_messages b1) as Hin.
  { subst b1. rewrite ingest_state.
    eapply ingested_keys_processed; [exact Hall1| |exact Hk1].
    by apply list_elem_of_singleton. }
  subst b2. rewrite (ingest_spec _ _ _ Hall2). simpl. rewrite Hk2.
  rewrite processed_ensured, bool_decide_eq_true_2 by done.
  split; [done|]. by rewrite history_ensured, processed_ensured.
Qed.

(** ** Messages the loops cannot read *)

Lemma ingest_loop_raises channel_id pre bad post b e :
  is_Some (conversation_history b !! channel_id) ->
  Forall has_id pre ->
  getitem bad "id" = Raise e ->
  ingest_loop channel_id (pre ++ bad :: post) b
  = (Raise e, ingested channel_id pre b).
Proof.
  revert b. induction pre as [|msg rest IH]; intros b [stored Hs] Hall Hbad.
  - simpl. unfold bind, lift. by rewrite Hbad.
  - inversion Hall as [|? ? Hid Hrest]; subst.
    destruct (has_id_key channel_id msg Hid) as [k Hk].
    rewrite <- app_comm_cons.
    rewrite (ingest_loop_cons _ _ _ k b stored Hk Hs).
    simpl ingested. rewrite Hk. apply IH; [|done..].
    case_bool_decide; [eauto|].
    unfold store_add. simpl. rewrite lookup_insert_eq. eauto.
Qed.

Lemma has_id_false msg :
  has_id msg = false ->
  exists e, getitem msg "id" = Raise e /\ is_Exception e = true.
Proof.
  unfold has_id. pose proof (getitem_plain msg "id") as Hp.
  destruct (getitem msg "id") as [v|e|]; simpl in *; [done| |done].
  eauto.
Qed.

(** X10. A message without an id stops the ingestion where it stands: the
    messages fetched before it are ingested, the read of its id raises, and
    [_build_context] raises with it; the messages that follow it in the
    window are not looked at, so that no key is recorded but those of the
    messages before it. *)
Theorem missing_id_stops_ingestion channel_id (pre post : list json) bad b :
  Forall has_id pre ->
  has_id bad = false ->
  exists e,
    is_Exception e = true /\
    ingest channel_id (pre ++ bad :: post) b
    = (Raise e, snd (ingest channel_id pre b)) /\
    _build_context channel_id (pre ++ bad :: post) b
    = (Raise e, snd (ingest channel_id pre b)) /\
    forall k,
      k ∈ processed_messages (snd (ingest channel_id pre b)) ->
      k ∈ processed_messages b \/ Some k ∈ map (msg_key channel_id) pre.
Proof.
  intros Hall Hbad. destruct (has_id_false bad Hbad) as (e & He & Hexn).
  assert (ingest channel_id (pre ++ bad :: post) b
          = (Raise e, snd (ingest channel_id pre b))) as Hing.
  { rewrite ingest_state. unfold ingest, bind.
    rewrite ensure_channel_spec.
    apply ingest_loop_raises; [apply ensured_entry|done..]. }
  exists e. split; [done|]. split; [done|]. split.
  - unfold _build_context. unfold bind at 1. by rewrite Hing.
  - intros k Hk. rewrite ingest_state in Hk.
    apply ingested_processed_sub in Hk as [Hk|Hk]; [|by right].
    left. by rewrite processed_ensured in Hk.
Qed.

Lemma render_raises stored msg :
  msg ∈ stored -> renders msg = false ->
  exists e, render stored = Raise e /\ is_Exception e = true.
Proof.
  intros Hin Hbad. induction stored as [|m rest IH].
  - by apply elem_of_nil in Hin.
  - simpl.
    pose proof (getitem_plain m "author") as H1.
    pose proof (getitem_plain m "content") as H2.
    destruct (getitem m "author") as [author|e|] eqn:Ha; simpl in *;
      [|by eauto|done].
    destruct (getitem m "content") as [text|e|] eqn:Ht; simpl in *;
      [|by eauto|done].
    apply elem_of_cons in Hin as [->|Hin].
    + unfold renders in Hbad. by rewrite Ha, Ht in Hbad.
    + destruct (IH Hin) as (e & -> & He). eauto.
Qed.

Lemma ingest_plain channel_id messages b :
  plain (fst (ingest channel_id messages b)).
Proof.
  unfold ingest, bind. rewrite ensure_channel_spec.
  pose proof (ensured_entry channel_id b) as Hentry.
  generalize dependent (ensured channel_id b). intros b0. revert b0.
  induction messages as [|msg rest IH]; intros b0 Hentry; [done|].
  destruct (has_id msg) eqn:Hid.
  - destruct (has_id_key channel_id msg) as [k Hk]; [by rewrite Hid|].
    destruct Hentry as [stored Hs].
    rewrite (ingest_loop_cons _ _ _ k b0 stored Hk Hs).
    apply IH. case_bool_decide; [eauto|].
    unfold store_add. simpl. rewrite lookup_insert_eq. eauto.
  - destruct (has_id_false msg Hid) as (e & He & Hexn).
    pose proof (ingest_loop_raises channel_id [] msg rest b0 e Hentry
                  (Forall_nil_2 _) He) as Hr.
    simpl app in Hr. by rewrite Hr.
Qed.

(** X9. A stored message whose author or content cannot be read poisons its
    channel. From then on, in every later state of the bot and for every
    fetched window, [_build_context] raises for that channel; a cycle that
    sets out to answer there raises before it calls the backend or writes
    a reply. *)
Theorem unreadable_message_poisons channel_id b msg :
  msg ∈ history b channel_id ->
  renders msg = false ->
  forall b', later b b' ->
  forall messages,
    (exists e,
       fst (_build_context channel_id messages b') = Raise e /\
       is_Exception e = true) /\
    (exists e,
       fst (answer channel_id messages b') = Raise e /\
       is_Exception e = true /\
       chat_log (snd (answer channel_id messages b')) = chat_log b' /\
       mcp (snd (answer channel_id messages b')) = mcp b').
Proof.
  intros Hin Hbad b' Hlater messages.
  assert (exists e,
            fst (_build_context channel_id messages b') = Raise e /\
            is_Exception e = true) as (e & Hbuild & He).
  { pose proof (build_context_state channel_id messages b') as Hstate.
    pose proof (ingest_state channel_id messages b') as Hing.
    pose proof (ingest_plain channel_id messages b') as Hplain.
    unfold _build_context in *. unfold bind at 1. unfold bind at 1 in Hstate.
    destruct (ingest channel_id messages b') as [[[]|e|] b1];
      simpl in *; [|by eauto|done].
    subst b1. clear Hstate.
    set (b1 := ingested channel_id messages (ensured channel_id b')).
    unfold bind, gets, lift, ret, raise. simpl.
    rewrite history_lookup by apply ingested_entry, ensured_entry.
    assert (msg ∈ history b1 channel_id) as Hin1.
    { eapply elem_of_prefix; [|apply ingested_history_prefix].
      rewrite history_ensured.
      eapply elem_of_prefix; [exact Hin|].
      apply (store_steps_le _ _ (later_steps _ _ Hlater)). }
    destruct (render_raises _ _ Hin1 Hbad) as (e & -> & He). eauto. }
  split; [by eauto|]. exists e.
  pose proof (build_context_state channel_id messages b') as Hstate.
  unfold answer, bind.
  destruct (_build_context channel_id messages b') as [r b1].
  simpl in *. subst r b1. simpl.
  split; [done|]. split; [done|].
  by rewrite chat_log_ingested, mcp_ingested.
Qed.

(** ** Start-up and shutdown *)


Lemma stop_mcp_spec b :
  has_child b ->
  stop_mcp b
  = (if child_gone b then Raise ProcessLookupError else Ret tt,
     with_child_stopped b) /\
  stop_count (with_child_stopped b) = S (stop_count b) /\
  has_child (with_child_stopped b) /\
  child_gone (with_child_stopped b) = true.
Proof.
  intros (c & p & Hc & Hp).
  destruct b as [cfg m h ps log n]. simpl in Hc. subst m.
  destruct c as [pr rid]. simpl in Hp. subst pr.
  split; [|split; [reflexivity|split; [|reflexivity]]].
  - unfold stop_mcp, on_mcp, stop, on_process, terminate_wait, bind, gets,
      child_gone, with_child_stopped. simpl.
    by destruct (gone p).
  - eexists _, _. split; reflexivity.
Qed.

Lemma visit_blank chans b :
  Forall (fun channel_id => strip channel_id = "") chans ->
  visit chans b = (Ret tt, b).
Proof.
  induction 1 as [|raw rest Hraw Hrest IH]; [done|].
  simpl. rewrite Hraw. simpl. unfold bind, ret. exact IH.
Qed.

Lemma set_sleeps_same b : set_sleeps (sleeps b) b = b.
Proof. by destruct b. Qed.

Lemma monitor_blank fuel b :
  Forall (fun channel_id => strip channel_id = "") (channels (config b)) ->
  (forall n, sleep_fault n = None) ->
  monitor fuel b = (Running, set_sleeps (fuel + sleeps b) b).
Proof.
  intros Hblank Hquiet. revert b Hblank.
  induction fuel as [|fuel IH]; intros b Hblank.
  - simpl. by rewrite set_sleeps_same.
  - simpl monitor. unfold bind at 1. unfold gets at 1.
    unfold bind at 1. rewrite (visit_blank _ _ Hblank).
    unfold bind at 1. rewrite (closed_sleep _ Hquiet).
    rewrite IH by exact Hblank.
    simpl. f_equal. unfold set_sleeps. simpl. f_equal. lia.
Qed.

(** X11. Blank channel names. When every configured channel name is blank
    but the list is not the one of the no-channels path (two empty names,
    or a name made of spaces), [run] neither lists the channels nor polls
    anything: with no interrupt it sleeps for ever, and after any number
    of iterations nothing has changed but the count of the sleeps -- no
    request was written, nothing was stored, [stop] was not called. *)
Theorem blank_channels_idle fuel b :
  Forall (fun channel_id => strip channel_id = "") (channels (config b)) ->
  no_channels (channels (config b)) = false ->
  (forall n, sleep_fault n = None) ->
  run fuel b = (Running, set_sleeps (fuel + sleeps b) b).
Proof.
  intros Hblank Hchans Hquiet.
  unfold run, bind, gets. rewrite Hchans.
  unfold try_except_KeyboardInterrupt_finally.
  by rewrite (monitor_blank _ _ Hblank Hquiet).
Qed.

(** X12. Failures of the start-up. When the check of the model raises,
    [main] raises the same exception and the bot is as it was built: no
    client, no child. When the child cannot be spawned, [main] raises what
    the spawn raised; the client is in place without a process, and the
    [stop] of the handler finds nothing to terminate. *)
Theorem startup_failures cfg fuel e :
  (ollama_check = Some e ->
   main fuel (DiscordAIBot_init cfg) = (Raise e, DiscordAIBot_init cfg)) /\
  (ollama_check = None -> spawn_fault = Some e ->
   main fuel (DiscordAIBot_init cfg)
   = (Raise e, set_mcp (Some MCPClient_init) (DiscordAIBot_init cfg))).
Proof.
  split.
  - intros Ho.
    unfold main, try_except_Exception, initialize, _ensure_model_available.
    unfold bind at 1. unfold bind at 1. rewrite Ho.
    unfold raise at 1. by destruct (is_Exception e).
  - intros Ho Hs.
    unfold main, try_except_Exception, initialize, _ensure_model_available,
      on_mcp, start.
    unfold bind, gets, modify, ret, raise. simpl.
    rewrite Ho, Hs. simpl. by destruct (is_Exception e).
Qed.

(** X13. An interrupt during the start-up sleep. [initialize] runs outside
    the [try] of [run], and the handler of [main] catches [Exception]s
    only: when the sleep that follows the spawn is cut by an interrupt or a
    cancellation, [main] lets it through and the child is left running,
    [stop] never called. Were the sleep to raise an [Exception], [stop]
    would be called once before it is raised again -- unless the child is
    gone by then, in which case it is the [ProcessLookupError] of
    [terminate] that [main] raises. *)
Theorem startup_interrupt_leaks cfg fuel e :
  ollama_check = None ->
  spawn_fault = None ->
  sleep_fault 0 = Some e ->
  has_child (initialized cfg) /\
  stop_count (initialized cfg) = O /\
  (is_Exception e = false ->
   main fuel (DiscordAIBot_init cfg) = (Raise e, initialized cfg)) /\
  (is_Exception e = true ->
   main fuel (DiscordAIBot_init cfg)
   = (Raise (if child_gone (initialized cfg) then ProcessLookupError else e),
      with_child_stopped (initialized cfg)) /\
   stop_count (with_child_stopped (initialized cfg)) = 1%nat).
Proof.
  intros Ho Hs Hz.
  assert (initialize (DiscordAIBot_init cfg) = (Raise e, initialized cfg))
    as Hinit.
  { unfold initialize, _ensure_model_available, asyncio_sleep, on_mcp, start,
      bind, gets, modify, ret, raise. simpl.
    rewrite Ho, Hs. simpl. by rewrite Hz. }
  assert (has_child (initialized cfg)) as Hchild
    by (eexists _, _; split; reflexivity).
  split; [done|]. split; [reflexivity|].
  split; intros He.
  - unfold main, try_except_Exception. unfold bind at 1.
    rewrite Hinit. by rewrite He.
  - split; [|reflexivity].
    destruct (stop_mcp_spec _ Hchild) as (Hstopped & _).
    unfold main, try_except_Exception. unfold bind at 1.
    rewrite Hinit, He. unfold bind, raise. rewrite Hstopped.
    by destruct (child_gone (initialized cfg)).
Qed.



(** ** Replies *)

Lemma answer_processed channel_id messages b :
  processed_messages (snd (answer channel_id messages b))
  = processed_messages (ingested channel_id messages (ensured channel_id b)).
Proof.
  pose proof (answer_state channel_id messages b) as Hst. cbv zeta in Hst.
  destruct Hst as [->|[[context ->]|(context & response & ->)]];
    [done|done|].
  by destruct (on_mcp_store (send_message channel_id response)
                 (set_chat_log
                    (chat_log (ingested channel_id messages
                                 (ensured channel_id b)) ++ [context])%list
                    (ingested channel_id messages (ensured channel_id b))))
    as (_ & -> & _).
Qed.

(** X16. A lost reply is not retried. Once the cycle has gone on to answer
    a window of messages that carry an id, the key of its most recent
    message is recorded whatever happens next -- the backend interrupted,
    the reply refused by the child, the child gone. So in every later state
    of the bot a cycle whose fetch returns a window ending with a message
    of the same id stops at the freshness check: it returns with the state
    the fetch left, the backend is not asked again and nothing is sent. *)
Theorem lost_reply_not_retried channel_id messages m id b :
  Forall has_id messages ->
  last messages = Some m ->
  getitem m "id" = Ret id ->
  let b1 := snd (answer channel_id messages b) in
  composite_key channel_id id ∈ processed_messages b1 /\
  forall b2, later b1 b2 ->
    forall items m' b3,
      on_mcp (get_messages channel_id 100) b2 = (Ret (JArr items), b3) ->
      last items = Some m' ->
      getitem m' "id" = Ret id ->
      _process_channel channel_id b2 = (Ret tt, b3).
Proof.
  intros Hall Hlast Hid b1.
  assert (composite_key channel_id id ∈ processed_messages b1) as Hrec.
  { subst b1. rewrite answer_processed.
    eapply ingested_keys_processed;
      [done | by apply last_Some_elem_of | unfold msg_key; by rewrite Hid]. }
  split; [done|].
  intros b2 Hlater items m' b3 Hfetch Hlast' Hid'.
  unfold _process_channel, try_except_Exception.
  rewrite (cycle_seen _ _ _ _ _ _ Hfetch Hlast' Hid'); [done|].
  pose proof (on_mcp_store (get_messages channel_id 100) b2) as (_ & Hp & _).
  rewrite Hfetch in Hp. simpl in Hp. rewrite Hp.
  by apply (store_steps_le _ _ (later_steps _ _ Hlater)).
Qed.

(** X17. The reply is relayed. Take a poll cycle that reaches the
    generation step -- the fetch returned a window whose most recent
    message is fresh and starts with the trigger, and the context was
    built -- in which the backend returns [text]. Then, unless the
    environment interrupts the send, [_process_channel] returns normally
    having written one request more to the child: the sending of exactly
    [text] to the channel that was polled. The backend was called once,
    with the context built, and the store is the one the building of the
    context left. *)
Theorem reply_relayed channel_id b b1 b2 items fields id s author context
    text c p :
  on_mcp (get_messages channel_id 100) b = (Ret (JArr items), b1) ->
  last items = Some (JObj fields) ->
  getitem (JObj fields) "id" = Ret id ->
  composite_key channel_id id ∉ processed_messages b1 ->
  getitem (JObj fields) "content" = Ret (JStr s) ->
  String.prefix (trigger (config b1)) s = true ->
  getitem (JObj fields) "author" = Ret author ->
  _build_context channel_id
    (answer_window (trigger (config b1)) items fields s) b1
  = (Ret context, b2) ->
  chat (length (chat_log b2)) context = ChatReturns text ->
  mcp b2 = Some c ->
  process c = Some p ->
  (forall e rest, answers p = Fault e :: rest -> is_Exception e = true) ->
  exists b3 c3,
    _process_channel channel_id b = (Ret tt, b3) /\
    mcp b3 = Some c3 /\
    written c3
    = (stdin p
       ++ [request_of (_request_id c + 1) "tools/call"
             (send_params channel_id text)])%list /\
    _request_id c3 = _request_id c + 1 /\
    chat_log b3 = (chat_log b2 ++ [context])%list /\
    conversation_history b3 = conversation_history b2 /\
    processed_messages b3 = processed_messages b2.
Proof.
  intros Hfetch Hlast Hid Hfresh Htext Hpre Hauthor Hbuild Hchat Hc Hp Hint.
  destruct (send_message_state channel_id text
              (set_chat_log (chat_log b2 ++ [context])%list b2) c p Hc Hp)
    as (r & Hsend & Hrec).
  match type of Hsend with
  | _ = (_, set_mcp (Some ?c3) ?b') =>
      exists (set_mcp (Some c3) b'), c3;
      assert (_process_channel channel_id b
              = (Ret tt, set_mcp (Some c3) b')) as Hcycle
  end.
  { unfold _process_channel, try_except_Exception.
    rewrite (cycle_triggered _ _ _ _ _ _ _ _ Hfetch Hlast Hid Hfresh Htext
               Hpre Hauthor).
    unfold answer. unfold bind at 1. rewrite Hbuild.
    unfold bind at 1. rewrite (generate_response_returns _ _ _ Hchat).
    unfold bind at 1. rewrite Hsend.
    destruct r as [v|e|]; simpl in *; [reflexivity| |done].
    destruct Hrec as [He|[rest Hrest]]; [by rewrite He|].
    by rewrite (Hint _ _ Hrest). }
  split; [exact Hcycle|]. repeat (split; [reflexivity|]). reflexivity.
Qed.

(** X18. An interrupt during the generation. When the backend is cut short
    by a keyboard interrupt or by a cancellation, neither the handler of
    [_generate_response] nor that of [_process_channel] catches it: the
    cycle raises it, the call of the backend is logged, nothing is sent to
    the child, and the channels that follow in the list are not visited. *)
Theorem generation_interrupted channel_id b b1 b2 items fields id s author
    context :
  on_mcp (get_messages channel_id 100) b = (Ret (JArr items), b1) ->
  last items = Some (JObj fields) ->
  getitem (JObj fields) "id" = Ret id ->
  composite_key channel_id id ∉ processed_messages b1 ->
  getitem (JObj fields) "content" = Ret (JStr s) ->
  String.prefix (trigger (config b1)) s = true ->
  getitem (JObj fields) "author" = Ret author ->
  _build_context channel_id
    (answer_window (trigger (config b1)) items fields s) b1
  = (Ret context, b2) ->
  chat (length (chat_log b2)) context = ChatInterrupted \/
  chat (length (chat_log b2)) context = ChatCancelled ->
  let b3 := set_chat_log (chat_log b2 ++ [context])%list b2 in
  exists e,
    (e = KeyboardInterrupt \/ e = CancelledError) /\
    (e = KeyboardInterrupt <->
     chat (length (chat_log b2)) context = ChatInterrupted) /\
    _process_channel channel_id b = (Raise e, b3) /\
    mcp b3 = mcp b2 /\
    (forall raw rest,
       strip raw = channel_id -> channel_id <> "" ->
       visit (raw :: rest) b = (Raise e, b3)).
Proof.
  intros Hfetch Hlast Hid Hfresh Htext Hpre Hauthor Hbuild Hchat b3.
  assert (exists e,
            (e = KeyboardInterrupt \/ e = CancelledError) /\
            (e = KeyboardInterrupt <->
             chat (length (chat_log b2)) context = ChatInterrupted) /\
            _generate_response context b2 = (Raise e, b3))
    as (e & He & Hiff & Hgen).
  { unfold _generate_response, try_except_Exception, ollama_chat.
    unfold bind, gets, modify. simpl.
    destruct Hchat as [Hchat|Hchat]; rewrite Hchat.
    - exists KeyboardInterrupt. by split; [left|].
    - exists CancelledError. split; [by right|]. split; [|done].
      split; intros [=]. }
  assert (_process_channel channel_id b = (Raise e, b3)) as Hcycle.
  { unfold _process_channel, try_except_Exception.
    rewrite (cycle_triggered _ _ _ _ _ _ _ _ Hfetch Hlast Hid Hfresh Htext
               Hpre Hauthor).
    unfold answer. unfold bind at 1. rewrite Hbuild.
    unfold bind at 1. rewrite Hgen.
    by destruct He as [->| ->]. }
  exists e. split; [done|]. split; [done|]. split; [done|].
  split; [reflexivity|].
  intros raw rest Hraw Hne. simpl. rewrite Hraw.
  apply String.eqb_neq in Hne. rewrite Hne.
  unfold bind at 1. by rewrite Hcycle.
Qed.

(** X19. What a cycle needs to change the store. A poll cycle leaves the
    processed set and every history as they were, unless its fetch
    returned a list whose most recent element has an id whose key is not
    recorded yet, and a content that is a string: neither an older message
    of the window nor a result of another shape makes the bot record or
    store anything. *)
Theorem store_changes_need_fresh_newest channel_id b :
  let b' := snd (_process_channel channel_id b) in
  (processed_messages b' = processed_messages b /\
   forall other, history b' other = history b other) \/
  exists items m id s b1,
    on_mcp (get_messages channel_id 100) b = (Ret (JArr items), b1) /\
    last items = Some m /\
    getitem m "id" = Ret id /\
    (composite_key channel_id id ∉ processed_messages b) /\
    getitem m "content" = Ret (JStr s).
Proof.
  intros b'. subst b'. rewrite process_channel_state.
  remember (snd (cycle channel_id b)) as final eqn:Hf.
  pose proof (on_mcp_store (get_messages channel_id 100) b) as (Hh & Hp & _).
  unfold cycle in Hf. unfold bind at 1 in Hf.
  destruct (on_mcp (get_messages channel_id 100) b) as [r b1] eqn:Hfetch.
  simpl in Hh, Hp.
  assert (processed_messages b1 = processed_messages b /\
          forall other, history b1 other = history b other) as Hsame
    by (split; [done|]; intros other; unfold history; by rewrite Hh).
  destruct r as [messages|e|]; simpl in Hf; [|subst final; by left..].
  destruct (negb (truthy messages)); [subst final; by left|].
  destruct messages; try (subst final; by left).
  destruct (last items) as [m|] eqn:Hlast; [|subst final; by left].
  unfold bind at 1 in Hf. unfold lift at 1 in Hf.
  destruct (getitem m "id") as [id| |] eqn:Hid; [|subst final; by left..].
  unfold bind at 1 in Hf. unfold gets at 1 in Hf.
  destruct (bool_decide _) eqn:Hseen; [subst final; by left|].
  apply bool_decide_eq_false in Hseen. rewrite Hp in Hseen.
  unfold bind at 1 in Hf. unfold lift at 1 in Hf.
  destruct (getitem m "content") as [text| |] eqn:Htext;
    [|subst final; by left..].
  unfold bind at 1 in Hf. unfold gets at 1 in Hf.
  unfold bind at 1 in Hf. unfold lift at 1 in Hf.
  destruct text; try (subst final; by left).
  right. by exists items, m, id, s, b1.
Qed.

(** ** The configuration *)

Lemma str_split_first sep s :
  exists piece pieces, str_split sep s = piece :: pieces.
Proof.
  induction s as [|a rest (piece & pieces & IH)]; simpl; [by eexists _, _|].
  destruct (Ascii.eqb a sep); [by eexists _, _|].
  rewrite IH. by eexists _, _.
Qed.

Lemma str_split_join sep s :
  str_join (String sep "") (str_split sep s) = s.
Proof.
  induction s as [|a rest IH]; [done|].
  destruct (str_split_first sep rest) as (piece & pieces & Hsplit).
  simpl str_split. rewrite Hsplit in IH |- *.
  destruct (Ascii.eqb_spec a sep) as [->|Hne].
  - change (str_join (String sep "") ("" :: piece :: pieces))
      with (String sep (str_join (String sep "") (piece :: pieces))).
    by rewrite IH.
  - destruct pieces as [|piece' pieces'].
    + simpl in IH |- *. by rewrite IH.
    + change (str_join (String sep "") (String a piece :: piece' :: pieces'))
        with (String a (str_join (String sep "") (piece :: piece' :: pieces'))).
      by rewrite IH.
Qed.

Lemma contains_sep_cons sep a s :
  a <> sep ->
  contains (String sep "") (String a s) = contains (String sep "") s.
Proof.
  intros Hne.
  change (contains (String sep "") (String a s))
    with (String.prefix (String sep "") (String a s)
          || contains (String sep "") s).
  change (String.prefix (String sep "") (String a s))
    with (if ascii_dec sep a then String.prefix "" s else false).
  by destruct (ascii_dec sep a) as [<-|_].
Qed.

Lemma str_split_pieces sep s :
  Forall (fun piece => contains (String sep "") piece = false)
    (str_split sep s).
Proof.
  induction s as [|a rest IH]; [by repeat constructor|].
  simpl. destruct (Ascii.eqb_spec a sep) as [->|Hne].
  - by constructor.
  - destruct (str_split_first sep rest) as (piece & pieces & Hsplit).
    rewrite Hsplit in IH |- *.
    inversion IH as [|? ? Hpiece Hpieces]; subst.
    constructor; [|done]. by rewrite contains_sep_cons.
Qed.

(** X20. The channels of the configuration. The list [from_env] makes of
    [MONITORED_CHANNEL_IDS] is never empty, none of its names holds a
    comma, and joined by commas the names give back the variable: names
    are neither stripped nor dropped. So [run] takes the no-channels path
    exactly when the variable is unset or empty -- the first half of its
    test never holds -- and a variable made of commas or spaces sends it
    to the polling loop. *)
Theorem from_env_channels os cfg :
  from_env os = Ret cfg ->
  let value := getenv os "MONITORED_CHANNEL_IDS" "" in
  channels cfg <> [] /\
  str_join "," (channels cfg) = value /\
  Forall (fun name => contains "," name = false) (channels cfg) /\
  (no_channels (channels cfg) = true <-> value = "").
Proof.
  intros Hcfg value.
  assert (channels cfg = str_split "," value) as ->.
  { unfold from_env in Hcfg.
    destruct (environ os !! "SYSTEM_PROMPT_FILE") as [name|].
    - destruct (String.eqb name ""); [by injection Hcfg as <-|].
      destruct (files os !! name) as [[text|e]|]; [|done|];
        by injection Hcfg as <-.
    - by injection Hcfg as <-. }
  pose proof (str_split_join "," value) as Hjoin.
  destruct (str_split_first "," value) as (piece & pieces & Hsplit).
  split; [by rewrite Hsplit|]. split; [done|].
  split; [apply str_split_pieces|].
  split.
  - rewrite Hsplit in Hjoin |- *. simpl.
    destruct pieces; [|done]. intros Hpiece%String.eqb_eq. by subst.
  - intros ->. done.
Qed.

(** X21. The system prompt of the configuration. A prompt file that is
    named and exists wins over [SYSTEM_PROMPT]: the prompt is the text of
    the file, stripped. A file that is named and does not exist is not an
    error: the prompt is the one of [SYSTEM_PROMPT], or the default one.
    Only the reading of an existing file can make [from_env] raise. *)
Theorem from_env_system_prompt os name :
  environ os !! "SYSTEM_PROMPT_FILE" = Some name ->
  name <> "" ->
  (forall text, files os !! name = Some (inl text) ->
     exists cfg, from_env os = Ret cfg /\ system_prompt cfg = strip text) /\
  (files os !! name = None ->
     exists cfg,
       from_env os = Ret cfg /\
       system_prompt cfg
       = getenv os "SYSTEM_PROMPT"
           "You are a helpful AI assistant integrated with Discord.") /\
  (forall e, from_env os = Raise e <-> files os !! name = Some (inr e)).
Proof.
  intros Hname Hne. apply String.eqb_neq in Hne.
  unfold from_env. rewrite Hname, Hne.
  split; [intros text ->; by eexists|].
  split; [intros ->; by eexists|].
  intros e. destruct (files os !! name) as [[text|e']|]; [done| |done].
  split; [by intros [= ->]|by intros [= ->]].
Qed.

End Further.

(** * The properties on concrete worlds *)

(** Scenario A of the specification: one message that does not start with
    the trigger is recorded, nothing is stored, the backend is not called
    and nothing is sent. *)
Example scenario_A :
  let lib := table_lib
    [("fetch-A", tool_response "window-A");
     ("window-A", JObj [("messages", JArr [alice_hello])])] in
  let world := quiet_env [Line "fetch-A"] (ChatReturns "ok") in
  let b := snd (_process_channel (lib := lib) (world := world) "c1"
                  (snd (initialize (world := world) polling_bot))) in
  elements (processed_messages b) = ["c1:1"] /\
  history b "c1" = [] /\
  chat_log b = [] /\
  request_count b = 1%nat.
Proof. vm_compute. repeat split. Qed.

(** Scenario B: a message that starts with the trigger is answered; the
    context is the system entry and the stripped line, the backend is
    called once, the response is sent to the same channel and the key is
    recorded. *)
Example scenario_B :
  let lib := failing_lib in
  let world := quiet_env [Line "fetch-ask"; Line "ack"] (ChatReturns "noon") in
  let b := snd (_process_channel (lib := lib) (world := world) "c1"
                  (snd (initialize (world := world) polling_bot))) in
  chat_log b = [failing_context] /\
  elements (processed_messages b) = ["c1:2"] /\
  (exists c, mcp b = Some c /\
     last (written c)
     = Some (request_of 2 "tools/call" (send_params "c1" "noon"))).
Proof.
  vm_compute. split; [reflexivity|]. split; [reflexivity|].
  eexists. split; reflexivity.
Qed.

(** The hypotheses of the general theorems hold on these worlds. *)

Lemma ingest_windows_idempotent_witness :
  Forall has_id [alice_hello; bob_asks] /\
  Forall has_id [bob_asks; bob_again] /\
  store_inv (lib := silent_lib) polling_bot /\
  window_union (lib := silent_lib) "c1"
    [alice_hello; bob_asks] [bob_asks; bob_again]
  = [alice_hello; bob_asks; bob_again] /\
  ingest (lib := silent_lib) "c1" [bob_asks; bob_again]
    (snd (ingest (lib := silent_lib) "c1" [alice_hello; bob_asks]
            polling_bot))
  = ingest (lib := silent_lib) "c1" [alice_hello; bob_asks; bob_again]
      polling_bot.
Proof.
  assert (Forall has_id [alice_hello; bob_asks]) as H1
    by (repeat constructor).
  assert (Forall has_id [bob_asks; bob_again]) as H2
    by (repeat constructor).
  assert (store_inv (lib := silent_lib) polling_bot) as H3
    by apply store_inv_init.
  destruct (ingest_windows_idempotent (lib := silent_lib) "c1"
              [alice_hello; bob_asks] [bob_asks; bob_again] polling_bot
              H1 H2 H3) as (E1 & E2 & E3 & _ & _ & _ & E7).
  assert (window_union (lib := silent_lib) "c1"
            [alice_hello; bob_asks] [bob_asks; bob_again]
          = [alice_hello; bob_asks; bob_again]) as Hu.
  { apply (E7 [alice_hello] [bob_asks] [bob_again]); [reflexivity..|].
    vm_compute. repeat constructor; set_solver. }
  split; [exact H1|]. split; [exact H2|]. split; [exact H3|].
  split; [exact Hu|].
  rewrite E2. rewrite <- Hu. by rewrite E3.
Defined.

Lemma store_invariant_witness :
  msg_key (lib := silent_lib) "c1" bob_asks = Some "c1:2" /\
  ("c1:2" ∉ processed_messages polling_bot) /\
  store_inv (lib := silent_lib)
    (do_ops (lib := silent_lib)
       [OpIngest "c1" [alice_hello; bob_asks]; OpMark "c1" (JStr "9")]
       polling_bot) /\
  (history (snd (ingest (lib := silent_lib) "c1" [bob_asks] polling_bot)) "c1"
   = (history polling_bot "c1" ++ [bob_asks])%list) /\
  processed_messages
    (snd (ingest (lib := silent_lib) "c1" [bob_asks] polling_bot))
  = ({["c1:2"]} ∪ processed_messages polling_bot).
Proof.
  assert ("c1:2" ∉ processed_messages polling_bot) as Hfresh
    by (intros Hin; vm_compute in Hin; discriminate Hin).
  destruct (store_invariant (lib := silent_lib) (world := silent_env)
              (demo_config ["c1"])
              [OpIngest "c1" [alice_hello; bob_asks]; OpMark "c1" (JStr "9")]
              polling_bot) as (Hinv & Hstep & _).
  destruct (Hstep "c1" bob_asks "c1:2" eq_refl) as (_ & Hnew & _).
  destruct (Hnew Hfresh) as [Hh Hp].
  split; [reflexivity|]. split; [exact Hfresh|]. split; [exact Hinv|].
  split; [exact Hh | exact Hp].
Defined.

Lemma request_ids_monotonic_witness :
  spawn_fault (Env := replay_env) = None /\
  start (world := replay_env) MCPClient_init
  = (Ret tt, started (world := replay_env) (child (Env := replay_env))) /\
  map request_id
    (written
       (do_calls (lib := replay_lib)
          [CallGetMessages "c1" 100; CallSendMessage "c1" "ok";
           CallListChannels]
          (started (world := replay_env) (child (Env := replay_env)))))
  = [Some 1; Some 2; Some 3].
Proof.
  destruct (request_ids_monotonic (lib := replay_lib) (world := replay_env)
              (child (Env := replay_env))
              [CallGetMessages "c1" 100; CallSendMessage "c1" "ok";
               CallListChannels]) as (Hids & _ & _ & Hstart).
  split; [reflexivity|]. split; [exact (Hstart eq_refl)|]. exact Hids.
Defined.

Lemma trigger_filtering_witness :
  store_inv (lib := replay_lib) replay_bot /\
  fst (on_mcp (get_messages (lib := replay_lib) "c1" 100) replay_bot)
  = Ret (JArr [alice_hello; bob_asks]) /\
  String.prefix "!ai" "!ai what time is it" = true /\
  exists context,
    last context
    = Some {| role := "user"; content := "[bob]: what time is it" |} /\
    chat_log (replay_cycle replay_bot) = [context].
Proof.
  assert (store_inv (lib := replay_lib) replay_bot) as Hinv.
  { intros c stored Hs.
    change (conversation_history replay_bot)
      with (∅ : gmap string (list json)) in Hs.
    by rewrite lookup_empty in Hs. }
  split; [exact Hinv|]. split; [reflexivity|]. split; [reflexivity|].
  destruct (trigger_filtering (lib := replay_lib) (world := replay_env)
              "c1" replay_bot
              (snd (on_mcp (get_messages (lib := replay_lib) "c1" 100)
                      replay_bot))
              [alice_hello] bob_asks (JStr "2") "!ai what time is it")
    as [_ Htrig].
  - exact Hinv.
  - reflexivity.
  - reflexivity.
  - intros Hin. vm_compute in Hin. discriminate Hin.
  - reflexivity.
  - destruct (Htrig eq_refl
                [("id", JStr "2"); ("author", JStr "bob");
                 ("content", JStr "!ai what time is it")] (JStr "bob"))
      as (context & b1' & _ & Hlast & Hlog & _).
    + reflexivity.
    + reflexivity.
    + repeat constructor.
    + vm_compute. constructor.
    + vm_compute. set_solver.
    + exists context. split; [exact Hlast|]. exact Hlog.
Defined.

(** The claim C3 fails without the freshness of the key. In the world of
    the three polls, the second poll fetches alice's greeting as the most
    recent message; its content does not start with the trigger; yet its key
    was recorded, and the message stored, by the first poll, which had
    fetched it before bob's question. The poll leaves the store as it is,
    and the context built by the third poll carries alice's line. *)
Lemma trigger_filtering_counterexample :
  let b1 := replay_cycle replay_bot in
  let b2 := replay_cycle b1 in
  let b3 := replay_cycle b2 in
  fst (on_mcp (get_messages (lib := replay_lib) "c1" 100) b1)
  = Ret (JArr [alice_hello]) /\
  startswith (JStr "hello") (trigger (config b1)) = Ret false /\
  history b2 "c1" = history b1 "c1" /\
  alice_hello ∈ history b2 "c1" /\
  last (chat_log b3)
  = Some [{| role := "system";
             content :=
               "You are a helpful AI assistant integrated with Discord." |};
          {| role := "user"; content := "[alice]: hello" |};
          {| role := "user"; content := "[bob]: what time is it" |};
          {| role := "user"; content := "[bob]: again" |}].
Proof.
  vm_compute. split; [reflexivity|]. split; [reflexivity|].
  split; [reflexivity|]. split; [|reflexivity].
  apply list_elem_of_here.
Qed.

Lemma build_context_unbounded_witness :
  Forall is_message [alice_hello; bob_asks] /\
  Forall is_message (history polling_bot "c1") /\
  store_inv (lib := silent_lib) polling_bot /\
  fst (_build_context (lib := silent_lib) "c1" [alice_hello; bob_asks]
         polling_bot)
  = Ret [{| role := "system";
            content :=
              "You are a helpful AI assistant integrated with Discord." |};
         {| role := "user"; content := "[alice]: hello" |};
         {| role := "user"; content := "[bob]: !ai what time is it" |}].
Proof.
  assert (Forall is_message [alice_hello; bob_asks]) as H1
    by (repeat constructor).
  assert (Forall is_message (history polling_bot "c1")) as H2
    by (vm_compute; constructor).
  assert (store_inv (lib := silent_lib) polling_bot) as H3
    by apply store_inv_init.
  split; [exact H1|]. split; [exact H2|]. split; [exact H3|].
  destruct (build_context_unbounded (lib := silent_lib) "c1"
              [alice_hello; bob_asks] polling_bot H1 H2 H3) as (E & _).
  rewrite E. reflexivity.
Defined.


Lemma closed_output_keeps_polling_witness :
  json_loads (PyLib := silent_lib) "" = None /\
  output_closed exited_bot /\
  output_closed silent_bot /\
  fst (on_mcp (get_messages (lib := silent_lib) "c1" 100) exited_bot)
  = Raise ConnectionResetError /\
  fst (on_mcp (get_messages (lib := silent_lib) "c1" 100) silent_bot)
  = Raise JSONDecodeError /\
  (exists b1,
     run (lib := silent_lib) (world := exited_env) 5 exited_bot
     = (Running, b1) /\
     stop_count b1 = 0%nat /\
     request_count b1 = 5%nat) /\
  (exists b1,
     run (lib := silent_lib) (world := silent_env) 5 silent_bot
     = (Running, b1) /\
     stop_count b1 = 0%nat /\
     request_count b1 = 5%nat).
Proof.
  assert (output_closed exited_bot) as Hexited
    by (eexists _, _; split; [reflexivity|]; split; reflexivity).
  assert (output_closed silent_bot) as Hclosed
    by (eexists _, _; split; [reflexivity|]; split; reflexivity).
  destruct (closed_output_keeps_polling (lib := silent_lib)
              (world := exited_env) 5 exited_bot eq_refl
              (fun _ => eq_refl) eq_refl Hexited)
    as (_ & _ & b1 & Hrun1 & _ & Hstop1 & Hreq1 & _).
  destruct (closed_output_keeps_polling (lib := silent_lib)
              (world := silent_env) 5 silent_bot eq_refl
              (fun _ => eq_refl) eq_refl Hclosed)
    as (_ & _ & b2 & Hrun2 & _ & Hstop2 & Hreq2 & _).
  split; [reflexivity|]. split; [exact Hexited|]. split; [exact Hclosed|].
  split; [reflexivity|]. split; [reflexivity|].
  split.
  - exists b1. split; [exact Hrun1|]. split; [exact Hstop1|]. exact Hreq1.
  - exists b2. split; [exact Hrun2|]. split; [exact Hstop2|]. exact Hreq2.
Defined.

(** The claim C7 fails, whether the child has exited before the first
    poll or has closed its output and lives on. In the first world [drain]
    raises in every fetch, in the second the decoding of the empty line
    fails; every cycle catches that and returns, and [main] is never left:
    there is no number of iterations after which it has returned or
    raised, or after which [stop] has been called. *)
Lemma closed_output_counterexample :
  (~ exists fuel,
       fst (main (lib := silent_lib) (world := exited_env) fuel polling_bot)
       <> Running \/
       stop_count
         (snd (main (lib := silent_lib) (world := exited_env) fuel
                 polling_bot))
       <> 0%nat) /\
  (~ exists fuel,
       fst (main (lib := silent_lib) (world := silent_env) fuel polling_bot)
       <> Running \/
       stop_count
         (snd (main (lib := silent_lib) (world := silent_env) fuel
                 polling_bot))
       <> 0%nat).
Proof.
  split.
  - intros [fuel Hleft].
    assert (output_closed exited_bot) as Hclosed
      by (eexists _, _; split; [reflexivity|]; split; reflexivity).
    destruct (closed_monitor (lib := silent_lib) (world := exited_env) fuel
                exited_bot eq_refl (fun _ => eq_refl) Hclosed)
      as (b1 & Hm & _ & _ & _ & _ & _ & Hstop & _).
    assert (main (lib := silent_lib) (world := exited_env) fuel polling_bot
            = (Running, b1)) as Hmain.
    { unfold main, try_except_Exception. unfold bind at 1.
      change (initialize (world := exited_env) polling_bot)
        with (Ret tt, exited_bot).
      unfold run, bind, gets.
      change (no_channels (channels (config exited_bot))) with false.
      unfold try_except_KeyboardInterrupt_finally. by rewrite Hm. }
    rewrite Hmain in Hleft. simpl in Hleft. rewrite Hstop in Hleft.
    destruct Hleft as [Hleft|Hleft]; by apply Hleft.
  - intros [fuel Hleft].
    assert (output_closed silent_bot) as Hclosed
      by (eexists _, _; split; [reflexivity|]; split; reflexivity).
    destruct (closed_monitor (lib := silent_lib) (world := silent_env) fuel
                silent_bot eq_refl (fun _ => eq_refl) Hclosed)
      as (b1 & Hm & _ & _ & _ & _ & _ & Hstop & _).
    assert (main (lib := silent_lib) (world := silent_env) fuel polling_bot
            = (Running, b1)) as Hmain.
    { unfold main, try_except_Exception. unfold bind at 1.
      change (initialize (world := silent_env) polling_bot)
        with (Ret tt, silent_bot).
      unfold run, bind, gets.
      change (no_channels (channels (config silent_bot))) with false.
      unfold try_except_KeyboardInterrupt_finally. by rewrite Hm. }
    rewrite Hmain in Hleft. simpl in Hleft. rewrite Hstop in Hleft.
    destruct Hleft as [Hleft|Hleft]; by apply Hleft.
Qed.

Lemma malformed_payload_tolerated_witness :
  answers (fetched_process []) = [] /\
  json_loads (PyLib := garbled_lib) "fetch-garbled"
  = Some (tool_response "not json") /\
  json_loads (PyLib := garbled_lib) "not json" = None /\
  fst (on_mcp (get_messages (lib := garbled_lib) "c1" 100) garbled_bot)
  = Raise JSONDecodeError /\
  _process_channel (lib := garbled_lib) (world := garbled_env) "c1"
    garbled_bot
  = (Ret tt, set_mcp (Some (fetched_client [])) garbled_bot).
Proof.
  split; [reflexivity|]. split; [reflexivity|]. split; [reflexivity|].
  destruct (malformed_payload_tolerated (lib := garbled_lib)
              (world := garbled_env) "c1" garbled_bot
              (started (world := garbled_env) [Line "fetch-garbled"])
              {| stdin := []; answers := [Line "fetch-garbled"];
                 terminate_calls := 0; exits := false |}
              "fetch-garbled" [] (tool_response "not json")
              (JObj [("content", JArr [JObj [("text", JStr "not json")]])])
              (JArr [JObj [("text", JStr "not json")]])
              (JObj [("text", JStr "not json")]) "not json")
    as (Hfetch & Hcycle & _).
  - reflexivity.
  - reflexivity.
  - reflexivity.
  - reflexivity.
  - reflexivity.
  - reflexivity.
  - reflexivity.
  - reflexivity.
  - reflexivity.
  - reflexivity.
  - split; [by rewrite Hfetch|]. exact Hcycle.
Defined.

Lemma missing_fields_default_witness :
  json_loads (PyLib := bare_lib) "fetch-bare" = Some ack /\
  json_loads (PyLib := bare_lib) "{}" = Some (JObj []) /\
  lacks_payload (JObj []) /\
  fst (get_messages (lib := bare_lib) "c1" 100 (started (world := bare_env) [Line "fetch-bare"]))
  = Ret (JArr []) /\
  fst (list_channels (lib := bare_lib) (started (world := bare_env) [Line "fetch-bare"]))
  = Ret (JArr []).
Proof.
  split; [reflexivity|]. split; [reflexivity|]. split; [exact I|].
  destruct (missing_fields_default (lib := bare_lib) "c1" 100
              (started (world := bare_env) [Line "fetch-bare"])
              {| stdin := []; answers := [Line "fetch-bare"];
                 terminate_calls := 0; exits := false |}
              "fetch-bare" [] ack (JObj []))
    as (Hget & Hlist).
  - reflexivity.
  - reflexivity.
  - reflexivity.
  - reflexivity.
  - reflexivity.
  - reflexivity.
  - exact I.
  - split; [by rewrite Hget | by rewrite Hlist].
Defined.

(** C9 fails on the no-channels path. No channel is configured and the
    child answers the listing of the channels: whatever the fuel, [main]
    returns normally, the child is still held, and [stop] was never called.
    [run] returns at line 254, before the [try] whose [finally] clause
    stops the child, and [main] stops it in its [except] clause only. *)
Theorem no_channels_path_skips_stop :
  forall fuel,
    exists b,
      main (lib := bootstrap_lib) (world := bootstrap_env) fuel bootstrap_bot
      = (Ret tt, b) /\
      has_child b /\
      stop_count b = 0%nat /\
      request_count b = 1%nat.
Proof.
  intros fuel. eexists. split; [vm_compute; reflexivity|].
  split; [|split; reflexivity].
  eexists _, _. split; reflexivity.
Qed.

(** ** The further properties on concrete worlds *)

Lemma calls_before_start_witness :
  process MCPClient_init = None /\
  do_call (lib := silent_lib) CallListChannels MCPClient_init
  = (Raise RuntimeError, MCPClient_init) /\
  _process_channel (lib := silent_lib) (world := silent_env) "c1" polling_bot
  = (Ret tt, polling_bot).
Proof.
  destruct (calls_before_start (lib := silent_lib) (world := silent_env)
              CallListChannels MCPClient_init eq_refl) as (H1 & _ & H3).
  split; [reflexivity|]. split; [exact H1|]. apply H3. reflexivity.
Defined.

Lemma rpc_error_raises_witness :
  json_loads (PyLib := refusing_lib) "refused"
  = Some (JObj [("id", JNum 0); ("error", JStr "rate limited")]) /\
  fst (do_call (lib := refusing_lib) (CallSendMessage "c1" "noon")
         (started (world := refusing_env) [Line "refused"]))
  = Raise (MCPError (JStr "rate limited")) /\
  fst (_process_channel (lib := refusing_lib) (world := refusing_env) "c1"
         (set_mcp (Some (started (world := refusing_env) [Line "refused"])) polling_bot))
  = Ret tt.
Proof.
  destruct (rpc_error_raises (lib := refusing_lib) (world := refusing_env)
              (CallSendMessage "c1" "noon") (started (world := refusing_env) [Line "refused"])
              {| stdin := []; answers := [Line "refused"];
                 terminate_calls := O; exits := false |}
              "refused" []
              [("id", JNum 0); ("error", JStr "rate limited")]
              (JStr "rate limited") eq_refl eq_refl eq_refl eq_refl)
    as (H1 & H2).
  split; [reflexivity|]. split; [by rewrite H1|].
  by rewrite (H2 "c1" (set_mcp (Some (started (world := refusing_env) [Line "refused"])) polling_bot)
                eq_refl).
Defined.


Lemma only_interrupts_end_polling_witness :
  backend_calm (world := silent_env) /\
  (forall n, sleep_fault (Env := silent_env) n = None) /\
  calm silent_bot /\
  no_channels (channels (config silent_bot)) = false /\
  fst (run (lib := silent_lib) (world := silent_env) 4 silent_bot) = Running /\
  stop_count (snd (run (lib := silent_lib) (world := silent_env) 4
                     silent_bot)) = O.
Proof.
  assert (backend_calm (world := silent_env)) as H1 by (intros n context; exact I).
  assert (calm silent_bot) as H3.
  { intros c p Hc Hp. vm_compute in Hc. injection Hc as <-.
    vm_compute in Hp. injection Hp as <-. constructor. }
  destruct (only_interrupts_end_polling (lib := silent_lib)
              (world := silent_env) 4 silent_bot H1 (fun _ => eq_refl) H3
              eq_refl) as (H5 & H6).
  split; [exact H1|]. split; [reflexivity|]. split; [exact H3|].
  split; [reflexivity|]. split; [exact H5|]. by rewrite H6.
Defined.

Lemma cycle_requests_witness :
  mcp failing_bot = Some (started (world := failing_env) [Line "fetch-ask"; Line "ack"]) /\
  stop_count (snd (_process_channel (lib := failing_lib)
                     (world := failing_env) "c1" failing_bot))
  = stop_count failing_bot.
Proof.
  split; [reflexivity|].
  by destruct (cycle_requests (lib := failing_lib) (world := failing_env)
                 "c1" failing_bot (started (world := failing_env) [Line "fetch-ask"; Line "ack"])
                 {| stdin := []; answers := [Line "fetch-ask"; Line "ack"];
                    terminate_calls := O; exits := false |} eq_refl eq_refl) as (H1 & _).
Defined.

Lemma composite_key_injective_witness :
  contains ":" "c1" = false /\
  composite_key (lib := silent_lib) "c1" (JStr "7") = "c1:7" /\
  "c1" = "c1" /\ "7" = "7".
Proof.
  split; [reflexivity|]. split; [reflexivity|].
  exact (composite_key_injective (lib := silent_lib) "c1" "c1" "7" "7"
           eq_refl eq_refl eq_refl).
Defined.

Lemma composite_key_collides_witness :
  getitem (message "7:8" "alice" "hi") "id" = Ret (JStr "7:8") /\
  getitem (message "8" "bob" "yo") "id" = Ret (JStr "8") /\
  composite_key (lib := silent_lib) "c1:7" (JStr "8")
  = composite_key (lib := silent_lib) "c1" (JStr "7:8") /\
  history
    (snd (ingest (lib := silent_lib) "c1:7" [message "8" "bob" "yo"]
            (snd (ingest (lib := silent_lib) "c1"
                    [message "7:8" "alice" "hi"] polling_bot))))
    "c1:7"
  = [].
Proof.
  destruct (composite_key_collides (lib := silent_lib) "c1" "7" "8"
              (message "7:8" "alice" "hi") (message "8" "bob" "yo")
              polling_bot eq_refl eq_refl) as (H1 & _ & H3 & _).
  split; [reflexivity|]. split; [reflexivity|]. split; [exact H1|].
  etrans; [exact H3|]. vm_compute. reflexivity.
Defined.

Lemma unreadable_message_poisons_witness :
  anonymous ∈ history poisoned_bot "c1" /\
  renders anonymous = false /\
  exists e,
    fst (_build_context (lib := silent_lib) "c1" [bob_asks] poisoned_bot)
    = Raise e /\
    is_Exception e = true.
Proof.
  assert (anonymous ∈ history poisoned_bot "c1") as H1.
  { assert (history poisoned_bot "c1" = [anonymous]) as ->
      by (vm_compute; reflexivity).
    constructor. }
  destruct (unreadable_message_poisons (lib := silent_lib)
              (world := silent_env) "c1" poisoned_bot anonymous H1 eq_refl
              poisoned_bot (later_now _) [bob_asks]) as (H3 & _).
  split; [exact H1|]. split; [reflexivity|]. exact H3.
Defined.

Lemma missing_id_stops_ingestion_witness :
  Forall has_id [alice_hello] /\
  has_id unnumbered = false /\
  exists e,
    is_Exception e = true /\
    ingest (lib := silent_lib) "c1" [alice_hello; unnumbered; bob_asks]
      polling_bot
    = (Raise e, snd (ingest (lib := silent_lib) "c1" [alice_hello]
                       polling_bot)).
Proof.
  assert (Forall has_id [alice_hello]) as H1 by (repeat constructor).
  destruct (missing_id_stops_ingestion (lib := silent_lib) "c1"
              [alice_hello] [bob_asks] unnumbered polling_bot H1 eq_refl)
    as (e & He & Hingest & _).
  split; [exact H1|]. split; [reflexivity|].
  exists e. split; [exact He|]. exact Hingest.
Defined.

Lemma blank_channels_idle_witness :
  Forall (fun channel_id => strip channel_id = "") [""; "  "] /\
  no_channels [""; "  "] = false /\
  run (lib := silent_lib) (world := silent_env) 4
    (DiscordAIBot_init (demo_config [""; "  "]))
  = (Running, set_sleeps 4 (DiscordAIBot_init (demo_config [""; "  "]))).
Proof.
  assert (Forall (fun channel_id => strip channel_id = "") [""; "  "]) as H1
    by (repeat constructor).
  split; [exact H1|]. split; [reflexivity|].
  exact (blank_channels_idle (lib := silent_lib) (world := silent_env) 4
           (DiscordAIBot_init (demo_config [""; "  "])) H1 eq_refl
           (fun _ => eq_refl)).
Defined.

Lemma startup_failures_witness :
  ollama_check (Env := offline_env) = Some OSError /\
  main (lib := silent_lib) (world := offline_env) 3 polling_bot
  = (Raise OSError, polling_bot) /\
  spawn_fault (Env := spawnless_env) = Some OSError /\
  main (lib := silent_lib) (world := spawnless_env) 3 polling_bot
  = (Raise OSError, set_mcp (Some MCPClient_init) polling_bot).
Proof.
  split; [reflexivity|].
  split;
    [exact (proj1 (startup_failures (lib := silent_lib)
                     (world := offline_env) (demo_config ["c1"]) 3 OSError)
              eq_refl)|].
  split; [reflexivity|].
  exact (proj2 (startup_failures (lib := silent_lib) (world := spawnless_env)
                  (demo_config ["c1"]) 3 OSError) eq_refl eq_refl).
Defined.

Lemma startup_interrupt_leaks_witness :
  sleep_fault (Env := hasty_env) 0 = Some KeyboardInterrupt /\
  fst (main (lib := silent_lib) (world := hasty_env) 3 polling_bot)
  = Raise KeyboardInterrupt /\
  has_child (snd (main (lib := silent_lib) (world := hasty_env) 3
                    polling_bot)) /\
  stop_count (snd (main (lib := silent_lib) (world := hasty_env) 3
                     polling_bot)) = O.
Proof.
  destruct (startup_interrupt_leaks (lib := silent_lib) (world := hasty_env)
              (demo_config ["c1"]) 3 KeyboardInterrupt eq_refl eq_refl
              eq_refl) as (Hchild & Hcount & Hleak & _).
  split; [reflexivity|].
  change polling_bot with (DiscordAIBot_init (demo_config ["c1"])).
  rewrite (Hleak eq_refl).
  split; [reflexivity|]. split; [exact Hchild|exact Hcount].
Defined.



Lemma lost_reply_not_retried_witness :
  Forall has_id failing_window /\
  last failing_window = Some (message "2" "bob" "what time is it") /\
  fst (answer (lib := refusing_lib) (world := refusing_env) "c1"
         failing_window refusing_fetched)
  = Raise (MCPError (JStr "rate limited")) /\
  on_mcp (get_messages (lib := refusing_lib) "c1" 100) refusing_answered
  = (Ret (JArr [bob_asks]),
     snd (on_mcp (get_messages (lib := refusing_lib) "c1" 100)
            refusing_answered)) /\
  _process_channel (lib := refusing_lib) (world := refusing_env) "c1"
    refusing_answered
  = (Ret tt,
     snd (on_mcp (get_messages (lib := refusing_lib) "c1" 100)
            refusing_answered)).
Proof.
  assert (Forall has_id failing_window) as H1
    by (vm_compute; repeat constructor).
  assert (on_mcp (get_messages (lib := refusing_lib) "c1" 100)
            refusing_answered
          = (Ret (JArr [bob_asks]),
             snd (on_mcp (get_messages (lib := refusing_lib) "c1" 100)
                    refusing_answered))) as Hfetch
    by (vm_compute; reflexivity).
  destruct (lost_reply_not_retried (lib := refusing_lib)
              (world := refusing_env) "c1" failing_window
              (message "2" "bob" "what time is it") (JStr "2")
              refusing_fetched H1 eq_refl eq_refl) as (_ & Hlater).
  split; [exact H1|]. split; [reflexivity|].
  split; [vm_compute; reflexivity|]. split; [exact Hfetch|].
  exact (Hlater refusing_answered (later_now _) [bob_asks] bob_asks _
           Hfetch eq_refl eq_refl).
Defined.

Lemma reply_relayed_witness :
  on_mcp (get_messages (lib := failing_lib) "c1" 100) failing_bot
  = (Ret (JArr [bob_asks]), failing_fetched) /\
  _build_context (lib := failing_lib) "c1" failing_window failing_fetched
  = (Ret failing_context, failing_built) /\
  chat (Env := answering_env) 0 failing_context = ChatReturns "noon" /\
  exists b3 c3,
    _process_channel (lib := failing_lib) (world := answering_env) "c1"
      failing_bot = (Ret tt, b3) /\
    mcp b3 = Some c3 /\
    written c3
    = [request_of 1 "tools/call" (read_params "c1" 100);
       request_of 2 "tools/call" (send_params "c1" "noon")] /\
    chat_log b3 = [failing_context].
Proof.
  assert (on_mcp (get_messages (lib := failing_lib) "c1" 100) failing_bot
          = (Ret (JArr [bob_asks]), failing_fetched)) as H1
    by (vm_compute; reflexivity).
  assert (_build_context (lib := failing_lib) "c1" failing_window
            failing_fetched
          = (Ret failing_context, failing_built)) as H8
    by (vm_compute; reflexivity).
  split; [exact H1|]. split; [exact H8|]. split; [reflexivity|].
  destruct (reply_relayed (lib := failing_lib) (world := answering_env)
              "c1" failing_bot failing_fetched failing_built [bob_asks]
              [("id", JStr "2"); ("author", JStr "bob");
               ("content", JStr "!ai what time is it")]
              (JStr "2") "!ai what time is it" (JStr "bob")
              failing_context "noon"
              (fetched_client [Line "ack"]) (fetched_process [Line "ack"]))
    as (b3 & c3 & Hpc & Hc3 & Hw & _ & Hlog & _).
  - exact H1.
  - reflexivity.
  - reflexivity.
  - intros Hin. vm_compute in Hin. discriminate Hin.
  - reflexivity.
  - reflexivity.
  - reflexivity.
  - exact H8.
  - reflexivity.
  - vm_compute. reflexivity.
  - reflexivity.
  - intros e rest Hout. discriminate Hout.
  - exists b3, c3. split; [exact Hpc|]. split; [exact Hc3|].
    split; [rewrite Hw; reflexivity|]. rewrite Hlog. reflexivity.
Defined.

Lemma generation_interrupted_witness :
  on_mcp (get_messages (lib := failing_lib) "c1" 100) failing_bot
  = (Ret (JArr [bob_asks]), failing_fetched) /\
  _build_context (lib := failing_lib) "c1" failing_window failing_fetched
  = (Ret failing_context, failing_built) /\
  chat (Env := interrupting_env) 0 failing_context = ChatInterrupted /\
  _process_channel (lib := failing_lib) (world := interrupting_env) "c1"
    failing_bot
  = (Raise KeyboardInterrupt, set_chat_log [failing_context] failing_built).
Proof.
  assert (on_mcp (get_messages (lib := failing_lib) "c1" 100) failing_bot
          = (Ret (JArr [bob_asks]), failing_fetched)) as H1
    by (vm_compute; reflexivity).
  assert (_build_context (lib := failing_lib) "c1" failing_window
            failing_fetched
          = (Ret failing_context, failing_built)) as H8
    by (vm_compute; reflexivity).
  split; [exact H1|]. split; [exact H8|]. split; [reflexivity|].
  destruct (generation_interrupted (lib := failing_lib)
              (world := interrupting_env)
              "c1" failing_bot failing_fetched failing_built [bob_asks]
              [("id", JStr "2"); ("author", JStr "bob");
               ("content", JStr "!ai what time is it")]
              (JStr "2") "!ai what time is it" (JStr "bob")
              failing_context)
    as (e & _ & Hiff & Hpc & _).
  - exact H1.
  - reflexivity.
  - reflexivity.
  - intros Hin. vm_compute in Hin. discriminate Hin.
  - reflexivity.
  - reflexivity.
  - reflexivity.
  - exact H8.
  - left. reflexivity.
  - rewrite Hpc. rewrite (proj2 Hiff eq_refl). reflexivity.
Defined.

Lemma from_env_channels_witness :
  from_env two_channels_os = Ret (demo_config ["c1"; " c2"]) /\
  str_join "," ["c1"; " c2"] = "c1, c2" /\
  no_channels ["c1"; " c2"] = false.
Proof.
  assert (from_env two_channels_os = Ret (demo_config ["c1"; " c2"])) as H1
    by (vm_compute; reflexivity).
  destruct (from_env_channels two_channels_os (demo_config ["c1"; " c2"]) H1)
    as (_ & Hjoin & _ & Hnone).
  split; [exact H1|]. split; [exact Hjoin|].
  destruct (no_channels ["c1"; " c2"]) eqn:Htest; [|reflexivity].
  discriminate (proj1 Hnone Htest).
Defined.

Lemma from_env_system_prompt_witness :
  environ prompt_file_os !! "SYSTEM_PROMPT_FILE" = Some "prompt.txt" /\
  files prompt_file_os !! "prompt.txt" = Some (inl "  Be brief.  ") /\
  exists cfg,
    from_env prompt_file_os = Ret cfg /\ system_prompt cfg = "Be brief.".
Proof.
  assert (environ prompt_file_os !! "SYSTEM_PROMPT_FILE" = Some "prompt.txt")
    as H1 by (vm_compute; reflexivity).
  assert ("prompt.txt" <> "") as H2 by discriminate.
  assert (files prompt_file_os !! "prompt.txt" = Some (inl "  Be brief.  "))
    as H3 by (vm_compute; reflexivity).
  destruct (from_env_system_prompt prompt_file_os "prompt.txt" H1 H2)
    as (Hfile & _ & _).
  destruct (Hfile _ H3) as (cfg & Hcfg & Hprompt).
  split; [exact H1|]. split; [exact H3|].
  exists cfg. split; [exact Hcfg|]. rewrite Hprompt. reflexivity.
Defined.
